(** * Market-structure analytics: a shallow embedding and its properties

    This development embeds the analytics engine of the market data server
    (volume profile, fair value gaps, opening-range breakout, technical
    zones) as executable Rocq functions and proves properties of them.

    Conventions of the embedding:
    - Python/NumPy floating-point numbers are modelled by exact rationals
      ([Q]); comparisons of computed quantities are stated with [==].
    - A pandas DataFrame is a list of row records, oldest row first.
    - A Python [dict] whose iteration order matters is an association list in
      insertion order.
    - [None] is [option]'s [None]. *)

From Stdlib Require Import String.
From Stdlib Require Import QArith Qminmax Qround Qabs Lqa.
From Stdlib Require Import ZArith Lia List Bool Permutation Sorted.
Import ListNotations.

Open Scope Q_scope.

(* ================================================================== *)
(** * Numeric helpers shared by all components *)
(* ================================================================== *)

Module Numeric.

(** Strict comparison on rationals as a boolean. *)
Definition Qlt_bool (x y : Q) : bool := negb (Qle_bool y x).

(** Round to the nearest integer, ties to the even neighbour: the rule of
    Python's and NumPy's [round]. *)
Definition rint (x : Q) : Z :=
  let f := Qfloor x in
  match Qcompare (x - inject_Z f) (1 # 2) with
  | Lt => f
  | Gt => (f + 1)%Z
  | Eq => if Z.even f then f else (f + 1)%Z
  end.

(** [10 ^ n] as a rational. *)
Definition pow10 (n : nat) : Q := inject_Z (10 ^ Z.of_nat n).

(** [round(x, ndigits)]. *)
Definition round (x : Q) (ndigits : nat) : Q :=
  inject_Z (rint (x * pow10 ndigits)) / pow10 ndigits.

(** Sum of a list of rationals, left to right, as Python's [sum]. *)
Definition Qsum (l : list Q) : Q := fold_left Qplus l 0.

(** [Series.mean()] of a non-empty column. *)
Definition mean (l : list Q) : Q := Qsum l / inject_Z (Z.of_nat (length l)).

(** [df.tail(n)]: the last [n] rows. *)
Definition tail {A : Type} (n : nat) (l : list A) : list A :=
  skipn (length l - n) l.

(** Python's [list.sort] / [sorted] is stable: an element is placed before
    the first element that is not smaller than it.  [leb x y] is the test
    [x <= y] of the sort order. *)
Fixpoint insert_sorted {A : Type} (leb : A -> A -> bool) (x : A) (l : list A)
  : list A :=
  match l with
  | [] => [x]
  | y :: r => if leb x y then x :: y :: r else y :: insert_sorted leb x r
  end.

Definition sorted {A : Type} (leb : A -> A -> bool) (l : list A) : list A :=
  fold_right (insert_sorted leb) [] l.

(** [sorted(l, key=key)], ascending. *)
Definition sorted_by_key {A : Type} (key : A -> Q) (l : list A) : list A :=
  sorted (fun x y => Qle_bool (key x) (key y)) l.

(** [sorted(l, key=key, reverse=True)]: descending, still stable. *)
Definition sorted_by_key_reverse {A : Type} (key : A -> Q) (l : list A) : list A :=
  sorted (fun x y => Qle_bool (key y) (key x)) l.

(** [Series.max()] and [Series.min()]; [None] on an empty column (NaN). *)
Definition series_max (l : list Q) : option Q :=
  match l with
  | [] => None
  | x :: r => Some (fold_left Qmax r x)
  end.

Definition series_min (l : list Q) : option Q :=
  match l with
  | [] => None
  | x :: r => Some (fold_left Qmin r x)
  end.

(** Equality of optional floats, by value. *)
Definition opt_Qeq (a : option Q) (b : Q) : Prop :=
  match a with
  | Some x => x == b
  | None => False
  end.

End Numeric.

Import Numeric.

(* ================================================================== *)
(** * The bar data model *)
(* ================================================================== *)

Module Data.

(** One row of an OHLCV frame.  [c_stamp] is the row's timestamp in seconds
    when the frame carries one ([None] when the frame has neither a
    [datetime] column nor a datetime index). *)
Record Candle : Type := mkCandle {
  c_stamp : option Z;
  c_open : Q;
  c_high : Q;
  c_low : Q;
  c_close : Q;
  c_volume : Q
}.

(** Kinds of technical zone. *)
Inductive ZoneType : Type :=
| SUPPORT | RESISTANCE | NEUTRAL | TARGET_UPSIDE | TARGET_DOWNSIDE.

(** The timeframes of the zone aggregation. *)
Inductive TimeframeKey : Type := tf_1m | tf_5m | tf_1d.

(** A zone carries either a single level or a price range. *)
Inductive ZonePayload : Type :=
| Level (level : Q)
| Range (range_start range_end : Q).

(** Zone names are formatted strings in the code; the embedding keeps the
    pieces they are formatted from. *)
Inductive ZoneName : Type :=
| NamePOC (tf : TimeframeKey)
| NameVAH (tf : TimeframeKey)
| NameVAL (tf : TimeframeKey)
| NameHVN (tf : TimeframeKey) (start : Q)
| NameLVN (tf : TimeframeKey) (start : Q)
| NameFib (level_name : string)
| NamePlusATR (tf : TimeframeKey)
| NameMinusATR (tf : TimeframeKey)
| NamePDH
| NamePDL.

Inductive ZoneSource : Type :=
| SrcVolumeProfile (bars_interval : string)
| SrcFibonacci (lookback_periods : positive)
| SrcATR (indicator_interval : string)
| SrcDailyBar.

Record Zone : Type := mkZone {
  z_type : ZoneType;
  z_name : ZoneName;
  z_payload : ZonePayload;
  z_source : ZoneSource
}.

End Data.

Import Data.

(* ================================================================== *)
(** * Fair value gaps ([fvg_calculator.py]) *)
(* ================================================================== *)

Module FVG.

Inductive GapType : Type := bullish | bearish.

(** [gap_id]: the timeframe joined with the formatted formation timestamp, or
    with [gap_<i>] when the row has no timestamp. *)
Inductive GapId : Type :=
| IdStamp (tf : string) (stamp : Z)
| IdIndex (tf : string) (i : nat).

(** The [high]/[low]/[close] snapshot kept for each of the three candles. *)
Record CandleSnap : Type := mkSnap { s_high : Q; s_low : Q; s_close : Q }.

Record CandleData : Type := mkCandleData {
  candle_1 : CandleSnap;
  candle_2 : CandleSnap;
  candle_3 : CandleSnap
}.

Record VolumeData : Type := mkVolumeData {
  candle_1_volume : Q;
  candle_2_volume : Q;
  candle_3_volume : Q;
  avg_volume_20_periods : Q
}.

(** The [FairValueGap] dataclass.  [timestamp] is [None] when the code falls
    back to the wall clock. *)
Record FairValueGap : Type := mkFVG {
  gap_id : GapId;
  gap_type : GapType;
  timeframe : string;
  timestamp : option Z;
  gap_high : Q;
  gap_low : Q;
  gap_size : Q;
  gap_midpoint : Q;
  candle_data : CandleData;
  volume_data : VolumeData;
  age_minutes : Z;
  times_tested : nat;
  lowest_test : option Q;
  highest_test : option Q;
  filled_percentage : Q;
  currently_inside_gap : bool
}.

(** The calculator object: its only attribute. *)
Record FVGCalculator : Type := mkCalc { min_gap_percentage : Q }.

(** Default construction, [FVGCalculator(min_gap_percentage=0.1)]. *)
Definition default_calculator : FVGCalculator := mkCalc (1 # 10).

(** Running state of the scan over the candles that follow a gap. *)
Record Scan : Type := mkScan {
  tests : nat;
  lowest : option Q;
  highest : option Q
}.

Definition scan_init : Scan := mkScan 0 None None.

(** The test "candle touched the gap":
    [candle_low <= gap_high and candle_high >= gap_low]. *)
Definition touches (fvg : FairValueGap) (candle : Candle) : bool :=
  Qle_bool (c_low candle) (gap_high fvg) && Qle_bool (gap_low fvg) (c_high candle).

(** One iteration of the loop over [price_history.iterrows()]. *)
Definition scan_step (fvg : FairValueGap) (st : Scan) (candle : Candle) : Scan :=
  if touches fvg candle then
    let test_low := Qmax (c_low candle) (gap_low fvg) in
    let test_high := Qmin (c_high candle) (gap_high fvg) in
    mkScan (S (tests st))
      (match lowest st with
       | None => Some test_low
       | Some lo => if Qlt_bool test_low lo then Some test_low else Some lo
       end)
      (match highest st with
       | None => Some test_high
       | Some hi => if Qlt_bool hi test_high then Some test_high else Some hi
       end)
  else st.

Definition scan (fvg : FairValueGap) (price_history : list Candle) : Scan :=
  fold_left (scan_step fvg) price_history scan_init.

(** The fill percentage assigned at the end of the interaction analysis; the
    field keeps its previous value when the guard fails. *)
Definition fill_of (fvg : FairValueGap) (st : Scan) : Q :=
  match tests st, lowest st, highest st with
  | S _, Some lo, Some hi => Qmin ((hi - lo) / gap_size fvg * 100) 100
  | _, _, _ => filled_percentage fvg
  end.

(** [_analyze_gap_interaction]: the in-place update of the gap, returned as
    the updated record. *)
Definition _analyze_gap_interaction
  (fvg : FairValueGap) (price_history : list Candle) (current_price : Q)
  : FairValueGap :=
  match price_history with
  | [] => fvg
  | _ =>
    let st := scan fvg price_history in
    mkFVG (gap_id fvg) (gap_type fvg) (timeframe fvg) (timestamp fvg)
      (gap_high fvg) (gap_low fvg) (gap_size fvg) (gap_midpoint fvg)
      (candle_data fvg) (volume_data fvg) (age_minutes fvg)
      (tests st) (lowest st) (highest st)
      (fill_of fvg st)
      (Qle_bool (gap_low fvg) current_price && Qle_bool current_price (gap_high fvg))
  end.

(** The three-candle pattern test: boundaries and kind of the gap between the
    oldest candle and the newest one, if any. *)
Definition find_pattern (candle1 candle3 : Candle) : option (GapType * Q * Q) :=
  if Qlt_bool (c_high candle1) (c_low candle3) then
    Some (bullish, c_high candle1, c_low candle3)
  else if Qlt_bool (c_high candle3) (c_low candle1) then
    Some (bearish, c_high candle3, c_low candle1)
  else None.

(** "Skip if gap is too small".  A zero midpoint makes the float quotient
    infinite (or not a number), which is never below the threshold. *)
Definition too_small (self : FVGCalculator) (gap_size gap_midpoint : Q) : bool :=
  if Qeq_bool gap_midpoint 0 then false
  else Qlt_bool (gap_size / gap_midpoint * 100) (min_gap_percentage self).

Definition snap (c : Candle) : CandleSnap :=
  mkSnap (c_high c) (c_low c) (c_close c).

(** Mean volume of the first twenty rows, or of all rows when fewer. *)
Definition avg_volume_20 (df_analysis : list Candle) : Q :=
  if (20 <=? length df_analysis)%nat
  then mean (map c_volume (firstn 20 df_analysis))
  else mean (map c_volume df_analysis).

(** The gap object as first built in the loop body, before the interaction
    analysis: the test fields hold the dataclass defaults. *)
Definition new_gap (df_analysis : list Candle) (tf : string) (now : Z) (i : nat)
  (candle1 candle2 candle3 : Candle) (kind : GapType) (lo hi : Q) : FairValueGap :=
  mkFVG
    (match c_stamp candle3 with
     | Some t => IdStamp tf t
     | None => IdIndex tf i
     end)
    kind tf (c_stamp candle3)
    hi lo (hi - lo) ((hi + lo) / 2)
    (mkCandleData (snap candle1) (snap candle2) (snap candle3))
    (mkVolumeData (c_volume candle1) (c_volume candle2) (c_volume candle3)
       (avg_volume_20 df_analysis))
    (match c_stamp candle3 with
     | Some t => Z.quot (now - t) 60
     | None => Z.of_nat i
     end)
    0 None None 0 false.

(** The body of the detection loop at index [i]. *)
Definition detect_at (self : FVGCalculator) (df_analysis : list Candle)
  (tf : string) (current_price : Q) (now : Z) (i : nat) : option FairValueGap :=
  match nth_error df_analysis i,
        nth_error df_analysis (i - 1),
        nth_error df_analysis (i - 2) with
  | Some candle3, Some candle2, Some candle1 =>
    match find_pattern candle1 candle3 with
    | Some (kind, lo, hi) =>
      if too_small self (hi - lo) ((hi + lo) / 2) then None
      else
        Some (_analyze_gap_interaction
                (new_gap df_analysis tf now i candle1 candle2 candle3 kind lo hi)
                (skipn (i + 1) df_analysis) current_price)
    | None => None
    end
  | _, _, _ => None
  end.

Definition opt_list {A : Type} (o : option A) : list A :=
  match o with Some a => [a] | None => [] end.

(** [detect_fvgs].  [now] is the wall-clock reading [datetime.now()], in
    seconds. *)
Definition detect_fvgs (self : FVGCalculator) (df : list Candle) (tf : string)
  (current_price : Q) (lookback_periods : nat) (now : Z) : list FairValueGap :=
  if (length df <? 3)%nat then []
  else
    let df_analysis := tail (Nat.min lookback_periods (length df)) df in
    flat_map (fun i => opt_list (detect_at self df_analysis tf current_price now i))
      (rev (seq 2 (length df_analysis - 2))).

(** One entry of the nearest-gap lists. *)
Record GapInfo : Type := mkGapInfo {
  level : Q;
  info_timeframe : string;
  info_gap_id : GapId;
  distance : Q;
  info_gap_type : GapType;
  info_filled_percentage : Q
}.

(** The entry built for a gap.  [round] acts on the exact value; Python
    rounds the double it holds, so on a decimal tie of the exact value the
    last digit of [level] or [distance] can differ by one. *)
Definition gap_info (gap : FairValueGap) (current_price : Q) : GapInfo :=
  mkGapInfo (round (gap_midpoint gap) 2) (timeframe gap) (gap_id gap)
    (round (Qabs (gap_midpoint gap - current_price)) 2)
    (gap_type gap) (round (filled_percentage gap) 1).

(** One iteration of the partitioning loop; the state is the pair
    [(gaps_above, gaps_below)]. *)
Definition partition_step (current_price : Q)
  (st : list GapInfo * list GapInfo) (gap : FairValueGap)
  : list GapInfo * list GapInfo :=
  if Qlt_bool current_price (gap_low gap) then
    (fst st ++ [gap_info gap current_price], snd st)
  else if Qlt_bool (gap_high gap) current_price then
    (fst st, snd st ++ [gap_info gap current_price])
  else st.

Record NearestGaps : Type := mkNearest {
  above_current_price : list GapInfo;
  below_current_price : list GapInfo
}.

(** [find_nearest_gaps]; [max_gaps] defaults to 3. *)
Definition find_nearest_gaps (gaps : list FairValueGap) (current_price : Q)
  (max_gaps : nat) : NearestGaps :=
  let st := fold_left (partition_step current_price) gaps ([], []) in
  mkNearest (firstn max_gaps (sorted_by_key distance (fst st)))
            (firstn max_gaps (sorted_by_key distance (snd st))).

Definition default_max_gaps : nat := 3.

(** ** Vocabulary of the properties *)

(** The scenario series: three bars with the given highs, lows and volumes
    (timestamps, opens and closes are free), and the fourth bar appended to
    it. *)
Definition scenario_bars (s1 s2 s3 : option Z) (o1 o2 o3 k1 k2 k3 : Q)
  : list Candle :=
  [ mkCandle s1 o1 100 98 k1 1000;
    mkCandle s2 o2 101 99 k2 500;
    mkCandle s3 o3 104 102 k3 1000 ].

Definition scenario_bar4 (s4 : option Z) (o4 k4 v4 : Q) : Candle :=
  mkCandle s4 o4 103 (201 # 2) k4 v4.










(** A bar is well formed when its low does not exceed its high. *)
Definition well_formed (c : Candle) : Prop := c_low c <= c_high c.

(** The invariant of the scan: no test recorded and both extremes unset, or
    at least one test and the extremes ordered inside the gap. *)
Definition scan_ok (fvg : FairValueGap) (st : Scan) : Prop :=
  match tests st, lowest st, highest st with
  | O, None, None => True
  | S _, Some lo, Some hi =>
    gap_low fvg <= lo /\ lo <= hi /\ hi <= gap_high fvg
  | _, _, _ => False
  end.

(** Width of the tested sub-range. *)
Definition span (st : Scan) : Q :=
  match lowest st, highest st with
  | Some lo, Some hi => hi - lo
  | _, _ => 0
  end.

(** The fill percentage as a function of the scan state. *)
Definition fill_value (fvg : FairValueGap) (st : Scan) : Q :=
  Qmin (span st / gap_size fvg * 100) 100.

End FVG.

(* ================================================================== *)
(** * Volume profile and Fibonacci levels ([technical_analysis.py]) *)
(* ================================================================== *)

Module TechnicalAnalysis.

(** [np.linspace(start, stop, num)]: [num] evenly spaced samples, end points
    included. *)
Definition linspace (start stop : Q) (num : nat) : list Q :=
  map (fun i => start + inject_Z (Z.of_nat i)
                        * ((stop - start) / inject_Z (Z.of_nat (num - 1))))
      (seq 0 num).

(** [np.searchsorted(a, v, side='left')] on an ascending array: the number of
    leading entries strictly below [v]. *)
Fixpoint searchsorted_left (a : list Q) (v : Q) : nat :=
  match a with
  | [] => 0
  | x :: r => if Qlt_bool x v then S (searchsorted_left r v) else 0
  end.

(** [np.searchsorted(a, v, side='right')]: the number of leading entries not
    above [v]. *)
Fixpoint searchsorted_right (a : list Q) (v : Q) : nat :=
  match a with
  | [] => 0
  | x :: r => if Qle_bool x v then S (searchsorted_right r v) else 0
  end.

(** The dictionary [volume_by_price], in insertion order; keys are compared
    as floats are, by value. *)
Definition PriceDict : Type := list (Q * Q).

Fixpoint dict_get (d : PriceDict) (k : Q) (default : Q) : Q :=
  match d with
  | [] => default
  | (k', v) :: r => if Qeq_bool k' k then v else dict_get r k default
  end.

Fixpoint dict_set (d : PriceDict) (k : Q) (v : Q) : PriceDict :=
  match d with
  | [] => [(k, v)]
  | (k', v') :: r =>
    if Qeq_bool k' k then (k', v) :: r else (k', v') :: dict_set r k v
  end.

(** The inner loop body: credit [volume_per_bin] to bin [bin_idx] when the
    index names a bin. *)
Definition credit_bin (bins : list Q) (price_precision : nat)
  (volume_per_bin : Q) (d : PriceDict) (bin_idx : nat) : PriceDict :=
  if (bin_idx <? length bins - 1)%nat then
    let bin_price :=
      round ((nth bin_idx bins 0 + nth (bin_idx + 1) bins 0) / 2) price_precision in
    dict_set d bin_price (dict_get d bin_price 0 + volume_per_bin)
  else d.

(** The outer loop body: one bar of [df.iterrows()]. *)
Definition add_bar (bins : list Q) (price_precision : nat)
  (d : PriceDict) (row : Candle) : PriceDict :=
  let low_bin_idx := searchsorted_left bins (c_low row) in
  let high_bin_idx := searchsorted_right bins (c_high row) in
  if (low_bin_idx <? high_bin_idx)%nat then
    let volume_per_bin :=
      c_volume row / inject_Z (Z.of_nat (high_bin_idx - low_bin_idx)) in
    fold_left (credit_bin bins price_precision volume_per_bin)
      (seq low_bin_idx (high_bin_idx - low_bin_idx)) d
  else d.

Definition build_volume_by_price (bins : list Q) (price_precision : nat)
  (df : list Candle) : PriceDict :=
  fold_left (add_bar bins price_precision) df [].

(** The value-area loop.  [left_idx] may reach [-1]; [fuel] bounds the number
    of iterations and [None] is returned only when it runs out. *)
Fixpoint expand_value_area (fuel : nat) (volume_by_price : PriceDict)
  (all_prices_sorted : list Q) (value_area_volume : Q)
  (value_area_prices : list Q) (accumulated_volume : Q)
  (left_idx : Z) (right_idx : nat) : option (list Q * Q) :=
  match fuel with
  | O => None
  | S fuel' =>
    if Qlt_bool accumulated_volume value_area_volume then
      let left_volume :=
        if (0 <=? left_idx)%Z
        then dict_get volume_by_price (nth (Z.to_nat left_idx) all_prices_sorted 0) 0
        else 0 in
      let right_volume :=
        if (right_idx <? length all_prices_sorted)%nat
        then dict_get volume_by_price (nth right_idx all_prices_sorted 0) 0
        else 0 in
      if Qle_bool right_volume left_volume && (0 <=? left_idx)%Z then
        expand_value_area fuel' volume_by_price all_prices_sorted value_area_volume
          (value_area_prices ++ [nth (Z.to_nat left_idx) all_prices_sorted 0])
          (accumulated_volume + left_volume) (left_idx - 1)%Z right_idx
      else if (right_idx <? length all_prices_sorted)%nat then
        expand_value_area fuel' volume_by_price all_prices_sorted value_area_volume
          (value_area_prices ++ [nth right_idx all_prices_sorted 0])
          (accumulated_volume + right_volume) left_idx (S right_idx)
      else Some (value_area_prices, accumulated_volume)
    else Some (value_area_prices, accumulated_volume)
  end.

(** [list.index(x)]: position of the first entry equal to [x]. *)
Fixpoint index_of (l : list Q) (x : Q) : option nat :=
  match l with
  | [] => None
  | y :: r => if Qeq_bool y x then Some 0%nat else option_map S (index_of r x)
  end.

(** A high- or low-volume node. *)
Record Node : Type := mkNode { n_start : Q; n_end : Q; n_volume : Q }.

(** Merge a bin into the first node close enough to it; [None] when no node
    qualifies.  [pick] is [max] for high-volume nodes, [min] for low-volume
    ones. *)
Fixpoint merge_into (pick : Q -> Q -> Q) (bin_width price volume : Q)
  (nodes : list Node) : option (list Node) :=
  match nodes with
  | [] => None
  | nd :: r =>
    if Qle_bool (Qabs (price - n_start nd)) (bin_width * (3 # 2)) then
      Some (mkNode (Qmin (n_start nd) price) (Qmax (n_end nd) price)
                   (pick (n_volume nd) volume) :: r)
    else option_map (cons nd) (merge_into pick bin_width price volume r)
  end.

(** One iteration of a node-grouping loop over [(price, volume)] items that
    pass [qualifies]. *)
Definition node_step (pick : Q -> Q -> Q) (qualifies : Q -> bool)
  (bin_width : Q) (price_precision : nat)
  (nodes : list Node) (item : Q * Q) : list Node :=
  let (price, volume) := item in
  if qualifies volume then
    match merge_into pick bin_width price volume nodes with
    | Some nodes' => nodes'
    | None =>
      nodes ++ [mkNode (round (price - bin_width / 2) price_precision)
                       (round (price + bin_width / 2) price_precision)
                       volume]
    end
  else nodes.

Record Profile : Type := mkProfile {
  point_of_control : Q;
  value_area_high : Q;
  value_area_low : Q;
  high_volume_nodes : list Node;
  low_volume_nodes : list Node;
  total_volume : Q;
  value_area_volume : Q;
  (** [None] stands for the float NaN or infinity that the division yields
      when [total_volume] is zero. *)
  value_area_percentage : option Q
}.

(** The items of the dictionary ordered by volume, largest first. *)
Definition sorted_prices_of (volume_by_price : PriceDict) : list (Q * Q) :=
  sorted_by_key_reverse snd volume_by_price.

(** The value area grown around the point of control: the included prices and
    the accumulated volume. *)
Definition value_area_of (volume_by_price : PriceDict) (poc : Q)
  : option (list Q * Q) :=
  let sorted_prices := sorted_prices_of volume_by_price in
  let total_volume := Qsum (map snd sorted_prices) in
  let all_prices_sorted := sorted_by_key (fun p => p) (map fst volume_by_price) in
  match index_of all_prices_sorted poc with
  | None => None
  | Some poc_price_idx =>
    expand_value_area (S (length all_prices_sorted)) volume_by_price
      all_prices_sorted (total_volume * (7 # 10))
      [poc] (dict_get volume_by_price poc 0)
      (Z.of_nat poc_price_idx - 1)%Z (poc_price_idx + 1)%nat
  end.

(** The bin edges: [None] when the frame is empty, the price range is
    degenerate, or [num_bins] is zero (indexing the single edge then
    raises, and the function returns [None]). *)
Definition price_bins (df : list Candle) (num_bins : nat) : option (list Q) :=
  match series_min (map c_low df), series_max (map c_high df) with
  | Some price_min, Some price_max =>
    if Qle_bool price_max price_min then None
    else
      match num_bins with
      | O => None
      | S _ => Some (linspace price_min price_max (num_bins + 1))
      end
  | _, _ => None
  end.

(** The part of [calculate_volume_profile] that follows the loop over the
    bars: key levels, value area and nodes from the filled dictionary. *)
Definition profile_of_dict (bins : list Q) (price_precision : nat)
  (volume_by_price : PriceDict) : option Profile :=
  let bin_width := nth 1 bins 0 - nth 0 bins 0 in
  let sorted_prices := sorted_prices_of volume_by_price in
  match sorted_prices with
  | [] => None
  | (poc, _) :: _ =>
    let total_volume := Qsum (map snd sorted_prices) in
    match value_area_of volume_by_price poc with
    | None => None
    | Some (value_area_prices, accumulated_volume) =>
      match series_max value_area_prices, series_min value_area_prices with
      | Some vah, Some val =>
        let n := length sorted_prices in
        let hvn_threshold :=
          if (5 <? n)%nat then snd (nth (n / 5) sorted_prices (0, 0))
          else snd (last sorted_prices (0, 0)) in
        let hvns :=
          fold_left
            (node_step Qmax (fun v => Qle_bool hvn_threshold v)
               bin_width price_precision)
            sorted_prices [] in
        let lvn_threshold :=
          if (5 <? n)%nat then snd (nth (4 * n / 5) sorted_prices (0, 0))
          else snd (hd (0, 0) sorted_prices) in
        let lvns :=
          fold_left
            (node_step Qmin (fun v => Qle_bool v lvn_threshold)
               bin_width price_precision)
            (rev sorted_prices) [] in
        Some (mkProfile
                (round poc price_precision)
                (round vah price_precision)
                (round val price_precision)
                (firstn 5 hvns) (firstn 5 lvns)
                total_volume accumulated_volume
                (if Qeq_bool total_volume 0 then None
                 else Some (round (accumulated_volume / total_volume * 100) 2)))
      | _, _ => None
      end
    end
  end.

(** [calculate_volume_profile]; [num_bins] defaults to 20 and
    [price_precision] to 2. *)
Definition calculate_volume_profile (df : list Candle) (num_bins : nat)
  (price_precision : nat) : option Profile :=
  match price_bins df num_bins with
  | None => None
  | Some bins =>
    profile_of_dict bins price_precision
      (build_volume_by_price bins price_precision df)
  end.

Definition default_num_bins : nat := 20.
Definition default_price_precision : nat := 2.

(** The nine Fibonacci levels: name, numeric value of the name, price. *)
Definition fib_levels (swing_low swing_high : Q) : list (string * Q * Q) :=
  let price_range := swing_high - swing_low in
  [ ("0.0"%string, 0, swing_low);
    ("0.236"%string, 236 # 1000, swing_low + price_range * (236 # 1000));
    ("0.382"%string, 382 # 1000, swing_low + price_range * (382 # 1000));
    ("0.5"%string, 1 # 2, swing_low + price_range * (1 # 2));
    ("0.618"%string, 618 # 1000, swing_low + price_range * (618 # 1000));
    ("0.786"%string, 786 # 1000, swing_low + price_range * (786 # 1000));
    ("1.0"%string, 1, swing_high);
    ("1.272"%string, 1272 # 1000, swing_high + price_range * (272 # 1000));
    ("1.618"%string, 1618 # 1000, swing_high + price_range * (618 # 1000)) ].

Definition fib_zone (lookback_periods : positive) (price_precision : nat)
  (current_price : Q) (lv : string * Q * Q) : Zone :=
  let '(level_name, level_value, level_price) := lv in
  mkZone
    (if Qle_bool level_value 1 then
       if Qlt_bool level_price current_price then SUPPORT else RESISTANCE
     else TARGET_UPSIDE)
    (NameFib level_name)
    (Level (round level_price price_precision))
    (SrcFibonacci lookback_periods).

(** [calculate_fibonacci_levels]; [lookback_periods] defaults to 50 and is a
    positive count. *)
Definition calculate_fibonacci_levels (df : list Candle)
  (lookback_periods : positive) (price_precision : nat) : list Zone :=
  if (length df <? Pos.to_nat lookback_periods)%nat then []
  else
    let recent_df := tail (Pos.to_nat lookback_periods) df in
    match series_max (map c_high recent_df), series_min (map c_low recent_df),
          last (map (fun c => Some (c_close c)) df) None with
    | Some swing_high, Some swing_low, Some current_price =>
      if Qle_bool swing_high swing_low then []
      else map (fib_zone lookback_periods price_precision current_price)
               (fib_levels swing_low swing_high)
    | _, _, _ => []
    end.

Definition default_lookback_periods : positive := 50%positive.

(** ** Vocabulary of the properties *)

(** Volume recorded for a bin price. *)
Definition vol_of (d : PriceDict) (k : Q) : Q := dict_get d k 0.

(** Keys of a dictionary are pairwise different as numbers. *)
Fixpoint dict_ok (d : PriceDict) : Prop :=
  match d with
  | [] => True
  | (k, _) :: r => (forall k', In k' (map fst r) -> ~ k' == k) /\ dict_ok r
  end.

(** Every recorded volume is non-negative. *)
Definition dict_nonneg (d : PriceDict) : Prop :=
  Forall (fun kv => 0 <= snd kv) d.


(** The state of the value-area loop relative to the price-ordered keys:
    [L], [M], [R] split the keys into those left of the area, those in it and
    those right of it. *)
Definition area_state (d : PriceDict) (aps L M R : list Q)
  (acc : Q) (left_idx : Z) (right_idx : nat) : Prop :=
  aps = (L ++ M ++ R)%list
  /\ left_idx = (Z.of_nat (length L) - 1)%Z
  /\ right_idx = (length L + length M)%nat
  /\ acc == Qsum (map (vol_of d) M).

(** A single bar spanning the whole price range: low 0, high 20, volume
    21. *)
Definition top_edge_bars : list Candle := [mkCandle None 10 20 0 10 21].

(** Two bars far apart: nearly all the volume in the two lowest bins. *)
Definition rounding_bars : list Candle :=
  [ mkCandle None 0 1 0 0 199998; mkCandle None 0 20 18 0 3 ].

(** A zero-width bar at 10.5 between two ordinary bars. *)
Definition zero_width_bar : Candle := mkCandle None (21 # 2) (21 # 2) (21 # 2) (21 # 2) 50.

Definition bars_before : list Candle := [mkCandle None 0 1 0 0 100].
Definition bars_after : list Candle := [mkCandle None 0 20 18 0 3].



(** Two bars far apart, the second with a negative volume. *)
Definition negative_volume_bars : list Candle :=
  [ mkCandle None 0 1 0 0 100; mkCandle None 0 20 18 0 (-30) ].

End TechnicalAnalysis.

(* ================================================================== *)
(** * Technical zones per timeframe ([technical_zones_tool.py]) *)
(* ================================================================== *)

Module TechnicalZones.

Import TechnicalAnalysis.

Inductive Status : Type := success | partial_success | warning | error.

Definition Status_eqb (a b : Status) : bool :=
  match a, b with
  | success, success | partial_success, partial_success
  | warning, warning | error, error => true
  | _, _ => false
  end.

(** Constants of the configuration module, which the tool only imports. *)
Record Config : Type := mkConfig {
  PRICE_BANDING_WIDTH : Q;
  vp_bars_interval : TimeframeKey -> string;
  ta_indicator_interval : TimeframeKey -> string
}.

(** The last ATR item's ['atr'] entry: [None] when it is missing or does not
    convert with [float], which raises in the code. *)
Definition AtrItem : Type := option Q.

(** A row of the daily frame; a field is [None] when [.get] finds none. *)
Record DayRow : Type := mkDayRow { d_high : option Q; d_low : option Q }.

(** What the data provider returned for one timeframe.  For each feed the
    outer [None] is the provider's null. *)
Record Feeds : Type := mkFeeds {
  df_bars : option (list Candle);
  atr_data : option (list AtrItem);
  prev_day_df : option (list DayRow)
}.

Record FrameResult : Type := mkFrame {
  technical_zones : list Zone;
  status : Status;
  message : string
}.

(** [sub in s] on strings. *)
Fixpoint contains (sub s : string) : bool :=
  if String.prefix sub s then true
  else match s with
       | EmptyString => false
       | String _ r => contains sub r
       end.

(** [x if status == "success" else status]. *)
Definition degrade (to : Status) (frame_status : Status) : Status :=
  if Status_eqb frame_status success then to else frame_status.

(** The loop state threaded through the steps of one timeframe. *)
Record Frame : Type := mkState {
  zones : list Zone;
  frame_status : Status;
  frame_message : string;
  frame_fetch_failed : bool
}.

Definition frame_init : Frame :=
  mkState [] success "Zones generated." false.

(** Zones read off a computed volume profile. *)
Definition vp_zones (cfg : Config) (tf : TimeframeKey) (vp : Profile) : list Zone :=
  let src := SrcVolumeProfile (vp_bars_interval cfg tf) in
  let w := PRICE_BANDING_WIDTH cfg in
  [ mkZone NEUTRAL (NamePOC tf) (Level (point_of_control vp)) src;
    mkZone RESISTANCE (NameVAH tf)
      (Range (value_area_high vp)
             (if Qeq_bool w 0 then value_area_high vp
              else value_area_high vp + w / 2)) src;
    mkZone SUPPORT (NameVAL tf)
      (Range (if Qeq_bool w 0 then value_area_low vp
              else value_area_low vp - w / 2)
             (value_area_low vp)) src ]
  ++ map (fun hvn =>
            mkZone (if Qlt_bool (point_of_control vp) (n_start hvn)
                    then RESISTANCE else SUPPORT)
                   (NameHVN tf (round (n_start hvn) 2))
                   (Range (n_start hvn) (n_end hvn)) src)
         (high_volume_nodes vp)
  ++ map (fun lvn =>
            mkZone NEUTRAL (NameLVN tf (round (n_start lvn) 2))
                   (Range (n_start lvn) (n_end lvn)) src)
         (low_volume_nodes vp).

(** Step 1 and 2: the bar fetch, the volume profile and the Fibonacci
    zones. *)
Definition bars_step (cfg : Config) (tf : TimeframeKey)
  (df_bars : option (list Candle)) (st : Frame) : Frame :=
  match df_bars with
  | None => mkState (zones st) (frame_status st) (frame_message st) true
  | Some [] =>
    mkState (zones st) (degrade warning (frame_status st))
            "No bar data available." (frame_fetch_failed st)
  | Some bars =>
    let st1 :=
      match calculate_volume_profile bars default_num_bins 2 with
      | None =>
        mkState (zones st) (degrade partial_success (frame_status st))
                "VP calculation failed." (frame_fetch_failed st)
      | Some vp =>
        mkState (zones st ++ vp_zones cfg tf vp) (frame_status st)
                (frame_message st) (frame_fetch_failed st)
      end in
    match calculate_fibonacci_levels bars default_lookback_periods 2 with
    | [] =>
      mkState (zones st1) (degrade warning (frame_status st1))
        (if String.eqb (frame_message st1) "Zones generated."
         then "VP zones generated, no Fib zones."
         else if String.eqb (frame_message st1) "VP calculation failed."
              then frame_message st1
              else frame_message st1 ++ " No Fib zones.")%string
        (frame_fetch_failed st1)
    | fib_zones_list =>
      mkState (zones st1 ++ fib_zones_list) (frame_status st1)
        (if Status_eqb (frame_status st1) success
         then "VP and Fib zones generated."%string else frame_message st1)
        (frame_fetch_failed st1)
    end
  end.

(** Step 3: the ATR feed.  Returns the new state and [atr_value]. *)
Definition atr_step (atr_data : option (list AtrItem)) (st : Frame)
  : Frame * option Q :=
  match atr_data with
  | None =>
    (mkState (zones st) (frame_status st) (frame_message st) true, None)
  | Some [] => (st, None)
  | Some items =>
    match last items None with
    | Some atr_value => (st, Some atr_value)
    | None =>
      (mkState (zones st) (degrade partial_success (frame_status st))
         (if String.eqb (frame_message st) "Zones generated."
          then "VP/Fib zones generated, ATR parse error."
          else frame_message st ++ " ATR parse error.")%string
         (frame_fetch_failed st),
       None)
    end
  end.

(** Step 4a: the ATR extension targets around the last close. *)
Definition atr_zones (cfg : Config) (tf : TimeframeKey)
  (df_bars : option (list Candle)) (atr_value : option Q) : list Zone :=
  match atr_value, df_bars with
  | Some atr, Some bars =>
    match last (map (fun c => Some (c_close c)) bars) None with
    | Some base_price =>
      let src := SrcATR (ta_indicator_interval cfg tf) in
      [ mkZone TARGET_UPSIDE (NamePlusATR tf)
          (Level (round (base_price + atr) 2)) src;
        mkZone TARGET_DOWNSIDE (NameMinusATR tf)
          (Level (round (base_price - atr) 2)) src ]
    | None => []
    end
  | _, _ => []
  end.

(** Step 4b: the previous day's high and low, for the intraday frames. *)
Definition prev_day_step (tf : TimeframeKey)
  (prev_day_df : option (list DayRow)) (st : Frame) : Frame :=
  match tf with
  | tf_1d => st
  | _ =>
    match prev_day_df with
    | None => mkState (zones st) (frame_status st) (frame_message st) true
    | Some rows =>
      if (length rows <? 2)%nat then st
      else
        match nth_error rows (length rows - 2) with
        | Some prev_day_bar =>
          mkState
            (zones st
             ++ match d_high prev_day_bar with
                | Some pdh => [mkZone RESISTANCE NamePDH (Level (round pdh 2)) SrcDailyBar]
                | None => []
                end
             ++ match d_low prev_day_bar with
                | Some pdl => [mkZone SUPPORT NamePDL (Level (round pdl 2)) SrcDailyBar]
                | None => []
                end)
            (frame_status st) (frame_message st) (frame_fetch_failed st)
        | None => st
        end
    end
  end.

(** "Store Results for this Timeframe": the final status and message. *)
Definition finalize (st : Frame) (atr_value : option Q) : FrameResult :=
  if frame_fetch_failed st then
    mkFrame (zones st) error
      "Critical fetch error for one or more data sources."
  else
    match zones st with
    | [] =>
      mkFrame (zones st) warning
        "No technical zones could be generated for this timeframe."
    | _ =>
      mkFrame (zones st) (frame_status st)
        (if Status_eqb (frame_status st) partial_success then
           let m1 := if contains "VP calculation failed." (frame_message st)
                     then ["VP failed."%string] else [] in
           let m2 := if contains "No Fib zones." (frame_message st)
                     then ["No Fib zones."%string] else [] in
           let m3 := if contains "ATR error." (frame_message st)
                        || (contains "ATR parse error." (frame_message st)
                            && match atr_value with None => true | Some _ => false end)
                     then ["ATR failed."%string] else [] in
           match (m1 ++ m2 ++ m3)%list with
           | [] => "Zones generated successfully with minor issues."%string
           | partial_messages =>
             String.append "Some zones generated. Issues: "
                           (String.concat ", " partial_messages)
           end
         else "Zones generated successfully."%string)
    end.

(** The body of the loop over timeframes. *)
Definition process_timeframe (cfg : Config) (tf : TimeframeKey) (feeds : Feeds)
  : FrameResult :=
  let st1 := bars_step cfg tf (df_bars feeds) frame_init in
  let (st2, atr_value) := atr_step (atr_data feeds) st1 in
  let st3 :=
    mkState (zones st2 ++ atr_zones cfg tf (df_bars feeds) atr_value)
            (frame_status st2) (frame_message st2) (frame_fetch_failed st2) in
  let st4 := prev_day_step tf (prev_day_df feeds) st3 in
  finalize st4 atr_value.

(** "Update overall status". *)
Definition rollup (overall_status final_frame_status : Status) : Status :=
  match final_frame_status with
  | error => error
  | partial_success | warning =>
    if Status_eqb overall_status success then partial_success else overall_status
  | success => overall_status
  end.

Record Response : Type := mkResponse {
  response_status : Status;
  timeframe_zones : list (TimeframeKey * FrameResult)
}.

(** [financial_technical_zones], as a function of what the provider returns
    for each timeframe. *)
Definition financial_technical_zones (cfg : Config) (provider : TimeframeKey -> Feeds)
  : Response :=
  let frames :=
    map (fun tf => (tf, process_timeframe cfg tf (provider tf))) [tf_1m; tf_5m; tf_1d] in
  mkResponse
    (fold_left (fun overall fr => rollup overall (status (snd fr))) frames success)
    frames.

(** ** Vocabulary of the properties *)

Definition is_null {A : Type} (o : option A) : bool :=
  match o with None => true | Some _ => false end.

(** The previous-day frame is fetched for the intraday timeframes only. *)
Definition is_intraday (tf : TimeframeKey) : bool :=
  match tf with tf_1d => false | _ => true end.

(** Some upstream fetch of the timeframe returned null. *)
Definition some_fetch_null (tf : TimeframeKey) (feeds : Feeds) : bool :=
  is_null (df_bars feeds) || is_null (atr_data feeds)
  || (is_intraday tf && is_null (prev_day_df feeds)).

(** The zones that the bar data of a timeframe supports: volume-profile
    zones when the profile is computed, and the Fibonacci zones. *)
Definition bar_zones (cfg : Config) (tf : TimeframeKey) (feeds : Feeds) : list Zone :=
  match df_bars feeds with
  | Some (b :: bs) =>
    match calculate_volume_profile (b :: bs) default_num_bins 2 with
    | Some vp => vp_zones cfg tf vp
    | None => []
    end
    ++ calculate_fibonacci_levels (b :: bs) default_lookback_periods 2
  | _ => []
  end.

(** The bar frame of the timeframe is there and empty. *)
Definition bars_empty (feeds : Feeds) : bool :=
  match df_bars feeds with Some [] => true | _ => false end.

(** The volume profile of the bars is computed. *)
Definition profile_computed (feeds : Feeds) : bool :=
  match df_bars feeds with
  | Some bars =>
    match calculate_volume_profile bars default_num_bins 2 with
    | Some _ => true
    | None => false
    end
  | None => false
  end.

(** The bars give Fibonacci zones. *)
Definition fib_found (feeds : Feeds) : bool :=
  match df_bars feeds with
  | Some bars =>
    match calculate_fibonacci_levels bars default_lookback_periods 2 with
    | [] => false
    | _ => true
    end
  | None => false
  end.

(** The ATR feed has items and the last one does not parse. *)
Definition atr_unparsed (feeds : Feeds) : bool :=
  match atr_data feeds with
  | Some (x :: xs) => is_null (last (x :: xs) None)
  | _ => false
  end.

(** The ATR value that the feed supports: the last item's, when it
    parses. *)
Definition atr_value_of (feeds : Feeds) : option Q :=
  match atr_data feeds with
  | Some items => last items None
  | None => None
  end.

(** The zones that the daily frame supports on an intraday timeframe: the
    high and the low of the last row but one. *)
Definition prev_day_zones (tf : TimeframeKey) (feeds : Feeds) : list Zone :=
  if is_intraday tf then
    match prev_day_df feeds with
    | Some rows =>
      if (length rows <? 2)%nat then []
      else
        match nth_error rows (length rows - 2) with
        | Some bar =>
          match d_high bar with
          | Some pdh => [mkZone RESISTANCE NamePDH (Level (round pdh 2)) SrcDailyBar]
          | None => []
          end
          ++ match d_low bar with
             | Some pdl => [mkZone SUPPORT NamePDL (Level (round pdl 2)) SrcDailyBar]
             | None => []
             end
        | None => []
        end
    | None => []
    end
  else [].

(** The ATR targets that the data supports: one ATR above and one below
    the last close of the bars, when the ATR value and the close are
    there. *)
Definition atr_targets (cfg : Config) (tf : TimeframeKey) (feeds : Feeds) : list Zone :=
  match atr_value_of feeds, df_bars feeds with
  | Some atr, Some bars =>
    match last (map (fun c => Some (c_close c)) bars) None with
    | Some close =>
      [ mkZone TARGET_UPSIDE (NamePlusATR tf) (Level (round (close + atr) 2))
          (SrcATR (ta_indicator_interval cfg tf));
        mkZone TARGET_DOWNSIDE (NameMinusATR tf) (Level (round (close - atr) 2))
          (SrcATR (ta_indicator_interval cfg tf)) ]
    | None => []
    end
  | _, _ => []
  end.

(** Every zone that the data of a timeframe supports: from the bars, from
    the ATR value and from the daily frame. *)
Definition all_zones (cfg : Config) (tf : TimeframeKey) (feeds : Feeds) : list Zone :=
  bar_zones cfg tf feeds ++ atr_targets cfg tf feeds ++ prev_day_zones tf feeds.

(** A configuration and feeds in which the bar fetch succeeds and only the
    ATR fetch returns null. *)
Definition sample_config : Config :=
  mkConfig (1 # 2) (fun _ => "1min"%string) (fun _ => "1min"%string).

Definition sample_bars : list Candle :=
  [ mkCandle None 100 101 99 (201 # 2) 1000;
    mkCandle None (201 # 2) 103 100 102 1500 ].

Definition atr_null_feeds : Feeds :=
  mkFeeds (Some sample_bars) None (Some []).

End TechnicalZones.

(* ================================================================== *)
(** * Opening-range breakout ([orb_tool.py]) *)
(* ================================================================== *)

Module ORB.

(** A row of the one-minute frame with its index timestamp, in seconds. *)
Definition Row : Type := (Z * Candle)%type.

Inductive Position : Type := above_range | below_range | inside_range.

Inductive BreakoutType : Type := bullish | bearish.

Definition Position_eqb (a b : Position) : bool :=
  match a, b with
  | above_range, above_range | below_range, below_range
  | inside_range, inside_range => true
  | _, _ => false
  end.

(** The eight extension targets, in the order of the [targets] dictionary. *)
Inductive Target : Type :=
| bull_0_5x | bull_1x | bull_1_5x | bull_2x
| bear_0_5x | bear_1x | bear_1_5x | bear_2x.

(** ["bull" in target_name]; the other names contain ["bear"]. *)
Definition is_bull (t : Target) : bool :=
  match t with
  | bull_0_5x | bull_1x | bull_1_5x | bull_2x => true
  | _ => false
  end.

Record VolumeAnalysis : Type := mkVolumeAnalysis {
  orb_total_volume : Z;
  orb_avg_volume_per_min : Z;
  volume_ratio_vs_day_avg : Q;
  high_volume : bool
}.

Record Analysis : Type := mkAnalysis {
  orb_high : Q;
  orb_low : Q;
  orb_range : Q;
  orb_midpoint : Q;
  current_price : Q;
  position : Position;
  (** [None] stands for the infinite quotient of a zero range boundary. *)
  distance_from_range_pct : option Q;
  breakout_confirmed : bool;
  breakout_type : option BreakoutType;
  volume_analysis : VolumeAnalysis;
  targets : list (Target * Q);
  targets_hit : list Target;
  orb_start_time : Z;
  orb_end_time : Z
}.

(** An entry of the [orb_analysis] dictionary. *)
Inductive PeriodEntry : Type :=
| insufficient_data (need : Z) (have : nat)
| analysis (a : Analysis).

(** [int(x)] on a float: truncation toward zero. *)
Definition Qint (x : Q) : Z := Z.quot (Qnum x) (Zpos (Qden x)).

(** Percentage quotient [num / den * 100]; [None] when [den] is zero. *)
Definition pct_of (num den : Q) : option Q :=
  if Qeq_bool den 0 then None else Some (round (num / den * 100) 2).

(** "Determine current position relative to ORB". *)
Definition classify (price high low : Q) : Position * option Q :=
  if Qlt_bool high price then (above_range, pct_of (price - high) high)
  else if Qlt_bool price low then (below_range, pct_of (low - price) low)
  else (inside_range, Some (round 0 2)).

(** Number of rows whose close satisfies [p]: [(cond).sum()]. *)
Definition count_close (p : Q -> bool) (rows : list Row) : nat :=
  length (filter (fun r => p (c_close (snd r))) rows).

(** "Check for breakout confirmation": the pair
    [(breakout_confirmed, breakout_type)]. *)
Definition check_breakout (post_orb_data : list Row) (high low : Q)
  (pos : Position) : bool * option BreakoutType :=
  match post_orb_data with
  | [] => (false, None)
  | _ =>
    if existsb (fun r => Qlt_bool (high * (1001 # 1000)) (c_close (snd r)))
               post_orb_data then
      let bars_above := count_close (fun c => Qlt_bool high c) post_orb_data in
      if (3 <=? bars_above)%nat && Position_eqb pos above_range
      then (true, Some bullish) else (false, None)
    else if existsb (fun r => Qlt_bool (c_close (snd r)) (low * (999 # 1000)))
                    post_orb_data then
      let bars_below := count_close (fun c => Qlt_bool c low) post_orb_data in
      if (3 <=? bars_below)%nat && Position_eqb pos below_range
      then (true, Some bearish) else (false, None)
    else (false, None)
  end.

(** "Calculate extension targets". *)
Definition extension_targets (high low range : Q) : list (Target * Q) :=
  [ (bull_0_5x, high + range * (1 # 2));
    (bull_1x, high + range);
    (bull_1_5x, high + range * (3 # 2));
    (bull_2x, high + range * 2);
    (bear_0_5x, low - range * (1 # 2));
    (bear_1x, low - range);
    (bear_1_5x, low - range * (3 # 2));
    (bear_2x, low - range * 2) ].

(** "Identify which targets have been hit". *)
Definition hit_targets (price : Q) (tg : list (Target * Q)) : list Target :=
  map fst
    (filter (fun tl => if is_bull (fst tl) then Qle_bool (snd tl) price
                       else Qle_bool price (snd tl))
            tg).

(** The body of the loop over [orb_periods].  [None] is the exception raised
    by [int] on the NaN mean of an empty window, which aborts the whole
    analysis. *)
Definition orb_period (df_rth : list Row) (market_open_time : Z)
  (price avg_volume_per_min : Q) (period : Z) : option PeriodEntry :=
  let end_time := (market_open_time + 60 * period)%Z in
  let orb_data := filter (fun r => (fst r <=? end_time)%Z) df_rth in
  if (Z.of_nat (length orb_data) <? period)%Z then
    Some (insufficient_data period (length orb_data))
  else
    match series_max (map (fun r => c_high (snd r)) orb_data),
          series_min (map (fun r => c_low (snd r)) orb_data) with
    | Some high, Some low =>
      let range := high - low in
      let midpoint := (high + low) / 2 in
      let orb_volume := Qsum (map (fun r => c_volume (snd r)) orb_data) in
      let orb_avg_volume := mean (map (fun r => c_volume (snd r)) orb_data) in
      let volume_ratio :=
        if Qlt_bool 0 avg_volume_per_min
        then orb_avg_volume / avg_volume_per_min else 0 in
      let (pos, distance) := classify price high low in
      let post_orb_data := filter (fun r => (end_time <? fst r)%Z) df_rth in
      let (confirmed, kind) := check_breakout post_orb_data high low pos in
      let tg := extension_targets high low range in
      Some (analysis
              (mkAnalysis (round high 2) (round low 2) (round range 2)
                 (round midpoint 2) (round price 2) pos distance
                 confirmed kind
                 (mkVolumeAnalysis (Qint orb_volume) (Qint orb_avg_volume)
                    (round volume_ratio 2) (Qlt_bool (12 # 10) volume_ratio))
                 (map (fun tl => (fst tl, round (snd tl) 2)) tg)
                 (hit_targets price tg)
                 market_open_time end_time))
    | _, _ => None
    end.

(** The [orb_analysis] dictionary, keyed by the period (the key string is the
    period followed by [min]), in insertion order. *)
Definition OrbDict : Type := list (Z * PeriodEntry).

Fixpoint orb_dict_set (d : OrbDict) (k : Z) (v : PeriodEntry) : OrbDict :=
  match d with
  | [] => [(k, v)]
  | (k', v') :: r =>
    if (k' =? k)%Z then (k', v) :: r else (k', v') :: orb_dict_set r k v
  end.

(** The loop over [orb_periods]; [None] when an iteration raises. *)
Definition orb_analysis_of (df_rth : list Row) (market_open_time : Z)
  (price avg_volume_per_min : Q) (orb_periods : list Z) : option OrbDict :=
  fold_left
    (fun acc period =>
       match acc with
       | None => None
       | Some d =>
         match orb_period df_rth market_open_time price avg_volume_per_min period with
         | None => None
         | Some e => Some (orb_dict_set d period e)
         end
       end)
    orb_periods (Some []).

Definition default_orb_periods : list Z := [5; 15; 30]%Z.

(** "Collect valid ORB ranges": the [(period, range)] pairs of the entries
    that carry an analysis. *)
Definition valid_ranges (orb_data : OrbDict) : list (Z * Q) :=
  flat_map (fun kv => match snd kv with
                      | analysis a => [(fst kv, orb_range a)]
                      | insufficient_data _ _ => []
                      end)
           orb_data.

(** Order of Python tuples [(period, range)]. *)
Definition pair_leb (x y : Z * Q) : bool :=
  (fst x <? fst y)%Z || ((fst x =? fst y)%Z && Qle_bool (snd x) (snd y)).

(** [all(ranges[i] <= ranges[i-1] for i in range(1, len(ranges)))]. *)
Fixpoint all_contracting (ranges : list Q) : bool :=
  match ranges with
  | a :: (b :: _) as r => Qle_bool b a && all_contracting r
  | _ => true
  end.

Inductive Squeeze : Type :=
| squeeze_unavailable (message : string)
| squeeze_report (squeeze_detected contracting_ranges : bool)
    (compression_ratio : Q) (range_progression : list (Z * Q))
    (interpretation : string).

(** The unrounded [compression_ratio] local. *)
Definition compression_of (ranges : list Q) : Q :=
  if Qlt_bool 0 (hd 0 ranges) then last ranges 0 / hd 0 ranges else 1.

(** [detect_orb_squeeze]. *)
Definition detect_orb_squeeze (orb_data : OrbDict) : Squeeze :=
  let pairs := valid_ranges orb_data in
  if (length pairs <? 2)%nat then
    squeeze_unavailable "Insufficient ORB periods for squeeze detection"
  else
    let sorted_data := sorted pair_leb pairs in
    let periods := map fst sorted_data in
    let ranges := map snd sorted_data in
    let contracting := all_contracting ranges in
    let compression_ratio := compression_of ranges in
    let squeeze_detected := contracting && Qlt_bool compression_ratio (7 # 10) in
    squeeze_report squeeze_detected contracting (round compression_ratio 2)
      (map (fun pr => (fst pr, round (snd pr) 2)) sorted_data)
      (if squeeze_detected then "Potential explosive move ahead"
       else "Normal range expansion").

(** The [squeeze_detected] entry of the result. *)
Definition squeeze_detected_of (s : Squeeze) : bool :=
  match s with
  | squeeze_unavailable _ => false
  | squeeze_report d _ _ _ _ => d
  end.

(** ** Vocabulary of the properties *)

(** The three confirmation conditions on the bullish side: a post-window
    close above the high by the 0.1% buffer, at least three post-window
    closes above the high, and the price above the range. *)
Definition bullish_conditions (post : list Row) (high : Q) (pos : Position) : Prop :=
  (exists r, In r post /\ high * (1001 # 1000) < c_close (snd r))
  /\ (3 <= count_close (fun c => Qlt_bool high c) post)%nat
  /\ pos = above_range.

(** The same three conditions on the bearish side. *)
Definition bearish_conditions (post : list Row) (low : Q) (pos : Position) : Prop :=
  (exists r, In r post /\ c_close (snd r) < low * (999 # 1000))
  /\ (3 <= count_close (fun c => Qlt_bool c low) post)%nat
  /\ pos = below_range.

(** A session that breaks up once and then settles below the range: six
    opening bars between 100 and 101, one bar closing at 101.2, three bars
    closing at 99.5.  Times are seconds after the open. *)
Definition whipsaw_session : list Row :=
  [ (0%Z,   mkCandle None (1005 # 10) 101 100 (1005 # 10) 1000);
    (60%Z,  mkCandle None (1005 # 10) 101 100 (1005 # 10) 1000);
    (120%Z, mkCandle None (1005 # 10) 101 100 (1005 # 10) 1000);
    (180%Z, mkCandle None (1005 # 10) 101 100 (1005 # 10) 1000);
    (240%Z, mkCandle None (1005 # 10) 101 100 (1005 # 10) 1000);
    (300%Z, mkCandle None (1005 # 10) 101 100 (1005 # 10) 1000);
    (360%Z, mkCandle None (1005 # 10) (1013 # 10) (1005 # 10) (1012 # 10) 1000);
    (420%Z, mkCandle None (1012 # 10) (1012 # 10) (994 # 10) (995 # 10) 1000);
    (480%Z, mkCandle None (995 # 10) (996 # 10) (994 # 10) (995 # 10) 1000);
    (540%Z, mkCandle None (995 # 10) (996 # 10) (994 # 10) (995 # 10) 1000) ].

(** The rows after the five-minute window of [whipsaw_session]. *)
Definition whipsaw_post : list Row :=
  filter (fun r => (300 <? fst r)%Z) whipsaw_session.

(** Ranges contract: each is at most the one before it. *)
Definition contracting_prop (ranges : list Q) : Prop :=
  forall i, (S i < length ranges)%nat -> nth (S i) ranges 0 <= nth i ranges 0.

(** Ascending order of the period lengths. *)
Definition by_period (l : list (Z * Q)) : Prop :=
  StronglySorted (fun a b => (fst a <= fst b)%Z) l.

(** Two analysed periods for the squeeze witness. *)
Definition sample_analysis (range : Q) : Analysis :=
  mkAnalysis 101 100 range (201 # 2) 100 inside_range (Some 0) false None
    (mkVolumeAnalysis 0 0 0 false) [] [] 0 0.

End ORB.

(* ================================================================== *)
(** * Gap statistics ([fvg_calculator.py]) *)
(* ================================================================== *)

Module FVGStatistics.

Import FVG.

Record GapStatistics : Type := mkStats {
  total_gaps : nat;
  filled_completely : nat;
  filled_partially : nat;
  unfilled : nat;
  avg_fill_time_minutes : Z;
  avg_gap_size : Q
}.

(** [sum(1 for g in gaps if p(g))]. *)
Definition count_gaps (p : FairValueGap -> bool) (gaps : list FairValueGap) : nat :=
  length (filter p gaps).

Definition is_filled (g : FairValueGap) : bool :=
  Qle_bool 95 (filled_percentage g).

Definition is_partial (g : FairValueGap) : bool :=
  Qlt_bool 5 (filled_percentage g) && Qlt_bool (filled_percentage g) 95.

Definition is_unfilled (g : FairValueGap) : bool :=
  Qle_bool (filled_percentage g) 5.

(** Sum of a list of integers. *)
Definition Zsum (l : list Z) : Z := fold_left Z.add l 0%Z.

(** [calculate_gap_statistics]; the [timeframe] argument is not used by the
    body. *)
Definition calculate_gap_statistics (gaps : list FairValueGap) (tf : string)
  : GapStatistics :=
  match gaps with
  | [] => mkStats 0 0 0 0 0 0
  | _ =>
    let filled_gaps := filter is_filled gaps in
    mkStats (length gaps)
      (count_gaps is_filled gaps)
      (count_gaps is_partial gaps)
      (count_gaps is_unfilled gaps)
      (match filled_gaps with
       | [] => 0%Z
       | _ => Z.quot (Zsum (map age_minutes filled_gaps))
                     (Z.of_nat (length filled_gaps))
       end)
      (round (Qsum (map gap_size gaps) / inject_Z (Z.of_nat (length gaps))) 2)
  end.

(** ** Vocabulary of the properties *)

(** Number of bars of a history that touch the gap. *)
Definition touch_count (fvg : FairValueGap) (history : list Candle) : nat :=
  length (filter (touches fvg) history).

(** A bar covers the gap when its range contains the gap's range. *)
Definition covers (fvg : FairValueGap) (c : Candle) : Prop :=
  c_low c <= gap_low fvg /\ gap_high fvg <= c_high c.

(** Once the scan has met a bar covering the gap, both extremes sit on the
    gap's bounds, and they stay there. *)
Definition scan_full (fvg : FairValueGap) (st : Scan) : Prop :=
  (0 < tests st)%nat
  /\ opt_Qeq (lowest st) (gap_low fvg) /\ opt_Qeq (highest st) (gap_high fvg).

(** A frame whose last three bars form a bullish gap around 101. *)
Definition fresh_gap_bars : list Candle :=
  [ mkCandle None 97 98 96 97 900;
    mkCandle None 99 100 98 (199 # 2) 1000;
    mkCandle None 100 101 99 (201 # 2) 500;
    mkCandle None 103 104 102 103 1000 ].

(** A frame with a bullish gap [100, 102] and a later bar from 99 to 103. *)
Definition covered_gap_bars : list Candle :=
  [ mkCandle None 99 100 98 (199 # 2) 1000;
    mkCandle None 100 101 99 (201 # 2) 500;
    mkCandle None 103 104 102 103 1000;
    mkCandle None 103 103 99 100 1200 ].

End FVGStatistics.

(* ================================================================== *)
(** * Trading bias and the analysis entry point ([orb_tool.py]) *)
(* ================================================================== *)

Module ORBTool.

Import ORB.

(** The entries of [strength_factors]; each is a formatted sentence about
    one period in the code. *)
Inductive Factor : Type :=
| bullish_breakout_confirmed (period : Z)
| bearish_breakout_confirmed (period : Z)
| high_volume_above_range (period : Z)
| high_volume_below_range (period : Z)
| hit_bull_targets (period : Z) (n : nat)
| hit_bear_targets (period : Z) (n : nat).

(** The counters of [analyze_orb_bias]. *)
Record Signals : Type := mkSignals {
  sig_bullish : nat;
  sig_bearish : nat;
  sig_factors : list Factor
}.

Definition add_bull (n : nat) (fs : list Factor) (st : Signals) : Signals :=
  mkSignals (sig_bullish st + n) (sig_bearish st) (sig_factors st ++ fs).

Definition add_bear (n : nat) (fs : list Factor) (st : Signals) : Signals :=
  mkSignals (sig_bullish st) (sig_bearish st + n) (sig_factors st ++ fs).

(** The four checks made for one analysed period, in the order of the
    code. *)
Definition breakout_signal (period : Z) (data : Analysis) (st : Signals) : Signals :=
  if breakout_confirmed data then
    match breakout_type data with
    | Some bullish => add_bull 2 [bullish_breakout_confirmed period] st
    | Some bearish => add_bear 2 [bearish_breakout_confirmed period] st
    | None => st
    end
  else st.

Definition position_signal (data : Analysis) (st : Signals) : Signals :=
  match position data with
  | above_range => add_bull 1 [] st
  | below_range => add_bear 1 [] st
  | inside_range => st
  end.

Definition volume_signal (period : Z) (data : Analysis) (st : Signals) : Signals :=
  if high_volume (volume_analysis data) then
    match position data with
    | above_range => add_bull 1 [high_volume_above_range period] st
    | below_range => add_bear 1 [high_volume_below_range period] st
    | inside_range => st
    end
  else st.

Definition targets_signal (period : Z) (data : Analysis) (st : Signals) : Signals :=
  let bull_targets := filter is_bull (targets_hit data) in
  let bear_targets := filter (fun t => negb (is_bull t)) (targets_hit data) in
  let st1 :=
    match bull_targets with
    | [] => st
    | _ => add_bull (length bull_targets)
             [hit_bull_targets period (length bull_targets)] st
    end in
  match bear_targets with
  | [] => st1
  | _ => add_bear (length bear_targets)
           [hit_bear_targets period (length bear_targets)] st1
  end.

(** The body of the loop over the dictionary's items. *)
Definition bias_step (st : Signals) (kv : Z * PeriodEntry) : Signals :=
  match snd kv with
  | insufficient_data _ _ => st
  | analysis data =>
    targets_signal (fst kv) data
      (volume_signal (fst kv) data
         (position_signal data
            (breakout_signal (fst kv) data st)))
  end.

Inductive Bias : Type := bias_bullish | bias_bearish | bias_neutral.

Inductive Confidence : Type := confidence_high | confidence_medium | confidence_low.

Record TradingBias : Type := mkBias {
  bias : Bias;
  confidence : Confidence;
  bullish_signals : nat;
  bearish_signals : nat;
  strength_factors : list Factor
}.

(** A signal count as a float. *)
Definition Qnat (n : nat) : Q := inject_Z (Z.of_nat n).

(** [analyze_orb_bias]. *)
Definition analyze_orb_bias (orb_data : OrbDict) : TradingBias :=
  let st := fold_left bias_step orb_data (mkSignals 0 0 []) in
  let b := sig_bullish st in
  let r := sig_bearish st in
  let (bs, cf) :=
    if Qlt_bool (Qnat r * (3 # 2)) (Qnat b) then
      (bias_bullish,
       if Qlt_bool (Qnat r * 2) (Qnat b) then confidence_high else confidence_medium)
    else if Qlt_bool (Qnat b * (3 # 2)) (Qnat r) then
      (bias_bearish,
       if Qlt_bool (Qnat b * 2) (Qnat r) then confidence_high else confidence_medium)
    else (bias_neutral, confidence_low) in
  mkBias bs cf b r (sig_factors st).

Inductive Session : Type := regular_hours | closed.

(** Why the analysis returned an error record. *)
Inductive OrbError : Type :=
| failed_to_fetch_price_data
| no_regular_trading_hours_data
| failed_to_calculate.

Record OrbSuccess : Type := mkOrbSuccess {
  market_session : Session;
  orb_analysis : OrbDict;
  trading_bias : TradingBias;
  orb_squeeze : Squeeze;
  response_price : Q
}.

Inductive OrbResponse : Type :=
| orb_error (e : OrbError)
| orb_success (r : OrbSuccess).

(** [financial_orb_analysis], as a function of what the provider returned
    ([None] for null), of the session bounds of the target date and of the
    wall clock's time of day in seconds. *)
Definition financial_orb_analysis (df : option (list Row))
  (market_open_time market_close_time : Z) (clock : Q)
  (orb_periods : option (list Z)) : OrbResponse :=
  let periods :=
    match orb_periods with None => default_orb_periods | Some l => l end in
  match df with
  | None | Some [] => orb_error failed_to_fetch_price_data
  | Some (first :: rest) =>
    let df_rth :=
      filter (fun r => (market_open_time <=? fst r)%Z
                       && (fst r <=? market_close_time)%Z)
             (first :: rest) in
    match df_rth with
    | [] => orb_error no_regular_trading_hours_data
    | _ =>
      let price := c_close (snd first) in
      let avg_volume_per_min := mean (map (fun r => c_volume (snd r)) df_rth) in
      match orb_analysis_of df_rth market_open_time price avg_volume_per_min
              periods with
      | None => orb_error failed_to_calculate
      | Some d =>
        orb_success
          (mkOrbSuccess
             (if Qle_bool 34200 clock && Qle_bool clock 57600
              then regular_hours else closed)
             d (analyze_orb_bias d) (detect_orb_squeeze d) (round price 2))
      end
    end
  end.

(** ** Vocabulary of the properties *)

(** The rows of the opening window of a period. *)
Definition window_rows (df_rth : list Row) (market_open_time period : Z) : list Row :=
  filter (fun r => (fst r <=? market_open_time + 60 * period)%Z) df_rth.

(** Lookup in the analysis dictionary. *)
Fixpoint orb_dict_get (d : OrbDict) (k : Z) : option PeriodEntry :=
  match d with
  | [] => None
  | (k', v) :: r => if (k' =? k)%Z then Some v else orb_dict_get r k
  end.

(** A row is well formed when its low does not exceed its high. *)
Definition row_ok (r : Row) : Prop := c_low (snd r) <= c_high (snd r).

(** The unrounded level of a target in the list of extension targets. *)
Definition target_level (high low : Q) (t : Target) : Q :=
  match t with
  | bull_0_5x => high + (high - low) * (1 # 2)
  | bull_1x => high + (high - low)
  | bull_1_5x => high + (high - low) * (3 # 2)
  | bull_2x => high + (high - low) * 2
  | bear_0_5x => low - (high - low) * (1 # 2)
  | bear_1x => low - (high - low)
  | bear_1_5x => low - (high - low) * (3 # 2)
  | bear_2x => low - (high - low) * 2
  end.

(** The multiple of the range that a target name stands for. *)
Definition target_multiple (t : Target) : Q :=
  match t with
  | bull_0_5x | bear_0_5x => 1 # 2
  | bull_1x | bear_1x => 1
  | bull_1_5x | bear_1_5x => 3 # 2
  | bull_2x | bear_2x => 2
  end.

(** A one-minute session of ten rows between 100 and 101, one per minute
    from the open. *)
Definition flat_session : list Row :=
  map (fun i => ((60 * Z.of_nat i)%Z,
                 mkCandle None (1005 # 10) 101 100 (1005 # 10) 1000))
      (seq 0 10).

End ORBTool.

(* ================================================================== *)
(** * Ichimoku cloud and large-volume bars ([technical_analysis.py]) *)
(* ================================================================== *)

Module Indicators.

Import TechnicalAnalysis.

(** The [w] entries of a column that end at index [i]: the window of
    [rolling(window=w)] at that index; [None] while fewer than [w] entries
    are available (the rolling value is NaN there). *)
Definition window_at {A : Type} (w i : nat) (col : list A) : option (list A) :=
  if (w <=? i + 1)%nat then Some (firstn w (skipn (i + 1 - w) col)) else None.

Definition rolling_max (w i : nat) (col : list Q) : option Q :=
  match window_at w i col with
  | Some l => series_max l
  | None => None
  end.

Definition rolling_min (w i : nat) (col : list Q) : option Q :=
  match window_at w i col with
  | Some l => series_min l
  | None => None
  end.

(** [(rolling high max + rolling low min) / 2] at index [i]. *)
Definition midline (w : nat) (df : list Candle) (i : nat) : option Q :=
  match rolling_max w i (map c_high df), rolling_min w i (map c_low df) with
  | Some h, Some l => Some ((h + l) / 2)
  | _, _ => None
  end.

(** [series.shift(k)] read at index [i], for [k >= 0]. *)
Definition shifted {A : Type} (k : nat) (series : nat -> option A) (i : nat)
  : option A :=
  if (k <=? i)%nat then series (i - k)%nat else None.

(** Python truth of an optional float: [None] and zero are false.  The code
    tests the values themselves, so a zero reads as missing. *)
Definition truthy (x : option Q) : option Q :=
  match x with
  | Some v => if Qeq_bool v 0 then None else Some v
  | None => None
  end.

Inductive CloudStatus : Type := cloud_bullish | cloud_bearish | cloud_neutral.

Record Ichimoku : Type := mkIchimoku {
  tenkan_sen : option Q;
  kijun_sen : option Q;
  senkou_span_a : option Q;
  senkou_span_b : option Q;
  chikou_span : option Q;
  cloud_status : CloudStatus;
  trend_strength : CloudStatus
}.

Definition tenkan_period : nat := 9.
Definition kijun_period : nat := 26.
Definition senkou_b_period : nat := 52.

(** [calculate_ichimoku]. *)
Definition calculate_ichimoku (df : list Candle) : option Ichimoku :=
  if (length df <? 52)%nat then None
  else
    let tenkan := midline tenkan_period df in
    let kijun := midline kijun_period df in
    let span_a :=
      shifted kijun_period
        (fun i => match tenkan i, kijun i with
                  | Some t, Some k => Some ((t + k) / 2)
                  | _, _ => None
                  end) in
    let span_b := shifted kijun_period (midline senkou_b_period df) in
    let current_idx := (length df - 1)%nat in
    match last (map (fun c => Some (c_close c)) df) None with
    | None => None
    | Some current_price =>
      let span_a_current := span_a current_idx in
      let span_b_current := span_b current_idx in
      let cloud :=
        match truthy span_a_current, truthy span_b_current with
        | Some a, Some b =>
          if Qlt_bool (Qmax a b) current_price then cloud_bullish
          else if Qlt_bool current_price (Qmin a b) then cloud_bearish
          else cloud_neutral
        | _, _ => cloud_neutral
        end in
      let tenkan_current := tenkan current_idx in
      let kijun_current := kijun current_idx in
      let trend :=
        match truthy tenkan_current, truthy kijun_current with
        | Some t, Some k =>
          if Qlt_bool k t then cloud_bullish
          else if Qlt_bool t k then cloud_bearish
          else cloud_neutral
        | _, _ => cloud_neutral
        end in
      Some (mkIchimoku
              (truthy tenkan_current) (truthy kijun_current)
              (truthy span_a_current) (truthy span_b_current)
              (* close.shift(-26) read at position len - 26 *)
              (if (kijun_period <? length df)%nat
               then nth_error (map c_close df) (length df - kijun_period + kijun_period)
               else None)
              cloud trend)
    end.

Inductive BarType : Type := bar_bullish | bar_bearish | bar_neutral.

(** An entry of the large-volume list.  The two ratios are [None] when the
    divisor is zero and the quotient is taken on NumPy floats (the float is
    then infinite or not a number). *)
Record LargeBar : Type := mkLargeBar {
  lb_timestamp : option Z;
  lb_volume : Q;
  lb_volume_ratio : option Q;
  lb_type : BarType;
  lb_price_change : option Q
}.

(** A float quotient; [None] when the divisor is zero. *)
Definition quotient (num den : Q) : option Q :=
  if Qeq_bool den 0 then None else Some (num / den).

Definition bar_type_of (row : Candle) : BarType :=
  if Qlt_bool (c_open row) (c_close row) then bar_bullish
  else if Qlt_bool (c_close row) (c_open row) then bar_bearish
  else bar_neutral.

(** The frame has a [datetime] column: its rows carry a timestamp.  The rows
    that [iterrows] yields from such a frame hold Python floats. *)
Definition has_datetime (df : list Candle) : bool :=
  existsb (fun c => match c_stamp c with Some _ => true | None => false end) df.

(** [identify_large_volume_bars]; the multiplier defaults to 2.  On a frame
    with a [datetime] column the price change of a bar whose open is zero
    divides Python floats: the division raises, and the function returns
    the empty list. *)
Definition identify_large_volume_bars (df : list Candle)
  (volume_threshold_multiplier : Q) : list LargeBar :=
  match df with
  | [] => []
  | _ =>
    let avg_volume := mean (map c_volume df) in
    let threshold := avg_volume * volume_threshold_multiplier in
    let large :=
      filter (fun row => Qlt_bool threshold (c_volume row)) (tail 20 df) in
    if has_datetime df && existsb (fun row => Qeq_bool (c_open row) 0) large
    then []
    else
      map (fun row =>
             mkLargeBar (c_stamp row) (c_volume row)
               (option_map (fun x => round x 2) (quotient (c_volume row) avg_volume))
               (bar_type_of row)
               (option_map (fun x => round (x * 100) 2)
                  (quotient (c_close row - c_open row) (c_open row))))
          large
  end.

(** ** Vocabulary of the properties *)

(** Number of indices among the [n] from [lo] on that name a bin. *)
Definition valid_count (bins : list Q) (lo n : nat) : nat :=
  length (filter (fun i => (i <? length bins - 1)%nat) (seq lo n)).

(** What one bar adds to the sum of the recorded volumes. *)
Definition bar_gain (bins : list Q) (row : Candle) : Q :=
  let lo := searchsorted_left bins (c_low row) in
  let hi := searchsorted_right bins (c_high row) in
  if (lo <? hi)%nat then
    c_volume row / inject_Z (Z.of_nat (hi - lo))
    * inject_Z (Z.of_nat (valid_count bins lo (hi - lo)))
  else 0.

(** Level of a zone that carries a single level. *)
Definition level_of (z : Zone) : Q :=
  match z_payload z with
  | Level l => l
  | Range s _ => s
  end.

(** A rising frame of sixty bars: bar [i] runs from [i] to [i + 1]. *)
Definition rising_frame : list Candle :=
  map (fun i => let x := inject_Z (Z.of_nat i) in
                mkCandle None x (x + 1) x (x + 1) 100)
      (seq 0 60).

(** Five quiet bars and one with ten times the volume. *)
Definition spike_frame : list Candle :=
  [ mkCandle None 10 11 9 10 100; mkCandle None 10 11 9 10 100;
    mkCandle None 10 11 9 10 100; mkCandle None 10 11 9 10 100;
    mkCandle None 10 11 9 10 100; mkCandle None 10 12 9 11 1000 ].

(** The same rising bars, eighty of them. *)
Definition long_rising_frame : list Candle :=
  map (fun i => let x := inject_Z (Z.of_nat i) in
                mkCandle None x (x + 1) x (x + 1) 100)
      (seq 0 80).

(** A bar as the provider sends it: a positive open and no negative
    volume. *)
Definition quoted (c : Candle) : Prop := 0 < c_open c /\ 0 <= c_volume c.

End Indicators.

(* ========================================================================= *)
(** * Sample feeds of the zones tool *)

Module ZoneSamples.

Import TechnicalZones Indicators.

(** Feeds in which every fetch answers: sixty rising bars, one ATR item and
    two daily rows. *)
Definition full_feeds : Feeds :=
  mkFeeds (Some rising_frame) (Some [Some 1])
          (Some [mkDayRow (Some 10) (Some 5); mkDayRow (Some 11) (Some 6)]).

(** Feeds in which every fetch answers and the only ATR item does not
    parse. *)
Definition unparsed_atr_feeds : Feeds :=
  mkFeeds (Some rising_frame) (Some [None])
          (Some [mkDayRow (Some 10) (Some 5); mkDayRow (Some 11) (Some 6)]).

(** A provider whose 5m bar fetch returns null. *)
Definition provider_5m_null (tf : TimeframeKey) : Feeds :=
  match tf with
  | tf_5m => mkFeeds None (Some [Some 1]) (Some [])
  | _ => full_feeds
  end.

End ZoneSamples.

(* ================================================================== *)
(** * The gap tool ([fvg_tool.py]) *)
(* ================================================================== *)

Module FVGTool.

Import FVG FVGStatistics.

(** A dictionary with string keys, in insertion order; assigning to a key
    that is present replaces its value in place. *)
Definition StrDict (A : Type) : Type := list (string * A).

Fixpoint str_dict_set {A : Type} (d : StrDict A) (k : string) (v : A) : StrDict A :=
  match d with
  | [] => [(k, v)]
  | (k', v') :: r =>
    if String.eqb k' k then (k', v) :: r else (k', v') :: str_dict_set r k v
  end.

Fixpoint str_dict_get {A : Type} (d : StrDict A) (k : string) : option A :=
  match d with
  | [] => None
  | (k', v) :: r => if String.eqb k' k then Some v else str_dict_get r k
  end.

Record PriceLevels : Type := mkLevels {
  pl_gap_high : Q;
  pl_gap_low : Q;
  pl_gap_midpoint : Q;
  pl_gap_size : Q
}.

Record PriceInteraction : Type := mkInteraction {
  pi_times_tested : nat;
  pi_lowest_test : option Q;
  pi_highest_test : option Q;
  pi_currently_inside_gap : bool
}.

(** The dictionary a gap is converted to. *)
Record GapDict : Type := mkGapDict {
  gd_gap_id : GapId;
  gd_type : GapType;
  gd_candle_1 : option Z;
  gd_price_levels : PriceLevels;
  gd_candle_data : CandleData;
  gd_volume_data : VolumeData;
  gd_price_interaction : PriceInteraction;
  gd_age_minutes : Z;
  gd_filled_percentage : Q
}.

(** [round(x, 2) if x else None]: a test extreme of zero reads as unset. *)
Definition round_if_set (x : option Q) : option Q :=
  match x with
  | Some v => if Qeq_bool v 0 then None else Some (round v 2)
  | None => None
  end.

Definition gap_dict (gap : FairValueGap) : GapDict :=
  mkGapDict (gap_id gap) (gap_type gap) (timestamp gap)
    (mkLevels (round (gap_high gap) 2) (round (gap_low gap) 2)
              (round (gap_midpoint gap) 2) (round (gap_size gap) 2))
    (candle_data gap) (volume_data gap)
    (mkInteraction (times_tested gap) (round_if_set (lowest_test gap))
                   (round_if_set (highest_test gap)) (currently_inside_gap gap))
    (age_minutes gap) (round (filled_percentage gap) 1).

(** An entry of [timeframe_data]; [fetch_failed] stands for the ["error"]
    key of the entry written when the fetch gives nothing. *)
Record TimeframeEntry : Type := mkEntry {
  fvg_count : nat;
  gaps : list GapDict;
  fetch_failed : bool
}.

Inductive MarketSession : Type := regular_trading | pre_market.

Record MarketContext : Type := mkContext {
  session : MarketSession;
  minutes_since_open : Z;
  minutes_until_close : Z;
  intraday_high : Q;
  intraday_low : Q;
  opening_price : Q;
  volume_today : Z;
  avg_daily_volume : Z
}.

Record FvgSuccess : Type := mkFvgSuccess {
  current_price : Q;
  current_bid : Q;
  current_ask : Q;
  timeframe_data : StrDict TimeframeEntry;
  market_context : MarketContext;
  gap_statistics : StrDict GapStatistics;
  nearest_gaps : NearestGaps
}.

(** The error record is the one of the failed 1-minute fetch. *)
Inductive FvgResponse : Type :=
| fvg_fetch_error
| fvg_success (r : FvgSuccess).

Definition default_timeframes : list string := ["1m"; "5m"; "15m"]%string.
Definition default_lookback_periods : nat := 500.

(** The frame analysed for a timeframe: the 1-minute frame is reused for
    ["1m"], any other timeframe is fetched under its own name. *)
Definition tf_frame (fetch : string -> option (list Candle))
  (df_1m : list Candle) (tf : string) : option (list Candle) :=
  if String.eqb tf "1m" then Some df_1m else fetch tf.

(** One iteration of the loop over the timeframes.  The state is
    [timeframe_data], [all_gaps] and the number of iterations done; [now k]
    is the wall clock read by the detection pass of iteration [k]. *)
Definition tf_step (fetch : string -> option (list Candle)) (df_1m : list Candle)
  (price : Q) (lookback_periods : nat) (now : nat -> Z)
  (st : StrDict TimeframeEntry * list FairValueGap * nat) (tf : string)
  : StrDict TimeframeEntry * list FairValueGap * nat :=
  let '(data, all_gaps, k) := st in
  match tf_frame fetch df_1m tf with
  | None | Some [] => (str_dict_set data tf (mkEntry 0 [] true), all_gaps, S k)
  | Some df =>
    let found := detect_fvgs default_calculator df tf price lookback_periods (now k) in
    (str_dict_set data tf (mkEntry (length found) (map gap_dict found) false),
     (all_gaps ++ found)%list, S k)
  end.

(** [g.timeframe == tf]. *)
Definition in_timeframe (tf : string) (g : FairValueGap) : bool :=
  String.eqb (timeframe g) tf.

(** [financial_fvg_analysis], as a function of what the provider returns
    for an interval ([None] for null), of the wall clock read by each
    detection pass and of the time of day in seconds. *)
Definition financial_fvg_analysis (fetch : string -> option (list Candle))
  (timeframes : option (list string)) (lookback_periods : nat)
  (now : nat -> Z) (clock : Q) : FvgResponse :=
  let tfs := match timeframes with None => default_timeframes | Some l => l end in
  match fetch "1min"%string with
  | None | Some [] => fvg_fetch_error
  | Some (first :: rest) =>
    let df_1m := first :: rest in
    let price := c_close (last rest first) in
    let '(data, all_gaps, _) :=
      fold_left (tf_step fetch df_1m price lookback_periods now) tfs ([], [], 0%nat) in
    let minute_of_day := Qfloor (clock / 60) in
    let context :=
      mkContext
        (if Qle_bool 34200 clock && Qle_bool clock 57600
         then regular_trading else pre_market)
        (minute_of_day - 570)%Z (960 - minute_of_day)%Z
        (round (fold_left Qmax (map c_high rest) (c_high first)) 2)
        (round (fold_left Qmin (map c_low rest) (c_low first)) 2)
        (round (c_open first) 2)
        (ORB.Qint (Qsum (map c_volume df_1m)))
        (ORB.Qint (mean (map c_volume df_1m)) * 390)%Z in
    let statistics :=
      fold_left
        (fun stats tf =>
           str_dict_set stats tf
             (calculate_gap_statistics (filter (in_timeframe tf) all_gaps) tf))
        tfs [] in
    fvg_success
      (mkFvgSuccess (round price 2) (round (price - (1 # 100)) 2)
         (round (price + (1 # 100)) 2)
         data context statistics
         (find_nearest_gaps all_gaps price default_max_gaps))
  end.

(** ** Vocabulary of the properties *)

(** The timeframes a call analyses. *)
Definition requested (timeframes : option (list string)) : list string :=
  match timeframes with None => default_timeframes | Some l => l end.

(** The number of gaps the loop finds for a timeframe, each time it meets
    it. *)
Definition gaps_found (fetch : string -> option (list Candle))
  (df_1m : list Candle) (price : Q) (lookback_periods : nat) (tf : string) : nat :=
  match tf_frame fetch df_1m tf with
  | None | Some [] => 0%nat
  | Some df =>
    length (detect_fvgs default_calculator df tf price lookback_periods 0)
  end.

(** A provider that returns the frame [fresh_gap_bars] for every
    interval. *)
Definition constant_fetch (_ : string) : option (list Candle) :=
  Some fresh_gap_bars.

End FVGTool.

(* ================================================================== *)
(** * Properties of the numeric helpers *)
(* ================================================================== *)

Module NumericFacts.

Lemma Qlt_bool_iff (x y : Q) : Qlt_bool x y = true <-> x < y.
Proof.
  unfold Qlt_bool. rewrite negb_true_iff. split; intro H.
  - apply Qnot_le_lt. intro Hle. apply Qle_bool_iff in Hle. congruence.
  - destruct (Qle_bool y x) eqn:E; [|reflexivity].
    apply Qle_bool_iff in E. exfalso. apply (Qlt_not_le _ _ H E).
Qed.

Lemma Qlt_bool_false (x y : Q) : Qlt_bool x y = false <-> y <= x.
Proof.
  unfold Qlt_bool. rewrite negb_false_iff. apply Qle_bool_iff.
Qed.

Lemma Qle_bool_false (x y : Q) : Qle_bool x y = false <-> y < x.
Proof.
  split; intro H.
  - apply Qnot_le_lt. intro Hle. apply Qle_bool_iff in Hle. congruence.
  - destruct (Qle_bool x y) eqn:E; [|reflexivity].
    apply Qle_bool_iff in E. exfalso. apply (Qlt_not_le _ _ H E).
Qed.

Lemma Qmax_spec_le (a b : Q) : a <= Qmax a b /\ b <= Qmax a b.
Proof. split; [apply Q.le_max_l | apply Q.le_max_r]. Qed.

Lemma Qmin_spec_le (a b : Q) : Qmin a b <= a /\ Qmin a b <= b.
Proof. split; [apply Q.le_min_l | apply Q.le_min_r]. Qed.

Lemma Qdiv_le_mono (a b s : Q) : 0 < s -> a <= b -> a / s <= b / s.
Proof.
  intros Hs Hab. unfold Qdiv. apply Qmult_le_compat_r; [exact Hab|].
  apply Qinv_le_0_compat. apply Qlt_le_weak. exact Hs.
Qed.

Lemma Qdiv_nonneg (a s : Q) : 0 < s -> 0 <= a -> 0 <= a / s.
Proof.
  intros Hs Ha. apply Qle_shift_div_l; [exact Hs|]. lra.
Qed.

(** ** Rounding *)


Lemma rint_mono (x y : Q) : x <= y -> (rint x <= rint y)%Z.
Proof.
  intro Hxy.
  pose proof (Qfloor_resp_le _ _ Hxy) as Hf.
  pose proof (Qfloor_le x) as Hxlo. pose proof (Qlt_floor x) as Hxhi.
  pose proof (Qfloor_le y) as Hylo. pose proof (Qlt_floor y) as Hyhi.
  assert (Hx : (Qfloor x <= rint x <= Qfloor x + 1)%Z).
  { unfold rint. destruct (Qcompare _ _); [destruct (Z.even _)| |]; lia. }
  assert (Hy : (Qfloor y <= rint y <= Qfloor y + 1)%Z).
  { unfold rint. destruct (Qcompare _ _); [destruct (Z.even _)| |]; lia. }
  destruct (Z.eq_dec (Qfloor x) (Qfloor y)) as [Heq|Hne]; [|lia].
  clear Hx Hy. unfold rint. rewrite <- Heq in *.
  destruct (Qcompare_spec (x - inject_Z (Qfloor x)) (1 # 2)) as [Ex|Ex|Ex];
    destruct (Qcompare_spec (y - inject_Z (Qfloor x)) (1 # 2)) as [Ey|Ey|Ey];
    try (destruct (Z.even (Qfloor x))); try lia; exfalso; lra.
Qed.

Lemma rint_inject_Z (k : Z) : rint (inject_Z k) = k.
Proof.
  unfold rint. rewrite Qfloor_Z.
  destruct (Qcompare (inject_Z k - inject_Z k) (1 # 2)) eqn:E.
  - apply Qeq_alt in E. exfalso. lra.
  - reflexivity.
  - apply Qgt_alt in E. exfalso. lra.
Qed.

Lemma rint_comp (x y : Q) : x == y -> rint x = rint y.
Proof.
  intro H. apply Z.le_antisymm; apply rint_mono; rewrite H; apply Qle_refl.
Qed.

Lemma pow10_pos (n : nat) : 0 < pow10 n.
Proof.
  unfold pow10. change 0 with (inject_Z 0). rewrite <- Zlt_Qlt.
  apply Z.pow_pos_nonneg; lia.
Qed.

Lemma round_mono (x y : Q) (n : nat) : x <= y -> round x n <= round y n.
Proof.
  intro H. unfold round. apply Qdiv_le_mono; [apply pow10_pos|].
  rewrite <- Zle_Qle. apply rint_mono.
  apply Qmult_le_compat_r; [exact H|]. apply Qlt_le_weak, pow10_pos.
Qed.

(** Rounding fixes every integer. *)
Lemma round_inject_Z (k : Z) (n : nat) : round (inject_Z k) n == inject_Z k.
Proof.
  unfold round, pow10.
  assert (Hp : (0 < 10 ^ Z.of_nat n)%Z) by (apply Z.pow_pos_nonneg; lia).
  rewrite (rint_comp _ (inject_Z (k * 10 ^ Z.of_nat n))).
  2:{ rewrite inject_Z_mult. reflexivity. }
  rewrite rint_inject_Z, inject_Z_mult.
  field. intro H0.
  assert (Hq : 0 < inject_Z (10 ^ Z.of_nat n)).
  { change 0 with (inject_Z 0). rewrite <- Zlt_Qlt. exact Hp. }
  lra.
Qed.

Lemma round_ge_int (k : Z) (x : Q) (n : nat) :
  inject_Z k <= x -> inject_Z k <= round x n.
Proof.
  intro H. apply (Qle_trans _ (round (inject_Z k) n)).
  - apply Qle_lteq. right. symmetry. apply round_inject_Z.
  - apply round_mono. exact H.
Qed.

Lemma round_le_int (k : Z) (x : Q) (n : nat) :
  x <= inject_Z k -> round x n <= inject_Z k.
Proof.
  intro H. apply (Qle_trans _ (round (inject_Z k) n)).
  - apply round_mono. exact H.
  - apply Qle_lteq. right. apply round_inject_Z.
Qed.


(** ** Sorting *)

Section Sorting.

Context {A : Type} (leb : A -> A -> bool).

Lemma insert_sorted_perm (x : A) (l : list A) :
  Permutation (x :: l) (insert_sorted leb x l).
Proof.
  induction l as [|y r IH]; simpl.
  - apply Permutation_refl.
  - destruct (leb x y).
    + apply Permutation_refl.
    + eapply perm_trans; [apply perm_swap|]. apply perm_skip. exact IH.
Qed.

Lemma sorted_perm (l : list A) : Permutation l (sorted leb l).
Proof.
  induction l as [|x r IH]; simpl.
  - apply perm_nil.
  - eapply perm_trans; [apply perm_skip; exact IH|]. apply insert_sorted_perm.
Qed.

Hypothesis leb_total : forall x y, leb x y = true \/ leb y x = true.
Hypothesis leb_trans : forall x y z, leb x y = true -> leb y z = true -> leb x z = true.

Lemma insert_sorted_sorted (x : A) (l : list A) :
  StronglySorted (fun a b => leb a b = true) l ->
  StronglySorted (fun a b => leb a b = true) (insert_sorted leb x l).
Proof.
  induction 1 as [|y r Hr IH Hy]; simpl.
  - constructor; constructor.
  - destruct (leb x y) eqn:E.
    + constructor; [constructor; assumption|].
      constructor; [exact E|].
      rewrite Forall_forall in *. intros z Hz. eapply leb_trans; eauto.
    + constructor; [exact IH|].
      rewrite Forall_forall in *. intros z Hz.
      apply Permutation_in with (l' := x :: r) in Hz.
      2:{ apply Permutation_sym, insert_sorted_perm. }
      destruct Hz as [<-|Hz]; [|auto].
      destruct (leb_total x y) as [H|H]; congruence.
Qed.

Lemma sorted_sorted (l : list A) :
  StronglySorted (fun a b => leb a b = true) (sorted leb l).
Proof.
  induction l as [|x r IH]; simpl.
  - constructor.
  - apply insert_sorted_sorted. exact IH.
Qed.

End Sorting.


Lemma In_skipn {A : Type} (x : A) (n : nat) (l : list A) :
  In x (skipn n l) -> In x l.
Proof.
  intro H. rewrite <- (firstn_skipn n l). apply in_or_app. right. exact H.
Qed.


Lemma StronglySorted_weaken {A : Type} (R R' : A -> A -> Prop) (l : list A) :
  (forall a b, R a b -> R' a b) -> StronglySorted R l -> StronglySorted R' l.
Proof.
  intros HR H. induction H as [|x r Hr IH Hx]; constructor.
  - exact IH.
  - eapply Forall_impl; [|exact Hx]. intros b. apply HR.
Qed.







End NumericFacts.

(* ================================================================== *)
(** * Properties of the fair value gap tracker *)
(* ================================================================== *)

Module FVGFacts.

Import NumericFacts FVG.

Lemma scan_step_ok (fvg : FairValueGap) (st : Scan) (c : Candle) :
  gap_low fvg <= gap_high fvg -> well_formed c -> scan_ok fvg st ->
  scan_ok fvg (scan_step fvg st c) /\ span st <= span (scan_step fvg st c).
Proof.
  intros Hgap Hwf Hok. unfold scan_step.
  destruct (touches fvg c) eqn:Ht; [|split; [exact Hok|apply Qle_refl]].
  unfold touches in Ht. apply andb_true_iff in Ht. destruct Ht as [H1 H2].
  apply Qle_bool_iff in H1, H2. unfold well_formed in Hwf.
  assert (Hlo : gap_low fvg <= Qmax (c_low c) (gap_low fvg)) by apply Q.le_max_r.
  assert (Hhi : Qmin (c_high c) (gap_high fvg) <= gap_high fvg) by apply Q.le_min_r.
  assert (Hmid : Qmax (c_low c) (gap_low fvg) <= Qmin (c_high c) (gap_high fvg)).
  { apply Q.max_lub; apply Q.min_glb; assumption. }
  set (tl := Qmax (c_low c) (gap_low fvg)) in *.
  set (th := Qmin (c_high c) (gap_high fvg)) in *.
  clearbody tl th.
  unfold scan_ok, span in *. destruct st as [n lo hi]; simpl in *.
  destruct n as [|n], lo as [lo|], hi as [hi|]; try contradiction.
  - split; [repeat split; assumption | lra].
  - destruct Hok as (Ha & Hb & Hc).
    destruct (Qlt_bool tl lo) eqn:El; destruct (Qlt_bool hi th) eqn:Eh;
      try apply Qlt_bool_iff in El; try apply Qlt_bool_false in El;
      try apply Qlt_bool_iff in Eh; try apply Qlt_bool_false in Eh;
      simpl; (split; [repeat split|]); lra.
Qed.

Lemma scan_fold_ok (fvg : FairValueGap) (h : list Candle) :
  gap_low fvg <= gap_high fvg -> Forall well_formed h ->
  forall st, scan_ok fvg st ->
  scan_ok fvg (fold_left (scan_step fvg) h st)
  /\ span st <= span (fold_left (scan_step fvg) h st).
Proof.
  intros Hgap Hwf. induction Hwf as [|c r Hc Hr IH]; intros st Hok; simpl.
  - split; [exact Hok|apply Qle_refl].
  - destruct (scan_step_ok fvg st c Hgap Hc Hok) as [Hok' Hle].
    destruct (IH _ Hok') as [Hok'' Hle'].
    split; [exact Hok''|]. eapply Qle_trans; eassumption.
Qed.

Lemma scan_init_ok (fvg : FairValueGap) : scan_ok fvg scan_init.
Proof. exact I. Qed.

Lemma span_nonneg (fvg : FairValueGap) (st : Scan) :
  scan_ok fvg st -> 0 <= span st.
Proof.
  unfold scan_ok, span. destruct st as [n lo hi]; simpl.
  destruct n, lo, hi; try contradiction; intros; lra.
Qed.

(** On a gap whose fill field still holds its default, the analysis stores
    [fill_value] of the completed scan. *)
Lemma analyze_fill (fvg : FairValueGap) (h : list Candle) (price : Q) :
  filled_percentage fvg == 0 -> scan_ok fvg (scan fvg h) ->
  filled_percentage (_analyze_gap_interaction fvg h price)
  == fill_value fvg (scan fvg h).
Proof.
  intros H0 Hok.
  assert (Hz : Qmin (0 / gap_size fvg * 100) 100 == 0).
  { rewrite Q.min_l.
    - unfold Qdiv. ring.
    - unfold Qdiv. ring_simplify. lra. }
  destruct h as [|c r].
  - simpl. unfold fill_value, scan, span. simpl. rewrite H0, Hz. reflexivity.
  - unfold _analyze_gap_interaction. cbn [filled_percentage].
    unfold fill_of, fill_value, span. unfold scan_ok in Hok.
    destruct (scan fvg (c :: r)) as [n lo hi]; simpl in *.
    destruct n, lo, hi; try contradiction.
    + rewrite H0, Hz. reflexivity.
    + reflexivity.
Qed.

(** What the pattern test guarantees about the boundaries it returns. *)
Lemma find_pattern_lt (c1 c3 : Candle) (kind : GapType) (lo hi : Q) :
  find_pattern c1 c3 = Some (kind, lo, hi) -> lo < hi.
Proof.
  unfold find_pattern.
  destruct (Qlt_bool (c_high c1) (c_low c3)) eqn:E1.
  - intro H. inversion H; subst. apply Qlt_bool_iff. exact E1.
  - destruct (Qlt_bool (c_high c3) (c_low c1)) eqn:E2; [|discriminate].
    intro H. inversion H; subst. apply Qlt_bool_iff. exact E2.
Qed.

(** Every gap returned by the detection pass is the interaction analysis of a
    freshly built gap over the bars that follow its window. *)
Lemma detect_fvgs_inv (self : FVGCalculator) (df : list Candle) (tf : string)
  (price : Q) (lookback : nat) (now : Z) (g : FairValueGap) :
  In g (detect_fvgs self df tf price lookback now) ->
  exists dfa i c1 c2 c3 kind lo hi,
    find_pattern c1 c3 = Some (kind, lo, hi)
    /\ too_small self (hi - lo) ((hi + lo) / 2) = false
    /\ (forall c, In c dfa -> In c df)
    /\ g = _analyze_gap_interaction (new_gap dfa tf now i c1 c2 c3 kind lo hi)
             (skipn (i + 1) dfa) price.
Proof.
  unfold detect_fvgs. destruct (length df <? 3)%nat; [intros []|].
  intro H. apply in_flat_map in H. destruct H as (i & _ & Hi).
  unfold detect_at in Hi.
  set (dfa := tail (Nat.min lookback (length df)) df) in *.
  destruct (nth_error dfa i) as [c3|]; [|destruct Hi].
  destruct (nth_error dfa (i - 1)) as [c2|]; [|destruct Hi].
  destruct (nth_error dfa (i - 2)) as [c1|]; [|destruct Hi].
  destruct (find_pattern c1 c3) as [[[kind lo] hi]|] eqn:Ep; [|destruct Hi].
  destruct (too_small self (hi - lo) ((hi + lo) / 2)) eqn:Es; [destruct Hi|].
  destruct Hi as [Hi|[]].
  exists dfa, i, c1, c2, c3, kind, lo, hi. repeat split; auto.
  intros c Hc. unfold dfa, tail in Hc. eapply In_skipn; eauto.
Qed.

Lemma analyze_keeps_bounds (fvg : FairValueGap) (h : list Candle) (price : Q) :
  gap_low (_analyze_gap_interaction fvg h price) = gap_low fvg
  /\ gap_high (_analyze_gap_interaction fvg h price) = gap_high fvg
  /\ gap_size (_analyze_gap_interaction fvg h price) = gap_size fvg.
Proof. destruct h; simpl; auto. Qed.

(** C4.  The three-bar scenario yields exactly one gap, bullish, with
    gap_low = 100, gap_high = 102, gap_size = 2 and gap_midpoint = 101; with
    the fourth bar (high 103, low 100.5) appended, the pass again yields
    exactly that gap, now with times_tested = 1, lowest_test = 100.5,
    highest_test = 102 and filled_percentage = 75.  This holds for the
    default threshold 0.1, whatever the timestamps, opens, closes, current
    price and clock are, for every lookback of at least four bars. *)
Theorem C4_gap_scenario
  (s1 s2 s3 s4 : option Z) (o1 o2 o3 o4 k1 k2 k3 k4 v4 price : Q)
  (tf : string) (lookback : nat) (now : Z) :
  (4 <= lookback)%nat ->
  let df3 := scenario_bars s1 s2 s3 o1 o2 o3 k1 k2 k3 in
  let df4 := (df3 ++ [scenario_bar4 s4 o4 k4 v4])%list in
  (exists g,
      detect_fvgs default_calculator df3 tf price lookback now = [g]
      /\ gap_type g = bullish
      /\ gap_low g == 100 /\ gap_high g == 102
      /\ gap_size g == 2 /\ gap_midpoint g == 101)
  /\ (exists g,
      detect_fvgs default_calculator df4 tf price lookback now = [g]
      /\ gap_type g = bullish
      /\ gap_low g == 100 /\ gap_high g == 102
      /\ gap_size g == 2 /\ gap_midpoint g == 101
      /\ times_tested g = 1%nat
      /\ opt_Qeq (lowest_test g) (201 # 2)
      /\ opt_Qeq (highest_test g) 102
      /\ filled_percentage g == 75).
Proof.
  intros Hlb df3 df4. split.
  - eexists. split.
    + unfold detect_fvgs, df3, scenario_bars. cbn [length Nat.ltb Nat.leb].
      replace (Nat.min lookback 3) with 3%nat by lia.
      cbv - [Qdiv Qmult Qplus Qminus Z.quot Z.sub mean]. reflexivity.
    + cbn. repeat split; reflexivity.
  - eexists. split.
    + unfold detect_fvgs, df4, df3, scenario_bars, scenario_bar4.
      cbn [length Nat.ltb Nat.leb app].
      replace (Nat.min lookback 4) with 4%nat by lia.
      cbv - [Qdiv Qmult Qplus Qminus Z.quot Z.sub mean]. reflexivity.
    + cbn. repeat split; reflexivity.
Qed.

Lemma C4_gap_scenario_witness :
  (4 <= 100)%nat
  /\ exists g,
      detect_fvgs default_calculator
        (scenario_bars None None None 99 100 103 (199 # 2) (201 # 2) 103
         ++ [scenario_bar4 None 103 101 800])%list
        "1m" 101 100 0 = [g]
      /\ times_tested g = 1%nat /\ filled_percentage g == 75.
Proof.
  split; [lia|].
  destruct (C4_gap_scenario None None None None 99 100 103 103
              (199 # 2) (201 # 2) 103 101 800 101 "1m" 100 0) as [_ (g & Hg)];
    [lia|].
  exists g. tauto.
Defined.

(** C6.  For a gap as the detection pass builds it, and post-gap histories
    one of which extends the other with later bars, the fill percentage of
    the longer history is at least that of the shorter one, and both lie in
    [0, 100].  Bars are well formed (low <= high). *)
Theorem C6_fill_monotone
  (dfa : list Candle) (tf : string) (now : Z) (i : nat)
  (c1 c2 c3 : Candle) (kind : GapType) (lo hi : Q)
  (history extension : list Candle) (price price' : Q) :
  find_pattern c1 c3 = Some (kind, lo, hi) ->
  Forall well_formed (history ++ extension) ->
  let fvg := new_gap dfa tf now i c1 c2 c3 kind lo hi in
  let shorter := filled_percentage (_analyze_gap_interaction fvg history price) in
  let longer :=
    filled_percentage
      (_analyze_gap_interaction fvg (history ++ extension) price') in
  shorter <= longer
  /\ 0 <= shorter /\ shorter <= 100
  /\ 0 <= longer /\ longer <= 100.
Proof.
  intros Hp Hwf fvg shorter longer.
  apply find_pattern_lt in Hp.
  apply Forall_app in Hwf. destruct Hwf as [Hh He].
  assert (Hgap : gap_low fvg <= gap_high fvg) by (simpl; lra).
  assert (Hsize : 0 < gap_size fvg) by (simpl; lra).
  destruct (scan_fold_ok fvg history Hgap Hh _ (scan_init_ok fvg)) as [Hok1 _].
  destruct (scan_fold_ok fvg extension Hgap He _ Hok1) as [Hok2 Hle].
  fold (scan fvg history) in Hok1, Hok2, Hle.
  assert (Happ : fold_left (scan_step fvg) extension (scan fvg history)
                 = scan fvg (history ++ extension)).
  { unfold scan. rewrite fold_left_app. reflexivity. }
  rewrite Happ in Hok2, Hle.
  assert (E1 : shorter == fill_value fvg (scan fvg history)).
  { apply analyze_fill; [reflexivity|exact Hok1]. }
  assert (E2 : longer == fill_value fvg (scan fvg (history ++ extension))).
  { apply analyze_fill; [reflexivity|exact Hok2]. }
  pose proof (span_nonneg _ _ Hok1) as Hs1.
  pose proof (span_nonneg _ _ Hok2) as Hs2.
  assert (Hq : forall a b, a <= b ->
               a / gap_size fvg * 100 <= b / gap_size fvg * 100).
  { intros a b Hab. apply Qmult_le_compat_r; [|lra].
    apply Qdiv_le_mono; assumption. }
  assert (Hn : forall a, 0 <= a -> 0 <= a / gap_size fvg * 100).
  { intros a Ha. apply Qmult_le_0_compat; [|lra]. apply Qdiv_nonneg; assumption. }
  rewrite E1, E2. unfold fill_value. repeat split.
  - apply Q.min_le_compat_r. apply Hq. exact Hle.
  - apply Q.min_glb; [apply Hn; exact Hs1 | lra].
  - apply Q.le_min_r.
  - apply Q.min_glb; [apply Hn; exact Hs2 | lra].
  - apply Q.le_min_r.
Qed.

Lemma C6_fill_monotone_witness :
  let c1 := mkCandle None 99 100 98 (199 # 2) 1000 in
  let c2 := mkCandle None 100 101 99 (201 # 2) 500 in
  let c3 := mkCandle None 103 104 102 103 1000 in
  let b4 := mkCandle None 103 103 (203 # 2) 102 800 in
  let b5 := mkCandle None 102 (205 # 2) (201 # 2) 101 900 in
  let fvg := new_gap [c1; c2; c3; b4; b5] "1m" 0 2 c1 c2 c3 bullish 100 102 in
  find_pattern c1 c3 = Some (bullish, 100, 102)
  /\ Forall well_formed ([b4] ++ [b5])
  /\ filled_percentage (_analyze_gap_interaction fvg [b4] 101)
     <= filled_percentage (_analyze_gap_interaction fvg ([b4] ++ [b5]) 101).
Proof.
  intros c1 c2 c3 b4 b5 fvg.
  assert (Hp : find_pattern c1 c3 = Some (bullish, 100, 102)) by reflexivity.
  assert (Hwf : Forall well_formed ([b4] ++ [b5])).
  { repeat constructor; unfold well_formed; simpl; lra. }
  split; [exact Hp|]. split; [exact Hwf|].
  exact (proj1 (C6_fill_monotone [c1; c2; c3; b4; b5] "1m" 0 2 c1 c2 c3
                  bullish 100 102 [b4] [b5] 101 101 Hp Hwf)).
Defined.

(** C10.  For every gap returned by the detection pass over well-formed
    bars: when times_tested > 0, lowest_test and highest_test are set and
    gap_low <= lowest_test <= highest_test <= gap_high; when
    times_tested = 0, both are unset and filled_percentage is 0. *)
Theorem C10_test_extremes
  (self : FVGCalculator) (df : list Candle) (tf : string) (price : Q)
  (lookback : nat) (now : Z) (g : FairValueGap) :
  Forall well_formed df ->
  In g (detect_fvgs self df tf price lookback now) ->
  ((0 < times_tested g)%nat ->
     exists lo hi,
       lowest_test g = Some lo /\ highest_test g = Some hi
       /\ gap_low g <= lo /\ lo <= hi /\ hi <= gap_high g)
  /\ (times_tested g = 0%nat ->
        lowest_test g = None /\ highest_test g = None
        /\ filled_percentage g == 0).
Proof.
  intros Hwf Hin.
  destruct (detect_fvgs_inv _ _ _ _ _ _ _ Hin)
    as (dfa & i & c1 & c2 & c3 & kind & lo & hi & Hp & _ & Hsub & ->).
  apply find_pattern_lt in Hp.
  set (fvg := new_gap dfa tf now i c1 c2 c3 kind lo hi).
  assert (Hgap : gap_low fvg <= gap_high fvg) by (simpl; lra).
  assert (Hh : Forall well_formed (skipn (i + 1) dfa)).
  { rewrite Forall_forall in *. intros c Hc. apply Hwf, Hsub.
    eapply In_skipn; eauto. }
  destruct (scan_fold_ok fvg _ Hgap Hh _ (scan_init_ok fvg)) as [Hok _].
  fold (scan fvg (skipn (i + 1) dfa)) in Hok.
  destruct (skipn (i + 1) dfa) as [|b r] eqn:Eh.
  - simpl. split; [intro H; inversion H|]. intros _. repeat split; reflexivity.
  - unfold _analyze_gap_interaction.
    cbn [times_tested lowest_test highest_test filled_percentage gap_low gap_high].
    unfold fill_of. unfold scan_ok in Hok.
    destruct (scan fvg (b :: r)) as [n slo shi]; simpl in *.
    destruct n, slo, shi; try contradiction.
    + split; [intro H; inversion H|]. intros _. repeat split; reflexivity.
    + split; [|intro H; discriminate]. intros _.
      exists q, q0. repeat split; tauto.
Qed.

Lemma C10_test_extremes_witness :
  let df := (scenario_bars None None None 99 100 103 (199 # 2) (201 # 2) 103
             ++ [scenario_bar4 None 103 101 800])%list in
  Forall well_formed df
  /\ exists g,
       In g (detect_fvgs default_calculator df "1m" 101 100 0)
       /\ ((0 < times_tested g)%nat ->
           exists lo hi,
             lowest_test g = Some lo /\ highest_test g = Some hi
             /\ gap_low g <= lo /\ lo <= hi /\ hi <= gap_high g).
Proof.
  intro df.
  assert (Hwf : Forall well_formed df).
  { repeat constructor; unfold well_formed; simpl; lra. }
  split; [exact Hwf|].
  assert (Hin : exists g, In g (detect_fvgs default_calculator df "1m" 101 100 0)).
  { eexists. vm_compute. left. reflexivity. }
  destruct Hin as [g Hin]. exists g. split; [exact Hin|].
  exact (proj1 (C10_test_extremes default_calculator df "1m" 101 100 0 g Hwf Hin)).
Defined.







End FVGFacts.

(* ================================================================== *)
(** * Properties of the opening-range analysis *)
(* ================================================================== *)

Module ORBFacts.

Import NumericFacts ORB.

Lemma existsb_close (p : Q -> bool) (post : list Row) :
  existsb (fun r => p (c_close (snd r))) post = true
  <-> exists r, In r post /\ p (c_close (snd r)) = true.
Proof. apply existsb_exists. Qed.

(** The confirmation test in closed form: the bullish side is confirmed
    exactly under its three conditions; the bearish side needs, besides its
    three conditions, that no post-window close went above the high by the
    buffer. *)
Lemma check_breakout_spec (post : list Row) (high low : Q) (pos : Position) :
  (check_breakout post high low pos = (true, Some bullish)
   <-> bullish_conditions post high pos)
  /\ (check_breakout post high low pos = (true, Some bearish)
      <-> bearish_conditions post low pos
          /\ ~ exists r, In r post /\ high * (1001 # 1000) < c_close (snd r)).
Proof.
  unfold check_breakout, bullish_conditions, bearish_conditions.
  destruct post as [|r0 post0].
  - split; split; try discriminate.
    + intros ((r & [] & _) & _).
    + intros (((r & [] & _) & _) & _).
  - set (post := r0 :: post0).
    destruct (existsb (fun r => Qlt_bool (high * (1001 # 1000)) (c_close (snd r))) post)
      eqn:Eup.
    + assert (Hup : exists r, In r post /\ high * (1001 # 1000) < c_close (snd r)).
      { apply existsb_exists in Eup. destruct Eup as (r & Hr & Hc).
        exists r. split; [exact Hr|]. apply Qlt_bool_iff. exact Hc. }
      destruct (3 <=? count_close (fun c => Qlt_bool high c) post)%nat eqn:Ec;
        destruct pos; simpl; split; split;
        try discriminate; try tauto;
        try (intros (_ & H3 & Hp); try discriminate Hp;
             apply Nat.leb_le in H3; congruence);
        try (intros [_ Hn]; exfalso; apply Hn; exact Hup).
      intros _. split; [exact Hup|]. split; [apply Nat.leb_le; exact Ec|reflexivity].
    + assert (Hup : ~ exists r, In r post /\ high * (1001 # 1000) < c_close (snd r)).
      { intros (r & Hr & Hc).
        assert (Ht : existsb (fun r => Qlt_bool (high * (1001 # 1000)) (c_close (snd r)))
                       post = true).
        { apply existsb_exists. exists r. split; [exact Hr|].
          apply Qlt_bool_iff. exact Hc. }
        congruence. }
      destruct (existsb (fun r => Qlt_bool (c_close (snd r)) (low * (999 # 1000))) post)
        eqn:Edn.
      * assert (Hdn : exists r, In r post /\ c_close (snd r) < low * (999 # 1000)).
        { apply existsb_exists in Edn. destruct Edn as (r & Hr & Hc).
          exists r. split; [exact Hr|]. apply Qlt_bool_iff. exact Hc. }
        destruct (3 <=? count_close (fun c => Qlt_bool c low) post)%nat eqn:Ec;
          destruct pos; simpl; split; split;
          try discriminate; try tauto;
          try (intros (Hu & _); exfalso; apply Hup; exact Hu);
          try (intros ((_ & H3 & Hp) & _); try discriminate Hp;
               apply Nat.leb_le in H3; congruence).
        intros _. split; [|exact Hup].
        split; [exact Hdn|]. split; [apply Nat.leb_le; exact Ec|reflexivity].
      * split; split; try discriminate.
        -- intros (Hu & _). exfalso. apply Hup. exact Hu.
        -- intros (((r & Hr & Hc) & _) & _).
           assert (Ht : existsb (fun r => Qlt_bool (c_close (snd r)) (low * (999 # 1000)))
                          post = true).
           { apply existsb_exists. exists r. split; [exact Hr|].
             apply Qlt_bool_iff. exact Hc. }
           congruence.
Qed.

(** C5 (the code departs from the claim).  On [whipsaw_session] with a
    five-minute window and the price at 99.5, all three bearish conditions
    hold, yet the analysis reports breakout_confirmed = false and no
    breakout kind: one earlier close above the high by the buffer makes the
    code take the bullish branch and never examine the bearish side. *)
Theorem C5_bearish_breakout_unconfirmed :
  bearish_conditions whipsaw_post 100 below_range
  /\ exists a,
       orb_period whipsaw_session 0 (995 # 10) 1000 5 = Some (analysis a)
       /\ orb_high a == 101 /\ orb_low a == 100
       /\ position a = below_range
       /\ breakout_confirmed a = false
       /\ breakout_type a = None.
Proof.
  split.
  - unfold bearish_conditions. split; [|split].
    + exists (420%Z, mkCandle None (1012 # 10) (1012 # 10) (994 # 10) (995 # 10) 1000).
      split; [vm_compute; tauto|]. simpl. reflexivity.
    + vm_compute. lia.
    + reflexivity.
  - eexists. split; [vm_compute; reflexivity|].
    repeat split; reflexivity.
Qed.

Lemma pair_leb_total (x y : Z * Q) : pair_leb x y = true \/ pair_leb y x = true.
Proof.
  unfold pair_leb. destruct x as [p r], y as [p' r']; simpl.
  destruct (Z.ltb_spec p p'); [left; reflexivity|].
  destruct (Z.ltb_spec p' p); [right; reflexivity|].
  assert (p = p') by lia. subst p'. rewrite Z.eqb_refl. simpl.
  destruct (Qlt_le_dec r' r) as [H1|H1].
  - right. apply Qle_bool_iff. apply Qlt_le_weak. exact H1.
  - left. apply Qle_bool_iff. exact H1.
Qed.

Lemma pair_leb_trans (x y z : Z * Q) :
  pair_leb x y = true -> pair_leb y z = true -> pair_leb x z = true.
Proof.
  unfold pair_leb. destruct x as [p r], y as [p' r'], z as [p'' r'']; simpl.
  intros H1 H2.
  apply orb_true_iff in H1. apply orb_true_iff in H2. apply orb_true_iff.
  destruct H1 as [H1|H1], H2 as [H2|H2].
  - left. apply Z.ltb_lt in H1, H2. apply Z.ltb_lt. lia.
  - apply andb_true_iff in H2. destruct H2 as [H2 _].
    apply Z.ltb_lt in H1. apply Z.eqb_eq in H2. left. apply Z.ltb_lt. lia.
  - apply andb_true_iff in H1. destruct H1 as [H1 _].
    apply Z.ltb_lt in H2. apply Z.eqb_eq in H1. left. apply Z.ltb_lt. lia.
  - apply andb_true_iff in H1. apply andb_true_iff in H2.
    destruct H1 as [H1 H1'], H2 as [H2 H2'].
    apply Z.eqb_eq in H1, H2. apply Qle_bool_iff in H1', H2'.
    right. apply andb_true_iff. split; [apply Z.eqb_eq; lia|].
    apply Qle_bool_iff. eapply Qle_trans; eauto.
Qed.

Lemma pair_leb_period (x y : Z * Q) : pair_leb x y = true -> (fst x <= fst y)%Z.
Proof.
  unfold pair_leb. intro H. apply orb_true_iff in H. destruct H as [H|H].
  - apply Z.ltb_lt in H. lia.
  - apply andb_true_iff in H. destruct H as [H _]. apply Z.eqb_eq in H. lia.
Qed.

Lemma sorted_by_period (l : list (Z * Q)) : by_period (sorted pair_leb l).
Proof.
  unfold by_period. eapply StronglySorted_weaken.
  - exact pair_leb_period.
  - apply sorted_sorted; [exact pair_leb_total | exact pair_leb_trans].
Qed.

Lemma all_contracting_iff (ranges : list Q) :
  all_contracting ranges = true <-> contracting_prop ranges.
Proof.
  unfold contracting_prop. induction ranges as [|a r IH].
  - simpl. split; [intros _ i Hi; inversion Hi | reflexivity].
  - destruct r as [|b r'].
    + simpl. split; [intros _ i Hi; lia | reflexivity].
    + change (all_contracting (a :: b :: r'))
        with (Qle_bool b a && all_contracting (b :: r')).
      rewrite andb_true_iff, IH, Qle_bool_iff. split.
      * intros [Hab Hr] [|i] Hi.
        -- exact Hab.
        -- apply (Hr i). simpl in *. lia.
      * intro H. split.
        -- apply (H 0%nat). simpl. lia.
        -- intros i Hi. apply (H (S i)). simpl in *. lia.
Qed.

(** C8.  With at least two analysed periods, squeeze detection orders the
    valid (period, range) pairs by ascending period; reports contracting
    exactly when each range is at most the previous one; takes the
    compression ratio to be the last range over the first, or 1 when the
    first range is not positive, and reports it rounded to two decimals;
    and reports a squeeze exactly when the ranges contract and the ratio is
    below 0.7. *)
Theorem C8_squeeze_detection (orb_data : OrbDict) :
  (2 <= length (valid_ranges orb_data))%nat ->
  exists sorted_data detected contracting interp,
    let ranges := map snd sorted_data in
    let ratio := compression_of ranges in
    detect_orb_squeeze orb_data
    = squeeze_report detected contracting (round ratio 2)
        (map (fun pr => (fst pr, round (snd pr) 2)) sorted_data) interp
    /\ Permutation sorted_data (valid_ranges orb_data)
    /\ by_period sorted_data
    /\ (contracting = true <-> contracting_prop ranges)
    /\ (0 < hd 0 ranges -> ratio == last ranges 0 / hd 0 ranges)
    /\ (hd 0 ranges <= 0 -> ratio == 1)
    /\ (detected = true <-> contracting_prop ranges /\ ratio < 7 # 10).
Proof.
  intro Hlen. unfold detect_orb_squeeze.
  destruct (length (valid_ranges orb_data) <? 2)%nat eqn:E.
  { apply Nat.ltb_lt in E. lia. }
  eexists _, _, _, _. cbv zeta. split; [reflexivity|].
  split; [apply Permutation_sym, sorted_perm|].
  split; [apply sorted_by_period|].
  split; [apply all_contracting_iff|].
  split; [|split].
  - intro H. unfold compression_of.
    apply Qlt_bool_iff in H. rewrite H. reflexivity.
  - intro H. unfold compression_of.
    apply Qlt_bool_false in H. rewrite H. reflexivity.
  - rewrite andb_true_iff, all_contracting_iff, Qlt_bool_iff. reflexivity.
Qed.

Lemma C8_squeeze_detection_witness :
  let orb_data := [ (5%Z, analysis (sample_analysis 2));
                    (30%Z, analysis (sample_analysis 1));
                    (15%Z, insufficient_data 15 3) ] in
  (2 <= length (valid_ranges orb_data))%nat
  /\ squeeze_detected_of (detect_orb_squeeze orb_data) = true.
Proof.
  intro orb_data.
  assert (Hlen : (2 <= length (valid_ranges orb_data))%nat) by (simpl; lia).
  split; [exact Hlen|].
  destruct (C8_squeeze_detection orb_data Hlen)
    as (sd & d & c & interp & Heq & _).
  rewrite Heq. simpl.
  assert (Hd : squeeze_detected_of (detect_orb_squeeze orb_data) = true)
    by (vm_compute; reflexivity).
  rewrite Heq in Hd. exact Hd.
Defined.

End ORBFacts.

(* ================================================================== *)
(** * Properties of the zone aggregation *)
(* ================================================================== *)

Module TechnicalZonesFacts.

Import NumericFacts TechnicalAnalysis TechnicalZones Indicators ZoneSamples.

Lemma degrade_not_error (to s : Status) :
  to <> error -> s <> error -> degrade to s <> error.
Proof. unfold degrade. destruct s; simpl; auto. Qed.

(** The bar step raises the failure flag exactly on a null frame, never sets
    the running status to error, and only appends zones. *)
Lemma bars_step_spec (cfg : Config) (tf : TimeframeKey)
  (d : option (list Candle)) (st : Frame) :
  frame_fetch_failed (bars_step cfg tf d st) = frame_fetch_failed st || is_null d
  /\ (frame_status st <> error -> frame_status (bars_step cfg tf d st) <> error)
  /\ zones (bars_step cfg tf d st)
     = (zones st ++ bar_zones cfg tf (mkFeeds d None None))%list.
Proof.
  unfold bars_step, bar_zones. cbn [df_bars].
  destruct d as [[|b bs]|]; cbn [is_null].
  - cbn. rewrite orb_false_r, app_nil_r. repeat split.
    apply degrade_not_error. discriminate.
  - destruct (calculate_volume_profile (b :: bs) default_num_bins 2) as [vp|];
      destruct (calculate_fibonacci_levels (b :: bs) default_lookback_periods 2)
        as [|z zs]; cbn -[vp_zones app];
      rewrite ?orb_false_r, <- ?app_assoc, ?app_nil_r;
      (split; [reflexivity|]; split; [|reflexivity]);
      intro H; repeat apply degrade_not_error; try discriminate; exact H.
  - cbn. rewrite orb_true_r, app_nil_r. repeat split. auto.
Qed.

Lemma atr_step_spec (a : option (list AtrItem)) (st : Frame) :
  frame_fetch_failed (fst (atr_step a st)) = frame_fetch_failed st || is_null a
  /\ (frame_status st <> error -> frame_status (fst (atr_step a st)) <> error)
  /\ zones (fst (atr_step a st)) = zones st.
Proof.
  unfold atr_step. destruct a as [[|x xs]|]; cbn [is_null].
  - cbn. rewrite orb_false_r. auto.
  - destruct (last (x :: xs) None); cbn; rewrite orb_false_r; repeat split; auto.
    intro H. apply degrade_not_error; [discriminate | exact H].
  - cbn. rewrite orb_true_r. auto.
Qed.

Lemma prev_day_step_spec (tf : TimeframeKey) (d : option (list DayRow)) (st : Frame) :
  frame_fetch_failed (prev_day_step tf d st)
  = frame_fetch_failed st || (is_intraday tf && is_null d)
  /\ frame_status (prev_day_step tf d st) = frame_status st
  /\ exists extra, zones (prev_day_step tf d st) = (zones st ++ extra)%list.
Proof.
  unfold prev_day_step.
  assert (Hsame : frame_fetch_failed st = frame_fetch_failed st || false)
    by (rewrite orb_false_r; reflexivity).
  assert (Hnil : exists extra, zones st = (zones st ++ extra)%list)
    by (exists []; rewrite app_nil_r; reflexivity).
  destruct tf; cbn [is_intraday andb]; auto;
    (destruct d as [rows|]; cbn [is_null];
     [ destruct (length rows <? 2)%nat; auto;
       destruct (nth_error rows (length rows - 2)); auto;
       cbn; repeat split; eauto
     | cbn; rewrite orb_true_r; auto ]).
Qed.

Lemma finalize_status (st : Frame) (atr_value : option Q) :
  frame_status st <> error ->
  (status (finalize st atr_value) = error <-> frame_fetch_failed st = true)
  /\ technical_zones (finalize st atr_value) = zones st.
Proof.
  intro Hs. unfold finalize.
  destruct (frame_fetch_failed st); [cbn; tauto|].
  destruct (zones st) eqn:Ez; cbn.
  - split; [split; discriminate | reflexivity].
  - split; [split; [intro H; contradiction | discriminate] | reflexivity].
Qed.

Lemma bar_zones_feeds (cfg : Config) (tf : TimeframeKey) (feeds : Feeds) :
  bar_zones cfg tf (mkFeeds (df_bars feeds) None None) = bar_zones cfg tf feeds.
Proof. reflexivity. Qed.

(** C2 as stated fails: with a successful bar fetch and a null ATR fetch the
    frame status is error. *)
Lemma C2_atr_null_counterexample :
  df_bars atr_null_feeds <> None
  /\ status (process_timeframe sample_config tf_1d atr_null_feeds) = error.
Proof. split; [discriminate | vm_compute; reflexivity]. Qed.

(** The running status after the bar step, read off the bars. *)
Lemma bars_step_status (cfg : Config) (tf : TimeframeKey) (feeds : Feeds) :
  frame_status (bars_step cfg tf (df_bars feeds) frame_init)
  = match df_bars feeds with
    | None => success
    | Some _ =>
      if bars_empty feeds then warning
      else if profile_computed feeds
           then if fib_found feeds then success else warning
           else partial_success
    end.
Proof.
  unfold bars_step, bars_empty, profile_computed, fib_found.
  destruct (df_bars feeds) as [[|b bs]|]; [reflexivity| |reflexivity].
  destruct (calculate_volume_profile (b :: bs) default_num_bins 2);
    destruct (calculate_fibonacci_levels (b :: bs) default_lookback_periods 2);
    reflexivity.
Qed.

(** The ATR step: only an item that does not parse degrades the status,
    and the value is the last item's. *)
Lemma atr_step_status (feeds : Feeds) (st : Frame) :
  frame_status (fst (atr_step (atr_data feeds) st))
  = (if atr_unparsed feeds then degrade partial_success (frame_status st)
     else frame_status st)
  /\ snd (atr_step (atr_data feeds) st) = atr_value_of feeds.
Proof.
  unfold atr_step, atr_unparsed, atr_value_of.
  destruct (atr_data feeds) as [[|x xs]|]; [split; reflexivity| |split; reflexivity].
  destruct (last (x :: xs) None); split; reflexivity.
Qed.

Lemma prev_day_step_zones (tf : TimeframeKey) (feeds : Feeds) (st : Frame) :
  zones (prev_day_step tf (prev_day_df feeds) st)
  = (zones st ++ prev_day_zones tf feeds)%list.
Proof.
  unfold prev_day_step, prev_day_zones.
  destruct tf; cbn [is_intraday]; try (rewrite app_nil_r; reflexivity);
    (destruct (prev_day_df feeds) as [rows|]; [|cbn; rewrite app_nil_r; reflexivity];
     destruct (length rows <? 2)%nat eqn:El;
     [ rewrite app_nil_r; reflexivity
     | destruct (nth_error rows (length rows - 2));
       [reflexivity | rewrite app_nil_r; reflexivity] ]).
Qed.

Lemma profile_needs_bars (feeds : Feeds) :
  profile_computed feeds = true -> bars_empty feeds = false.
Proof.
  unfold profile_computed, bars_empty.
  destruct (df_bars feeds) as [[|b bs]|]; try (intros _; reflexivity).
  assert (E : calculate_volume_profile [] default_num_bins 2 = None) by reflexivity.
  rewrite E. discriminate.
Qed.

Lemma profile_gives_zones (cfg : Config) (tf : TimeframeKey) (feeds : Feeds) :
  profile_computed feeds = true -> all_zones cfg tf feeds <> [].
Proof.
  unfold profile_computed, all_zones, bar_zones.
  destruct (df_bars feeds) as [[|b bs]|]; try discriminate.
  destruct (calculate_volume_profile (b :: bs) default_num_bins 2); [|discriminate].
  intros _. unfold vp_zones. cbn -[map]. discriminate.
Qed.

(** C2 (amended).  A timeframe's final status is error exactly when one of
    its upstream fetches returned null: the bar fetch, the ATR fetch or, for
    the intraday frames, the previous-day fetch.  In every case, also under
    error, the returned list holds every zone the data supports: the
    volume-profile and Fibonacci zones of the bars, then the two ATR
    targets, then the previous-day high and low.  With no null fetch every
    other missing piece degrades the status, and only to partial_success or
    warning: the status is success exactly when the profile is computed,
    Fibonacci zones are found and no ATR item fails to parse; it is warning
    exactly when no zone at all is produced, the bar frame is empty, or the
    profile is computed and no Fibonacci zone is found; it is
    partial_success exactly when some zone is produced from a non-empty bar
    frame and either the profile fails or, with profile and Fibonacci zones
    there, the last ATR item does not parse.  An empty ATR feed and a daily
    frame of fewer than two rows lose their zones and leave the status as
    it is. *)
Theorem C2_frame_status (cfg : Config) (tf : TimeframeKey) (feeds : Feeds) :
  let r := process_timeframe cfg tf feeds in
  (status r = error <-> some_fetch_null tf feeds = true)
  /\ (some_fetch_null tf feeds = false ->
      status r = success \/ status r = partial_success \/ status r = warning)
  /\ incl (bar_zones cfg tf feeds) (technical_zones r)
  /\ technical_zones r = all_zones cfg tf feeds
  /\ (some_fetch_null tf feeds = false ->
      (status r = success
       <-> profile_computed feeds = true /\ fib_found feeds = true
           /\ atr_unparsed feeds = false)
      /\ (status r = warning
          <-> all_zones cfg tf feeds = [] \/ bars_empty feeds = true
              \/ (profile_computed feeds = true /\ fib_found feeds = false))
      /\ (status r = partial_success
          <-> all_zones cfg tf feeds <> [] /\ bars_empty feeds = false
              /\ (profile_computed feeds = false
                  \/ (fib_found feeds = true /\ atr_unparsed feeds = true)))).
Proof.
  intro r. unfold r, process_timeframe.
  destruct (bars_step_spec cfg tf (df_bars feeds) frame_init) as (Hf1 & Hs1 & Hz1).
  pose proof (bars_step_status cfg tf feeds) as Hr1.
  set (st1 := bars_step cfg tf (df_bars feeds) frame_init) in *.
  destruct (atr_step_spec (atr_data feeds) st1) as (Hf2 & Hs2 & Hz2).
  destruct (atr_step_status feeds st1) as [Hr2 Hatr].
  destruct (atr_step (atr_data feeds) st1) as [st2 atr_value]. cbn [fst snd] in *.
  subst atr_value.
  set (st3 := mkState (zones st2 ++ atr_zones cfg tf (df_bars feeds) (atr_value_of feeds))
                (frame_status st2) (frame_message st2) (frame_fetch_failed st2)).
  destruct (prev_day_step_spec tf (prev_day_df feeds) st3) as (Hf4 & Hs4 & _).
  pose proof (prev_day_step_zones tf feeds st3) as Hz4.
  set (st4 := prev_day_step tf (prev_day_df feeds) st3) in *.
  assert (Hne : frame_status st4 <> error).
  { rewrite Hs4. cbn. apply Hs2, Hs1. cbn. discriminate. }
  destruct (finalize_status st4 (atr_value_of feeds) Hne) as [Hiff Hzones].
  assert (Hflag : frame_fetch_failed st4 = some_fetch_null tf feeds).
  { rewrite Hf4. cbn [frame_fetch_failed st3]. rewrite Hf2, Hf1. reflexivity. }
  assert (Herr : status (finalize st4 (atr_value_of feeds)) = error
                 <-> some_fetch_null tf feeds = true).
  { rewrite Hiff, Hflag. reflexivity. }
  assert (Hall : zones st4 = all_zones cfg tf feeds).
  { rewrite Hz4. cbn [zones st3]. rewrite Hz2, Hz1, bar_zones_feeds.
    unfold all_zones. cbn [app]. rewrite <- app_assoc. reflexivity. }
  split; [exact Herr|]. split.
  { intro Hn. destruct (status (finalize st4 (atr_value_of feeds))) eqn:E; auto.
    exfalso. apply proj1 in Herr. specialize (Herr eq_refl). congruence. }
  split.
  { rewrite Hzones, Hall. unfold all_zones. intros z Hz. apply in_or_app. left.
    exact Hz. }
  split; [rewrite Hzones; exact Hall|].
  intro Hn.
  assert (Hbars : exists bars, df_bars feeds = Some bars).
  { unfold some_fetch_null in Hn. destruct (df_bars feeds) as [bars|];
      [eexists; reflexivity | discriminate]. }
  destruct Hbars as [bars Hbars].
  assert (Hrun : frame_status st4
                 = if atr_unparsed feeds
                   then degrade partial_success
                          (if bars_empty feeds then warning
                           else if profile_computed feeds
                                then if fib_found feeds then success else warning
                                else partial_success)
                   else (if bars_empty feeds then warning
                         else if profile_computed feeds
                              then if fib_found feeds then success else warning
                              else partial_success)).
  { rewrite Hs4. cbn [frame_status st3]. rewrite Hr2, Hr1, Hbars. reflexivity. }
  assert (Hfinal : status (finalize st4 (atr_value_of feeds))
                   = match all_zones cfg tf feeds with
                     | [] => warning
                     | _ => frame_status st4
                     end).
  { unfold finalize. rewrite Hflag, Hn, Hall.
    destruct (all_zones cfg tf feeds); reflexivity. }
  pose proof (profile_needs_bars feeds) as Hpb.
  pose proof (profile_gives_zones cfg tf feeds) as Hpz.
  rewrite Hfinal, Hrun. clear Hfinal Hrun.
  destruct (all_zones cfg tf feeds) as [|z zs];
    destruct (bars_empty feeds); destruct (profile_computed feeds);
    destruct (fib_found feeds); destruct (atr_unparsed feeds);
    cbn [degrade Status_eqb];
    try (exfalso; apply Hpz; reflexivity);
    try (specialize (Hpb eq_refl); discriminate Hpb);
    (split; [|split]); split; intro H;
    try discriminate H; try reflexivity;
    try (repeat split; reflexivity || discriminate);
    try (destruct H as (H1 & H2 & H3); discriminate);
    try (destruct H as (H1 & H2 & [H3|[H3 H4]]); discriminate || congruence);
    try (destruct H as [H|[H|[H1 H2]]]; discriminate);
    try (left; reflexivity);
    try (right; left; reflexivity);
    try (right; right; split; reflexivity);
    try (split; [discriminate|]; split; [reflexivity|]; left; reflexivity);
    try (split; [discriminate|]; split; [reflexivity|]; right; split; reflexivity).
Qed.

Lemma C2_frame_status_witness :
  some_fetch_null tf_1m unparsed_atr_feeds = false
  /\ status (process_timeframe sample_config tf_1m unparsed_atr_feeds) = partial_success
  /\ length (technical_zones (process_timeframe sample_config tf_1m unparsed_atr_feeds))
     = length (all_zones sample_config tf_1m unparsed_atr_feeds).
Proof.
  assert (Hn : some_fetch_null tf_1m unparsed_atr_feeds = false) by reflexivity.
  pose proof (C2_frame_status sample_config tf_1m unparsed_atr_feeds) as H.
  cbv zeta in H. destruct H as (_ & _ & _ & Hz & Hs).
  destruct (Hs Hn) as (_ & _ & Hp).
  split; [exact Hn|]. split.
  - apply Hp. split; [vm_compute; discriminate|]. split; [reflexivity|].
    right. split; vm_compute; reflexivity.
  - rewrite Hz. reflexivity.
Defined.

End TechnicalZonesFacts.

(* ================================================================== *)
(** * Properties of the volume profile *)
(* ================================================================== *)

Module TechnicalAnalysisFacts.

Import NumericFacts TechnicalAnalysis.

(** ** Sums *)

Lemma fold_Qplus_acc (l : list Q) (a : Q) : fold_left Qplus l a == a + Qsum l.
Proof.
  unfold Qsum. revert a. induction l as [|x r IH]; intro a; simpl.
  - ring.
  - rewrite (IH (a + x)), (IH (0 + x)). ring.
Qed.

Lemma Qsum_cons (a : Q) (l : list Q) : Qsum (a :: l) == a + Qsum l.
Proof. unfold Qsum at 1. simpl. rewrite fold_Qplus_acc. ring. Qed.

Lemma Qsum_app (l1 l2 : list Q) : Qsum (l1 ++ l2) == Qsum l1 + Qsum l2.
Proof.
  induction l1 as [|x r IH]; simpl.
  - unfold Qsum at 2. simpl. ring.
  - rewrite !Qsum_cons, IH. ring.
Qed.

Lemma Qsum_perm (l l' : list Q) : Permutation l l' -> Qsum l == Qsum l'.
Proof.
  induction 1 as [|x l l' _ IH|x y l|l l' l'' _ IH1 _ IH2].
  - reflexivity.
  - rewrite !Qsum_cons, IH. reflexivity.
  - rewrite !Qsum_cons. ring.
  - rewrite IH1. exact IH2.
Qed.

Lemma Qsum_nonneg (l : list Q) : Forall (fun x => 0 <= x) l -> 0 <= Qsum l.
Proof.
  induction 1 as [|x r Hx _ IH].
  - unfold Qsum. simpl. lra.
  - rewrite Qsum_cons. lra.
Qed.

Lemma Qsum_map_ext (A : Type) (f g : A -> Q) (l : list A) :
  (forall x, In x l -> f x == g x) -> Qsum (map f l) == Qsum (map g l).
Proof.
  induction l as [|x r IH]; intro H; simpl.
  - reflexivity.
  - rewrite !Qsum_cons, IH.
    + rewrite (H x) by (left; reflexivity). reflexivity.
    + intros y Hy. apply H. right. exact Hy.
Qed.

(** ** Maxima and minima of a column *)

Lemma fold_Qmax_ge (r : list Q) (a : Q) :
  a <= fold_left Qmax r a /\ forall x, In x r -> x <= fold_left Qmax r a.
Proof.
  revert a. induction r as [|y r IH]; intro a; simpl.
  - split; [apply Qle_refl | intros x []].
  - destruct (IH (Qmax a y)) as [H1 H2]. split.
    + eapply Qle_trans; [apply Q.le_max_l | exact H1].
    + intros x [<-|Hx]; [|apply H2; exact Hx].
      eapply Qle_trans; [apply Q.le_max_r | exact H1].
Qed.

Lemma fold_Qmin_le (r : list Q) (a : Q) :
  fold_left Qmin r a <= a /\ forall x, In x r -> fold_left Qmin r a <= x.
Proof.
  revert a. induction r as [|y r IH]; intro a; simpl.
  - split; [apply Qle_refl | intros x []].
  - destruct (IH (Qmin a y)) as [H1 H2]. split.
    + eapply Qle_trans; [exact H1 | apply Q.le_min_l].
    + intros x [<-|Hx]; [|apply H2; exact Hx].
      eapply Qle_trans; [exact H1 | apply Q.le_min_r].
Qed.

Lemma series_max_ge (l : list Q) (m x : Q) :
  series_max l = Some m -> In x l -> x <= m.
Proof.
  destruct l as [|a r]; [discriminate|]. simpl. intros H Hx.
  inversion H; subst. destruct (fold_Qmax_ge r a) as [H1 H2].
  destruct Hx as [<-|Hx]; [exact H1 | apply H2; exact Hx].
Qed.

Lemma series_min_le (l : list Q) (m x : Q) :
  series_min l = Some m -> In x l -> m <= x.
Proof.
  destruct l as [|a r]; [discriminate|]. simpl. intros H Hx.
  inversion H; subst. destruct (fold_Qmin_le r a) as [H1 H2].
  destruct Hx as [<-|Hx]; [exact H1 | apply H2; exact Hx].
Qed.

(** [Qmin] and [Qmax] return one of their arguments as it is. *)
Lemma Qmin_keep (a y : Q) : a <= y -> Qmin a y = a.
Proof.
  intro H. unfold Qmin, GenericMinMax.gmin.
  destruct (Qcompare_spec a y); try reflexivity. exfalso. lra.
Qed.

Lemma Qmin_take (a y : Q) : y < a -> Qmin a y = y.
Proof.
  intro H. unfold Qmin, GenericMinMax.gmin.
  destruct (Qcompare_spec a y); try reflexivity; exfalso; lra.
Qed.

Lemma Qmax_keep (a y : Q) : y <= a -> Qmax a y = a.
Proof.
  intro H. unfold Qmax, GenericMinMax.gmax.
  destruct (Qcompare_spec a y); try reflexivity. exfalso. lra.
Qed.

Lemma Qmax_take (a y : Q) : a < y -> Qmax a y = y.
Proof.
  intro H. unfold Qmax, GenericMinMax.gmax.
  destruct (Qcompare_spec a y); try reflexivity; exfalso; lra.
Qed.

(** Two starting values that both exceed some entry of the column lead to
    the same minimum. *)
Lemma fold_Qmin_dominated (l : list Q) (a a' : Q) :
  (exists m, In m l /\ m < a /\ m < a') ->
  fold_left Qmin l a = fold_left Qmin l a'.
Proof.
  revert a a'. induction l as [|y r IH]; intros a a' (m & Hm & H1 & H2).
  - destruct Hm.
  - simpl.
    destruct (Qlt_le_dec y a) as [Hya|Hya]; destruct (Qlt_le_dec y a') as [Hya'|Hya'].
    + rewrite !Qmin_take by assumption. reflexivity.
    + destruct Hm as [->|Hm]; [exfalso; lra|].
      rewrite (Qmin_take a y), (Qmin_keep a' y) by assumption.
      apply IH. exists m. repeat split; [exact Hm | lra | lra].
    + destruct Hm as [->|Hm]; [exfalso; lra|].
      rewrite (Qmin_keep a y), (Qmin_take a' y) by assumption.
      apply IH. exists m. repeat split; [exact Hm | lra | lra].
    + destruct Hm as [->|Hm]; [exfalso; lra|].
      rewrite !Qmin_keep by assumption.
      apply IH. exists m. repeat split; assumption.
Qed.

Lemma fold_Qmax_dominated (l : list Q) (a a' : Q) :
  (exists m, In m l /\ a < m /\ a' < m) ->
  fold_left Qmax l a = fold_left Qmax l a'.
Proof.
  revert a a'. induction l as [|y r IH]; intros a a' (m & Hm & H1 & H2).
  - destruct Hm.
  - simpl.
    destruct (Qlt_le_dec a y) as [Hya|Hya]; destruct (Qlt_le_dec a' y) as [Hya'|Hya'].
    + rewrite !Qmax_take by assumption. reflexivity.
    + destruct Hm as [->|Hm]; [exfalso; lra|].
      rewrite (Qmax_take a y), (Qmax_keep a' y) by assumption.
      apply IH. exists m. repeat split; [exact Hm | lra | lra].
    + destruct Hm as [->|Hm]; [exfalso; lra|].
      rewrite (Qmax_keep a y), (Qmax_take a' y) by assumption.
      apply IH. exists m. repeat split; [exact Hm | lra | lra].
    + destruct Hm as [->|Hm]; [exfalso; lra|].
      rewrite !Qmax_keep by assumption.
      apply IH. exists m. repeat split; assumption.
Qed.

(** Removing from a column an entry that is not its least leaves the
    minimum as it is, the very same number. *)
Lemma series_min_remove (l1 l2 : list Q) (v : Q) :
  (exists m, In m (l1 ++ l2) /\ m < v) ->
  series_min (l1 ++ v :: l2) = series_min (l1 ++ l2).
Proof.
  intros (m & Hm & Hlt). destruct l1 as [|x r1]; simpl in *.
  - destruct l2 as [|y r2]; [destruct Hm|]. simpl. f_equal.
    destruct (Qlt_le_dec y v) as [Hy|Hy].
    + rewrite Qmin_take by assumption. reflexivity.
    + rewrite Qmin_keep by assumption.
      destruct Hm as [->|Hm]; [exfalso; lra|].
      apply fold_Qmin_dominated. exists m. repeat split; [exact Hm | lra | lra].
  - f_equal. rewrite !fold_left_app. simpl.
    set (acc := fold_left Qmin r1 x) in *.
    destruct (Qlt_le_dec v acc) as [Hv|Hv].
    + rewrite Qmin_take by assumption.
      apply fold_Qmin_dominated. exists m.
      assert (Hnot : ~ In m (x :: r1)).
      { intro Hin. destruct (fold_Qmin_le r1 x) as [H1 H2]. fold acc in H1, H2.
        destruct Hin as [<-|Hin]; [lra|]. specialize (H2 _ Hin). lra. }
      destruct Hm as [<-|Hm]; [exfalso; apply Hnot; left; reflexivity|].
      apply in_app_or in Hm. destruct Hm as [Hm|Hm].
      * exfalso. apply Hnot. right. exact Hm.
      * repeat split; [exact Hm | lra | lra].
    + rewrite Qmin_keep by assumption. reflexivity.
Qed.

Lemma series_max_remove (l1 l2 : list Q) (v : Q) :
  (exists m, In m (l1 ++ l2) /\ v < m) ->
  series_max (l1 ++ v :: l2) = series_max (l1 ++ l2).
Proof.
  intros (m & Hm & Hlt). destruct l1 as [|x r1]; simpl in *.
  - destruct l2 as [|y r2]; [destruct Hm|]. simpl. f_equal.
    destruct (Qlt_le_dec v y) as [Hy|Hy].
    + rewrite Qmax_take by assumption. reflexivity.
    + rewrite Qmax_keep by assumption.
      destruct Hm as [->|Hm]; [exfalso; lra|].
      apply fold_Qmax_dominated. exists m. repeat split; [exact Hm | lra | lra].
  - f_equal. rewrite !fold_left_app. simpl.
    set (acc := fold_left Qmax r1 x) in *.
    destruct (Qlt_le_dec acc v) as [Hv|Hv].
    + rewrite Qmax_take by assumption.
      apply fold_Qmax_dominated. exists m.
      assert (Hnot : ~ In m (x :: r1)).
      { intro Hin. destruct (fold_Qmax_ge r1 x) as [H1 H2]. fold acc in H1, H2.
        destruct Hin as [<-|Hin]; [lra|]. specialize (H2 _ Hin). lra. }
      destruct Hm as [<-|Hm]; [exfalso; apply Hnot; left; reflexivity|].
      apply in_app_or in Hm. destruct Hm as [Hm|Hm].
      * exfalso. apply Hnot. right. exact Hm.
      * repeat split; [exact Hm | lra | lra].
    + rewrite Qmax_keep by assumption. reflexivity.
Qed.

(** The minimum and the maximum of a column are entries of it. *)
Lemma fold_Qmin_in (r : list Q) (a : Q) :
  fold_left Qmin r a = a \/ In (fold_left Qmin r a) r.
Proof.
  revert a. induction r as [|y r IH]; intro a; simpl; [left; reflexivity|].
  destruct (IH (Qmin a y)) as [H|H]; [|right; right; exact H].
  rewrite H. unfold Qmin, GenericMinMax.gmin.
  destruct (Qcompare a y); [left | left | right; left]; reflexivity.
Qed.

Lemma fold_Qmax_in (r : list Q) (a : Q) :
  fold_left Qmax r a = a \/ In (fold_left Qmax r a) r.
Proof.
  revert a. induction r as [|y r IH]; intro a; simpl; [left; reflexivity|].
  destruct (IH (Qmax a y)) as [H|H]; [|right; right; exact H].
  rewrite H. unfold Qmax, GenericMinMax.gmax.
  destruct (Qcompare a y); [left | right; left | left]; reflexivity.
Qed.

Lemma series_min_in (l : list Q) (m : Q) : series_min l = Some m -> In m l.
Proof.
  destruct l as [|a r]; [discriminate|]. simpl. intro H. inversion H.
  destruct (fold_Qmin_in r a) as [->|Hin]; [left; reflexivity | right; exact Hin].
Qed.

Lemma series_max_in (l : list Q) (m : Q) : series_max l = Some m -> In m l.
Proof.
  destruct l as [|a r]; [discriminate|]. simpl. intro H. inversion H.
  destruct (fold_Qmax_in r a) as [->|Hin]; [left; reflexivity | right; exact Hin].
Qed.

(** ** The price dictionary *)

Lemma dict_get_comp (d : PriceDict) (k1 k2 x : Q) :
  k1 == k2 -> dict_get d k1 x = dict_get d k2 x.
Proof.
  intro H. induction d as [|[k v] r IH]; simpl; [reflexivity|].
  rewrite IH.
  replace (Qeq_bool k k1) with (Qeq_bool k k2); [reflexivity|].
  destruct (Qeq_bool k k2) eqn:E2; destruct (Qeq_bool k k1) eqn:E1; try reflexivity.
  - apply Qeq_bool_iff in E2. apply Qeq_bool_neq in E1. exfalso. apply E1.
    rewrite E2, H. reflexivity.
  - apply Qeq_bool_iff in E1. apply Qeq_bool_neq in E2. exfalso. apply E2.
    rewrite E1, H. reflexivity.
Qed.

Lemma dict_set_keys_in (d : PriceDict) (k v k' : Q) :
  In k' (map fst (dict_set d k v)) -> In k' (map fst d) \/ k' = k.
Proof.
  induction d as [|[k0 v0] r IH]; simpl.
  - intros [H|[]]. right. symmetry. exact H.
  - destruct (Qeq_bool k0 k); simpl.
    + intros [H|H]; left; [left|right]; assumption.
    + intros [H|H]; [left; left; exact H|].
      destruct (IH H) as [H'|H']; [left; right; exact H' | right; exact H'].
Qed.

Lemma dict_set_ok (d : PriceDict) (k v : Q) : dict_ok d -> dict_ok (dict_set d k v).
Proof.
  induction d as [|[k0 v0] r IH]; simpl.
  - intros _. split; [intros k' [] | exact I].
  - intros [Hk Hr]. destruct (Qeq_bool k0 k) eqn:E; simpl.
    + split; assumption.
    + split; [|apply IH; exact Hr].
      intros k' Hin. destruct (dict_set_keys_in _ _ _ _ Hin) as [H|H].
      * apply Hk. exact H.
      * subst k'. apply Qeq_bool_neq in E. intro Hc. apply E. symmetry. exact Hc.
Qed.

Lemma dict_get_nonneg (d : PriceDict) (k : Q) : dict_nonneg d -> 0 <= dict_get d k 0.
Proof.
  unfold dict_nonneg. induction 1 as [|[k0 v0] r Hv _ IH]; simpl.
  - apply Qle_refl.
  - destruct (Qeq_bool k0 k); [exact Hv | exact IH].
Qed.


(** On a dictionary with distinct keys, looking every key up gives back the
    stored volumes. *)
Lemma dict_sum_keys (d : PriceDict) :
  dict_ok d -> Qsum (map (vol_of d) (map fst d)) == Qsum (map snd d).
Proof.
  induction d as [|[k v] r IH]; simpl; [reflexivity|].
  intros [Hk Hr]. rewrite !Qsum_cons.
  unfold vol_of at 1. simpl. rewrite Qeq_bool_refl.
  rewrite <- (IH Hr).
  rewrite (Qsum_map_ext _ (vol_of ((k, v) :: r)) (vol_of r)); [reflexivity|].
  intros k' Hk'. unfold vol_of. simpl.
  destruct (Qeq_bool k k') eqn:E; [|reflexivity].
  apply Qeq_bool_iff in E. exfalso. apply (Hk k' Hk'). symmetry. exact E.
Qed.

Lemma credit_bin_ok (bins : list Q) (precision : nat) (vpb : Q) (d : PriceDict)
  (i : nat) :
  dict_ok d -> dict_ok (credit_bin bins precision vpb d i).
Proof.
  intro H. unfold credit_bin.
  destruct (i <? length bins - 1)%nat; [apply dict_set_ok|]; exact H.
Qed.


Lemma add_bar_ok (bins : list Q) (precision : nat) (d : PriceDict) (row : Candle) :
  dict_ok d -> dict_ok (add_bar bins precision d row).
Proof.
  intro H. unfold add_bar.
  destruct (_ <? _)%nat; [|exact H].
  generalize (seq (searchsorted_left bins (c_low row))
                (searchsorted_right bins (c_high row)
                 - searchsorted_left bins (c_low row))).
  intro l. revert d H. induction l as [|i l IH]; intros d H; simpl; [exact H|].
  apply IH. apply credit_bin_ok. exact H.
Qed.


Lemma build_ok (bins : list Q) (precision : nat) (df : list Candle) :
  dict_ok (build_volume_by_price bins precision df).
Proof.
  unfold build_volume_by_price.
  assert (H : dict_ok []) by exact I. revert H. generalize (@nil (Q * Q)).
  induction df as [|row r IH]; intros d H; simpl; [exact H|].
  apply IH. apply add_bar_ok. exact H.
Qed.


(** ** Position of the point of control among the sorted prices *)

Lemma index_of_split (l : list Q) (x : Q) (i : nat) :
  index_of l x = Some i ->
  exists y, y == x /\ l = (firstn i l ++ y :: skipn (S i) l)%list
            /\ length (firstn i l) = i.
Proof.
  revert i. induction l as [|a r IH]; intro i; simpl; [discriminate|].
  destruct (Qeq_bool a x) eqn:E.
  - intro H. inversion H; subst. exists a. simpl.
    split; [apply Qeq_bool_iff; exact E | split; reflexivity].
  - destruct (index_of r x) as [j|]; [|discriminate]. simpl.
    intro H. inversion H; subst.
    destruct (IH j eq_refl) as (y & Hy & Hl & Hlen).
    exists y. split; [exact Hy|]. simpl. split; [f_equal; exact Hl | f_equal; exact Hlen].
Qed.

Lemma index_of_found (l : list Q) (x : Q) :
  In x l -> exists i, index_of l x = Some i.
Proof.
  induction l as [|a r IH]; simpl; [intros []|].
  intros [->|H].
  - rewrite Qeq_bool_refl. eauto.
  - destruct (Qeq_bool a x); [eauto|].
    destruct (IH H) as [i ->]. simpl. eauto.
Qed.

(** ** The value-area loop *)

(** From any state that splits the sorted prices into left, included and
    right parts, the loop returns when the fuel exceeds the number of prices
    not yet included; it keeps every price already included, its
    accumulated volume is the volume of the included part, and it stops
    either with the target reached or, on non-negative volumes, with every
    price included. *)
Lemma expand_spec (d : PriceDict) (aps : list Q) (target : Q) :
  forall fuel L M R vap acc li ri,
  area_state d aps L M R acc li ri ->
  (length L + length R < fuel)%nat ->
  exists vap' acc' L' M' R',
    expand_value_area fuel d aps target vap acc li ri = Some (vap', acc')
    /\ incl vap vap'
    /\ aps = (L' ++ M' ++ R')%list
    /\ acc' == Qsum (map (vol_of d) M')
    /\ (target <= acc' \/ (dict_nonneg d -> L' = [] /\ R' = [])).
Proof.
  induction fuel as [|fuel IH]; intros L M R vap acc li ri Hst Hfuel; [lia|].
  destruct Hst as (Haps & Hli & Hri & Hacc).
  cbn [expand_value_area].
  destruct (Qlt_bool acc target) eqn:Ecmp.
  2:{ apply Qlt_bool_false in Ecmp.
      exists vap, acc, L, M, R. repeat split; auto. apply incl_refl. }
  set (left_volume :=
         if (0 <=? li)%Z then dict_get d (nth (Z.to_nat li) aps 0) 0 else 0).
  set (right_volume :=
         if (ri <? length aps)%nat then dict_get d (nth ri aps 0) 0 else 0).
  destruct (Qle_bool right_volume left_volume && (0 <=? li)%Z) eqn:Eleft.
  - (* extend to the left *)
    apply andb_true_iff in Eleft. destruct Eleft as [_ Hpos].
    apply Z.leb_le in Hpos.
    destruct (exists_last (l := L)) as (L0 & x & HL).
    { intro HL. subst L. simpl in Hli. lia. }
    subst L. rewrite length_app in *. simpl in *.
    assert (Hnth : nth (Z.to_nat li) aps 0 = x).
    { rewrite Haps, <- app_assoc. simpl.
      replace (Z.to_nat li) with (length L0) by lia. apply nth_middle. }
    assert (Hlv : left_volume = vol_of d x).
    { unfold left_volume. destruct (0 <=? li)%Z eqn:E; [|apply Z.leb_gt in E; lia].
      rewrite Hnth. reflexivity. }
    destruct (IH L0 (x :: M) R (vap ++ [nth (Z.to_nat li) aps 0])%list
                (acc + left_volume) (li - 1)%Z ri)
      as (vap' & acc' & L' & M' & R' & He & Hincl & Haps' & Hacc' & Hend).
    + unfold area_state. repeat split.
      * rewrite Haps, <- app_assoc. reflexivity.
      * lia.
      * simpl. lia.
      * simpl. rewrite Qsum_cons, Hlv, Hacc. ring.
    + lia.
    + exists vap', acc', L', M', R'. repeat split; auto.
      intros z Hz. apply Hincl. apply in_or_app. left. exact Hz.
  - destruct (ri <? length aps)%nat eqn:Eright.
    + (* extend to the right *)
      apply Nat.ltb_lt in Eright.
      destruct R as [|y R0].
      { rewrite Haps, !length_app in Eright. simpl in Eright. lia. }
      assert (Hnth : nth ri aps 0 = y).
      { rewrite Haps, app_assoc. rewrite Hri, <- length_app. apply nth_middle. }
      assert (Hrv : right_volume = vol_of d y).
      { unfold right_volume.
        destruct (ri <? length aps)%nat eqn:E; [|apply Nat.ltb_ge in E; lia].
        rewrite Hnth. reflexivity. }
      destruct (IH L (M ++ [y])%list R0 (vap ++ [nth ri aps 0])%list
                  (acc + right_volume) li (S ri))
        as (vap' & acc' & L' & M' & R' & He & Hincl & Haps' & Hacc' & Hend).
      * unfold area_state. repeat split.
        -- rewrite Haps, <- !app_assoc. reflexivity.
        -- exact Hli.
        -- rewrite length_app. simpl. lia.
        -- rewrite map_app, Qsum_app. simpl. rewrite Qsum_cons, Hrv, Hacc.
           unfold Qsum at 3. simpl. ring.
      * simpl in Hfuel. lia.
      * exists vap', acc', L', M', R'. repeat split; auto.
        intros z Hz. apply Hincl. apply in_or_app. left. exact Hz.
    + (* both sides exhausted *)
      apply Nat.ltb_ge in Eright.
      exists vap, acc, L, M, R. repeat split; auto; [apply incl_refl|].
      right. intro Hnn.
      assert (HR : R = []).
      { destruct R as [|y R0]; [reflexivity|].
        rewrite Haps, !length_app in Eright. simpl in Eright. lia. }
      split; [|exact HR].
      assert (Hrv : right_volume = 0).
      { unfold right_volume.
        destruct (ri <? length aps)%nat eqn:E; [apply Nat.ltb_lt in E; lia|].
        reflexivity. }
      assert (Hlv : 0 <= left_volume).
      { unfold left_volume. destruct (0 <=? li)%Z; [|apply Qle_refl].
        apply dict_get_nonneg. exact Hnn. }
      rewrite Hrv in Eleft.
      apply Qle_bool_iff in Hlv. rewrite Hlv in Eleft. simpl in Eleft.
      apply Z.leb_gt in Eleft.
      destruct L as [|a L0]; [reflexivity|].
      change (length (a :: L0)) with (S (length L0)) in Hli. lia.
Qed.

Lemma sorted_prices_perm (d : PriceDict) : Permutation d (sorted_prices_of d).
Proof. unfold sorted_prices_of, sorted_by_key_reverse. apply sorted_perm. Qed.

Lemma total_volume_sum (d : PriceDict) :
  dict_ok d ->
  Qsum (map snd (sorted_prices_of d))
  == Qsum (map (vol_of d) (sorted_by_key (fun p => p) (map fst d))).
Proof.
  intro Hok.
  rewrite <- (Qsum_perm (map snd d)).
  2:{ apply Permutation_map, sorted_prices_perm. }
  rewrite <- (dict_sum_keys d Hok).
  apply Qsum_perm. apply Permutation_map. unfold sorted_by_key. apply sorted_perm.
Qed.

(** The value area of a dictionary with distinct keys, grown around one of
    its keys: the computation returns, the area contains that key, and on
    non-negative volumes its volume is at most the total and either reaches
    70% of the total or is all of it. *)
Lemma value_area_of_spec (d : PriceDict) (poc : Q) :
  dict_ok d -> In poc (map fst d) ->
  exists vap acc,
    value_area_of d poc = Some (vap, acc)
    /\ In poc vap
    /\ (dict_nonneg d ->
        let total := Qsum (map snd (sorted_prices_of d)) in
        acc <= total /\ (total * (7 # 10) <= acc \/ acc == total)).
Proof.
  intros Hok Hin. unfold value_area_of.
  pose proof (total_volume_sum d Hok) as Htot.
  set (total := Qsum (map snd (sorted_prices_of d))) in *.
  set (aps := sorted_by_key (fun p => p) (map fst d)) in *.
  assert (Hperm : Permutation (map fst d) aps)
    by (unfold aps, sorted_by_key; apply sorted_perm).
  destruct (index_of_found aps poc) as [i Hi].
  { eapply Permutation_in; eauto. }
  rewrite Hi.
  destruct (index_of_split aps poc i Hi) as (y & Hy & Hsplit & Hlen).
  set (L := firstn i aps) in *. set (R := skipn (S i) aps) in *.
  clearbody L R.
  destruct (expand_spec d aps (total * (7 # 10)) (S (length aps)) L [y] R
              [poc] (dict_get d poc 0) (Z.of_nat i - 1)%Z (i + 1)%nat)
    as (vap' & acc' & L' & M' & R' & He & Hincl & Haps' & Hacc' & Hend).
  - unfold area_state. repeat split.
    + exact Hsplit.
    + rewrite Hlen. reflexivity.
    + rewrite Hlen. reflexivity.
    + simpl. rewrite Qsum_cons. unfold Qsum. simpl. unfold vol_of.
      rewrite (dict_get_comp d y poc 0 Hy). ring.
  - rewrite Hsplit, length_app. simpl. lia.
  - exists vap', acc'. split; [exact He|]. split.
    + apply Hincl. left. reflexivity.
    + intro Hnn. cbv zeta.
      assert (Hsum : total == Qsum (map (vol_of d) L') + acc'
                              + Qsum (map (vol_of d) R')).
      { rewrite Htot, Haps', !map_app, !Qsum_app, Hacc'. ring. }
      assert (Hpos : forall l, 0 <= Qsum (map (vol_of d) l)).
      { intro l. apply Qsum_nonneg. apply Forall_forall. intros v Hv.
        apply in_map_iff in Hv. destruct Hv as (k & <- & _).
        apply dict_get_nonneg. exact Hnn. }
      pose proof (Hpos L') as HL. pose proof (Hpos R') as HR.
      split; [lra|].
      destruct Hend as [Hend|Hend]; [left; exact Hend|].
      right. destruct (Hend Hnn) as [-> ->].
      unfold Qsum at 1 2 in Hsum. simpl in Hsum. lra.
Qed.



(** The fields of a returned profile, in terms of the intermediate values
    of the computation. *)
Lemma profile_of_dict_fields (bins : list Q) (precision : nat) (d : PriceDict)
  (p : Profile) :
  profile_of_dict bins precision d = Some p ->
  exists poc v rest vap acc vah val,
    sorted_prices_of d = (poc, v) :: rest
    /\ value_area_of d poc = Some (vap, acc)
    /\ series_max vap = Some vah /\ series_min vap = Some val
    /\ point_of_control p = round poc precision
    /\ value_area_high p = round vah precision
    /\ value_area_low p = round val precision
    /\ total_volume p = Qsum (map snd (sorted_prices_of d))
    /\ value_area_volume p = acc
    /\ value_area_percentage p
       = (if Qeq_bool (total_volume p) 0 then None
          else Some (round (acc / total_volume p * 100) 2)).
Proof.
  unfold profile_of_dict.
  destruct (sorted_prices_of d) as [|[poc v] rest] eqn:Es; [discriminate|].
  destruct (value_area_of d poc) as [[vap acc]|] eqn:Ev; [|discriminate].
  destruct (series_max vap) as [vah|] eqn:Emax; [|discriminate].
  destruct (series_min vap) as [val|] eqn:Emin; [|discriminate].
  intro H. inversion H; subst; clear H. cbn.
  exists poc, v, rest, vap, acc, vah, val. repeat split; auto.
Qed.

(** The profile is returned whenever the dictionary is not empty: the
    value-area loop never runs out of fuel. *)
Lemma profile_of_dict_returns (bins : list Q) (precision : nat) (d : PriceDict) :
  dict_ok d -> d <> [] -> exists p, profile_of_dict bins precision d = Some p.
Proof.
  intros Hok Hne. unfold profile_of_dict.
  pose proof (sorted_prices_perm d) as Hperm.
  destruct (sorted_prices_of d) as [|[poc v] rest] eqn:Es.
  { apply Permutation_sym, Permutation_nil in Hperm. contradiction. }
  assert (Hin : In poc (map fst d)).
  { apply in_map_iff. exists (poc, v). split; [reflexivity|].
    eapply Permutation_in; [apply Permutation_sym; exact Hperm | left; reflexivity]. }
  destruct (value_area_of_spec d poc Hok Hin) as (vap & acc & -> & Hpoc & _).
  destruct vap as [|a r]; [destruct Hpoc|]. cbn [series_max series_min].
  eexists. reflexivity.
Qed.

(** ** The edge search on a zero-width bar *)

Lemma searchsorted_zero_width (bins : list Q) (lo hi : Q) :
  hi == lo -> (forall e, In e bins -> ~ e == lo) ->
  searchsorted_right bins hi = searchsorted_left bins lo.
Proof.
  intros Heq Hne. induction bins as [|x r IH]; simpl; [reflexivity|].
  assert (Hx : ~ x == lo) by (apply Hne; left; reflexivity).
  assert (IH' : searchsorted_right r hi = searchsorted_left r lo).
  { apply IH. intros e He. apply Hne. right. exact He. }
  destruct (Qle_bool x hi) eqn:E1; destruct (Qlt_bool x lo) eqn:E2.
  - rewrite IH'. reflexivity.
  - apply Qle_bool_iff in E1. apply Qlt_bool_false in E2.
    exfalso. apply Hx. apply Qle_antisym; lra.
  - apply Qle_bool_false in E1. apply Qlt_bool_iff in E2. exfalso. lra.
  - reflexivity.
Qed.

Lemma add_bar_zero_width (bins : list Q) (precision : nat) (d : PriceDict)
  (bar : Candle) :
  c_high bar == c_low bar -> (forall e, In e bins -> ~ e == c_low bar) ->
  add_bar bins precision d bar = d.
Proof.
  intros Heq Hne. unfold add_bar.
  rewrite (searchsorted_zero_width bins (c_low bar) (c_high bar) Heq Hne).
  rewrite Nat.ltb_irrefl. reflexivity.
Qed.

(** The price range is among the bin edges: the first edge is the minimum
    and the last one the maximum. *)
Lemma linspace_ends (start stop : Q) (k : nat) :
  (exists e, In e (linspace start stop (S k + 1)) /\ e == start)
  /\ (exists e, In e (linspace start stop (S k + 1)) /\ e == stop).
Proof.
  unfold linspace. replace (S k + 1 - 1)%nat with (S k) by lia. split.
  - eexists. split.
    + apply in_map_iff. exists 0%nat. split; [reflexivity|].
      apply in_seq. lia.
    + simpl. ring.
  - eexists. split.
    + apply in_map_iff. exists (S k). split; [reflexivity|].
      apply in_seq. lia.
    + assert (Hpos : 0 < inject_Z (Z.of_nat (S k))).
      { change 0 with (inject_Z 0). rewrite <- Zlt_Qlt. lia. }
      field. intro H0. rewrite H0 in Hpos. apply (Qlt_irrefl 0). exact Hpos.
Qed.

(** A zero-width bar off every edge does not set the price range, so the
    frame without it has the same edges. *)
Lemma price_bins_remove (before after : list Candle) (bar : Candle)
  (num_bins : nat) (bins : list Q) :
  price_bins (before ++ bar :: after) num_bins = Some bins ->
  c_high bar == c_low bar ->
  (forall e, In e bins -> ~ e == c_low bar) ->
  price_bins (before ++ after) num_bins = Some bins.
Proof.
  unfold price_bins. rewrite !map_app. simpl.
  destruct (series_min (map c_low before ++ c_low bar :: map c_low after))
    as [mn|] eqn:Emin; [|discriminate].
  destruct (series_max (map c_high before ++ c_high bar :: map c_high after))
    as [mx|] eqn:Emax; [|discriminate].
  destruct (Qle_bool mx mn) eqn:Erange; [discriminate|].
  destruct num_bins as [|k]; [discriminate|].
  intros Hb Heq Hne. inversion Hb; subst bins; clear Hb.
  destruct (linspace_ends mn mx k) as [(e0 & He0 & Hq0) (e1 & He1 & Hq1)].
  assert (Hmn : ~ mn == c_low bar).
  { intro H. apply (Hne e0 He0). rewrite Hq0. exact H. }
  assert (Hmx : ~ mx == c_high bar).
  { intro H. apply (Hne e1 He1). rewrite Hq1, H. exact Heq. }
  assert (Hlo : mn < c_low bar).
  { assert (mn <= c_low bar).
    { eapply series_min_le; [exact Emin|]. apply in_or_app. right. left. reflexivity. }
    apply Qle_lteq in H. destruct H as [H|H]; [exact H | contradiction]. }
  assert (Hhi : c_high bar < mx).
  { assert (c_high bar <= mx).
    { eapply series_max_ge; [exact Emax|]. apply in_or_app. right. left. reflexivity. }
    apply Qle_lteq in H. destruct H as [H|H]; [exact H|].
    exfalso. apply Hmx. symmetry. exact H. }
  rewrite series_min_remove in Emin.
  2:{ exists mn. split; [|exact Hlo].
      apply series_min_in in Emin. apply in_app_or in Emin.
      apply in_or_app. destruct Emin as [H|[H|H]]; [left; exact H | | right; exact H].
      exfalso. apply Hmn. rewrite H. reflexivity. }
  rewrite series_max_remove in Emax.
  2:{ exists mx. split; [|exact Hhi].
      apply series_max_in in Emax. apply in_app_or in Emax.
      apply in_or_app. destruct Emax as [H|[H|H]]; [left; exact H | | right; exact H].
      exfalso. apply Hmx. rewrite H. reflexivity. }
  rewrite Emin, Emax, Erange. reflexivity.
Qed.

(** C1 (the code departs from the claim).  For the single bar with low 0,
    high 20 and volume 21, profiled over the default 20 bins, the profile is
    returned and the bins hold 20 in total: the bar's volume is divided by
    21 spanned indices, of which the last is not a bin, so one share is
    lost. *)
Theorem C1_volume_lost_at_top_edge :
  Qsum (map c_volume top_edge_bars) == 21
  /\ exists bins p,
       price_bins top_edge_bars 20 = Some bins
       /\ Qsum (map snd (build_volume_by_price bins 2 top_edge_bars)) == 20
       /\ calculate_volume_profile top_edge_bars 20 2 = Some p
       /\ total_volume p == 20.
Proof.
  split; [reflexivity|].
  eexists _, _. split; [reflexivity|].
  split; [vm_compute; reflexivity|].
  split; [vm_compute; reflexivity|].
  vm_compute. reflexivity.
Qed.

(** A bar lying strictly inside one bin is dropped as a whole: here the
    second bar, between the edges 10 and 11, contributes nothing, and the
    third loses a third of its volume at the top edge. *)
Lemma volume_lost_inside_bin :
  let df := [ mkCandle None 0 1 0 0 100;
              mkCandle None 0 (108 # 10) (102 # 10) 0 50;
              mkCandle None 0 20 18 0 3 ] in
  exists p, calculate_volume_profile df 20 2 = Some p /\ total_volume p == 102.
Proof. eexists. split; vm_compute; reflexivity. Qed.

(** C9.  A bar whose high equals its low, at a price that is no bin edge,
    gets an empty range of spanned bins (both edge searches return the same
    index) and leaves the dictionary as it was; so the dictionary built from
    the whole frame is that of the frame without the bar, and the whole
    result, total_volume included, is the result for the frame without the
    bar. *)
Theorem C9_zero_width_bar_dropped
  (before after : list Candle) (bar : Candle) (num_bins precision : nat)
  (bins : list Q) :
  price_bins (before ++ bar :: after) num_bins = Some bins ->
  c_high bar == c_low bar ->
  (forall e, In e bins -> ~ e == c_low bar) ->
  searchsorted_right bins (c_high bar) = searchsorted_left bins (c_low bar)
  /\ (forall d, add_bar bins precision d bar = d)
  /\ build_volume_by_price bins precision (before ++ bar :: after)
     = build_volume_by_price bins precision (before ++ after)
  /\ calculate_volume_profile (before ++ bar :: after) num_bins precision
     = calculate_volume_profile (before ++ after) num_bins precision.
Proof.
  intros Hbins Heq Hne.
  assert (Hbuild : build_volume_by_price bins precision (before ++ bar :: after)
                   = build_volume_by_price bins precision (before ++ after)).
  { unfold build_volume_by_price. rewrite !fold_left_app. simpl.
    rewrite add_bar_zero_width by assumption. reflexivity. }
  split; [apply searchsorted_zero_width; assumption|].
  split; [intro d; apply add_bar_zero_width; assumption|].
  split; [exact Hbuild|].
  unfold calculate_volume_profile.
  rewrite (price_bins_remove _ _ _ _ _ Hbins Heq Hne), Hbins, Hbuild.
  reflexivity.
Qed.

Lemma C9_zero_width_bar_dropped_witness :
  exists bins,
    price_bins (bars_before ++ zero_width_bar :: bars_after) 20 = Some bins
    /\ c_high zero_width_bar == c_low zero_width_bar
    /\ (forall e, In e bins -> ~ e == c_low zero_width_bar)
    /\ calculate_volume_profile (bars_before ++ zero_width_bar :: bars_after) 20 2
       = calculate_volume_profile (bars_before ++ bars_after) 20 2.
Proof.
  eexists.
  assert (Hbins : price_bins (bars_before ++ zero_width_bar :: bars_after) 20
                  = Some (linspace 0 20 21)) by reflexivity.
  assert (Heq : c_high zero_width_bar == c_low zero_width_bar) by reflexivity.
  assert (Hne : forall e, In e (linspace 0 20 21) -> ~ e == c_low zero_width_bar).
  { intros e He. vm_compute in He.
    repeat (destruct He as [<-|He]; [vm_compute; discriminate|]). destruct He. }
  split; [exact Hbins|]. split; [exact Heq|]. split; [exact Hne|].
  exact (proj2 (proj2 (proj2
           (C9_zero_width_bar_dropped bars_before bars_after zero_width_bar
              20 2 (linspace 0 20 21) Hbins Heq Hne)))).
Defined.


(** The bound of 100 needs the volumes to be non-negative: with a bar of
    volume -30 the value area holds 100 of a total of 80, and the
    percentage is 125. *)
Lemma negative_volume_exceeds_100 :
  exists p,
    calculate_volume_profile negative_volume_bars 20 2 = Some p
    /\ total_volume p == 80 /\ value_area_volume p == 100
    /\ opt_Qeq (value_area_percentage p) 125.
Proof. eexists. split; [vm_compute; reflexivity|]. repeat split; vm_compute; reflexivity. Qed.




End TechnicalAnalysisFacts.

(* ================================================================== *)
(** * Further properties of the fair value gap tracker *)
(* ================================================================== *)

Module FVGMore.

Import NumericFacts FVG FVGFacts FVGStatistics.

Lemma analyze_keeps_identity (fvg : FairValueGap) (h : list Candle) (price : Q) :
  gap_midpoint (_analyze_gap_interaction fvg h price) = gap_midpoint fvg
  /\ gap_type (_analyze_gap_interaction fvg h price) = gap_type fvg
  /\ timeframe (_analyze_gap_interaction fvg h price) = timeframe fvg
  /\ candle_data (_analyze_gap_interaction fvg h price) = candle_data fvg.
Proof. destruct h; simpl; auto. Qed.

(** X1.  The boundaries every detected gap satisfies: the size is the positive
    distance between its bounds, the midpoint lies strictly between them,
    the gap carries the timeframe it was asked for, and, the midpoint not
    being zero, the size is at least the configured percentage of it. *)
Theorem detected_gap_geometry
  (self : FVGCalculator) (df : list Candle) (tf : string) (price : Q)
  (lookback : nat) (now : Z) (g : FairValueGap) :
  In g (detect_fvgs self df tf price lookback now) ->
  gap_size g == gap_high g - gap_low g
  /\ 0 < gap_size g
  /\ gap_midpoint g == (gap_high g + gap_low g) / 2
  /\ gap_low g < gap_midpoint g /\ gap_midpoint g < gap_high g
  /\ timeframe g = tf
  /\ (~ gap_midpoint g == 0 ->
      min_gap_percentage self <= gap_size g / gap_midpoint g * 100).
Proof.
  intro Hin.
  destruct (detect_fvgs_inv _ _ _ _ _ _ _ Hin)
    as (dfa & i & c1 & c2 & c3 & kind & lo & hi & Hp & Hs & _ & ->).
  apply find_pattern_lt in Hp.
  set (fvg := new_gap dfa tf now i c1 c2 c3 kind lo hi).
  destruct (analyze_keeps_bounds fvg (skipn (i + 1) dfa) price) as (-> & -> & ->).
  destruct (analyze_keeps_identity fvg (skipn (i + 1) dfa) price) as (-> & _ & -> & _).
  simpl.
  assert (Hmid : lo < (hi + lo) / 2 /\ (hi + lo) / 2 < hi).
  { split.
    - apply Qlt_shift_div_l; lra.
    - apply Qlt_shift_div_r; lra. }
  repeat split; try reflexivity; try lra.
  intro Hne. unfold too_small in Hs.
  destruct (Qeq_bool ((hi + lo) / 2) 0) eqn:E0.
  - apply Qeq_bool_iff in E0. contradiction.
  - apply Qlt_bool_false in Hs. exact Hs.
Qed.

Lemma detected_gap_geometry_witness :
  exists g,
    In g (detect_fvgs default_calculator fresh_gap_bars "5m" 101 100 0)
    /\ 0 < gap_size g /\ timeframe g = "5m"%string.
Proof.
  assert (H : exists g, In g (detect_fvgs default_calculator fresh_gap_bars "5m" 101 100 0)).
  { eexists. vm_compute. left. reflexivity. }
  destruct H as [g Hg]. exists g. split; [exact Hg|].
  pose proof (detected_gap_geometry _ _ _ _ _ _ _ Hg) as H.
  split; [exact (proj1 (proj2 H)) | exact (proj1 (proj2 (proj2 (proj2 (proj2 (proj2 H))))))].
Defined.

(** X2.  The stored candle snapshot agrees with the gap: a bullish gap runs from
    the oldest candle's high up to the newest candle's low, a bearish gap
    from the newest candle's high up to the oldest candle's low, and in both
    cases the lower bound is strictly below the upper one. *)
Theorem detected_gap_matches_candles
  (self : FVGCalculator) (df : list Candle) (tf : string) (price : Q)
  (lookback : nat) (now : Z) (g : FairValueGap) :
  In g (detect_fvgs self df tf price lookback now) ->
  match gap_type g with
  | bullish =>
    gap_low g = s_high (candle_1 (candle_data g))
    /\ gap_high g = s_low (candle_3 (candle_data g))
  | bearish =>
    gap_low g = s_high (candle_3 (candle_data g))
    /\ gap_high g = s_low (candle_1 (candle_data g))
  end
  /\ gap_low g < gap_high g.
Proof.
  intro Hin.
  destruct (detect_fvgs_inv _ _ _ _ _ _ _ Hin)
    as (dfa & i & c1 & c2 & c3 & kind & lo & hi & Hp & _ & _ & ->).
  pose proof (find_pattern_lt _ _ _ _ _ Hp) as Hlt.
  set (fvg := new_gap dfa tf now i c1 c2 c3 kind lo hi).
  destruct (analyze_keeps_bounds fvg (skipn (i + 1) dfa) price) as (-> & -> & _).
  destruct (analyze_keeps_identity fvg (skipn (i + 1) dfa) price) as (_ & -> & _ & ->).
  simpl. split; [|exact Hlt].
  unfold find_pattern in Hp.
  destruct (Qlt_bool (c_high c1) (c_low c3)).
  - inversion Hp; subst. split; reflexivity.
  - destruct (Qlt_bool (c_high c3) (c_low c1)); [|discriminate].
    inversion Hp; subst. split; reflexivity.
Qed.

Lemma detected_gap_matches_candles_witness :
  exists g,
    In g (detect_fvgs default_calculator fresh_gap_bars "5m" 101 100 0)
    /\ gap_low g < gap_high g.
Proof.
  assert (H : exists g, In g (detect_fvgs default_calculator fresh_gap_bars "5m" 101 100 0)).
  { eexists. vm_compute. left. reflexivity. }
  destruct H as [g Hg]. exists g. split; [exact Hg|].
  exact (proj2 (detected_gap_matches_candles _ _ _ _ _ _ _ Hg)).
Defined.

Lemma flat_map_opt_length {A B : Type} (f : A -> option B) (l : list A) :
  (length (flat_map (fun a => opt_list (f a)) l) <= length l)%nat.
Proof.
  induction l as [|a r IH]; simpl; [lia|].
  rewrite length_app. destruct (f a); simpl; lia.
Qed.

(** X3.  A frame gives at most one gap per three-bar window of the rows that are
    analysed: no gap from fewer than three rows, and never more than the
    number of analysed rows less two. *)
Theorem detected_gap_count
  (self : FVGCalculator) (df : list Candle) (tf : string) (price : Q)
  (lookback : nat) (now : Z) :
  (length (detect_fvgs self df tf price lookback now)
   <= Nat.min lookback (length df) - 2)%nat.
Proof.
  unfold detect_fvgs. destruct (length df <? 3)%nat; [simpl; lia|].
  eapply Nat.le_trans; [apply flat_map_opt_length|].
  rewrite length_rev, length_seq. unfold tail. rewrite length_skipn. lia.
Qed.

(** X4.  The inside flag is set only when later bars exist.  For the gap found
    at index [i] of the analysed rows: if a row follows the window, the flag
    says exactly whether the price lies in the gap's closed range; if none
    follows (the newest window), the flag stays false whatever the price is,
    and the gap is untested and unfilled. *)
Theorem inside_flag_needs_later_bars
  (self : FVGCalculator) (dfa : list Candle) (tf : string) (price : Q)
  (now : Z) (i : nat) (g : FairValueGap) :
  detect_at self dfa tf price now i = Some g ->
  ((S i < length dfa)%nat ->
     (currently_inside_gap g = true <-> gap_low g <= price /\ price <= gap_high g))
  /\ ((length dfa <= S i)%nat ->
      currently_inside_gap g = false /\ times_tested g = 0%nat
      /\ lowest_test g = None /\ highest_test g = None
      /\ filled_percentage g == 0).
Proof.
  unfold detect_at.
  destruct (nth_error dfa i) as [c3|]; [|discriminate].
  destruct (nth_error dfa (i - 1)) as [c2|]; [|discriminate].
  destruct (nth_error dfa (i - 2)) as [c1|]; [|discriminate].
  destruct (find_pattern c1 c3) as [[[kind lo] hi]|]; [|discriminate].
  destruct (too_small self (hi - lo) ((hi + lo) / 2)); [discriminate|].
  intro H. inversion H; subst g; clear H.
  set (fvg := new_gap dfa tf now i c1 c2 c3 kind lo hi).
  split; intro Hlen.
  - destruct (skipn (i + 1) dfa) as [|b r] eqn:Eh.
    + apply (f_equal (@length Candle)) in Eh. rewrite length_skipn in Eh.
      simpl in Eh. lia.
    + unfold _analyze_gap_interaction.
      cbn [currently_inside_gap gap_low gap_high].
      rewrite andb_true_iff, !Qle_bool_iff. reflexivity.
  - rewrite skipn_all2 by lia. simpl. repeat split; reflexivity.
Qed.

Lemma inside_flag_needs_later_bars_witness :
  exists g,
    detect_at default_calculator fresh_gap_bars "5m" 101 0 3 = Some g
    /\ gap_low g <= 101 /\ 101 <= gap_high g
    /\ currently_inside_gap g = false.
Proof.
  assert (H : exists g, detect_at default_calculator fresh_gap_bars "5m" 101 0 3 = Some g).
  { eexists. vm_compute. reflexivity. }
  destruct H as [g Hg]. exists g. split; [exact Hg|].
  pose proof (proj2 (inside_flag_needs_later_bars _ _ _ _ _ _ _ Hg)) as Hlast.
  assert (Hin : gap_low g <= 101 /\ 101 <= gap_high g).
  { vm_compute in Hg. inversion Hg; subst g. split; vm_compute; discriminate. }
  split; [exact (proj1 Hin)|]. split; [exact (proj2 Hin)|].
  apply Hlast. simpl. lia.
Defined.

Lemma scan_step_full (fvg : FairValueGap) (st : Scan) (c : Candle) :
  gap_low fvg <= gap_high fvg ->
  scan_full fvg st -> scan_full fvg (scan_step fvg st c).
Proof.
  intros Hgap (Ht & Hlo & Hhi). unfold scan_step.
  destruct (touches fvg c); [|repeat split; assumption].
  pose proof (Q.le_max_r (c_low c) (gap_low fvg)) as H1.
  pose proof (Q.le_min_r (c_high c) (gap_high fvg)) as H2.
  set (tl := Qmax (c_low c) (gap_low fvg)) in *.
  set (th := Qmin (c_high c) (gap_high fvg)) in *. clearbody tl th.
  destruct st as [n lo hi]; cbn [tests lowest highest] in *.
  destruct lo as [lo|]; [|contradiction]. destruct hi as [hi|]; [|contradiction].
  unfold scan_full. cbn [opt_Qeq tests lowest highest] in *.
  split; [lia|]. split.
  - destruct (Qlt_bool tl lo) eqn:E; cbn [opt_Qeq]; [|exact Hlo].
    apply Qlt_bool_iff in E. lra.
  - destruct (Qlt_bool hi th) eqn:E; cbn [opt_Qeq]; [|exact Hhi].
    apply Qlt_bool_iff in E. lra.
Qed.

Lemma scan_step_cover (fvg : FairValueGap) (st : Scan) (c : Candle) :
  gap_low fvg <= gap_high fvg -> scan_ok fvg st -> covers fvg c ->
  scan_full fvg (scan_step fvg st c).
Proof.
  intros Hgap Hok [Hc1 Hc2]. unfold scan_step.
  assert (Ht : touches fvg c = true).
  { unfold touches. apply andb_true_iff. split; apply Qle_bool_iff; lra. }
  rewrite Ht.
  assert (H1 : Qmax (c_low c) (gap_low fvg) == gap_low fvg)
    by (apply Q.max_r; exact Hc1).
  assert (H2 : Qmin (c_high c) (gap_high fvg) == gap_high fvg)
    by (apply Q.min_r; exact Hc2).
  set (tl := Qmax (c_low c) (gap_low fvg)) in *.
  set (th := Qmin (c_high c) (gap_high fvg)) in *. clearbody tl th.
  unfold scan_ok in Hok. unfold scan_full.
  destruct st as [n lo hi]; cbn [tests lowest highest] in *.
  destruct n, lo as [lo|], hi as [hi|]; try contradiction;
    (split; [lia|]); cbn [opt_Qeq].
  - split; assumption.
  - destruct Hok as (Ha & Hb & Hc). split.
    + destruct (Qlt_bool tl lo) eqn:E; cbn [opt_Qeq]; [exact H1|].
      apply Qlt_bool_false in E. lra.
    + destruct (Qlt_bool hi th) eqn:E; cbn [opt_Qeq]; [exact H2|].
      apply Qlt_bool_false in E. lra.
Qed.

Lemma scan_fold_full (fvg : FairValueGap) (h : list Candle) (st : Scan) :
  gap_low fvg <= gap_high fvg ->
  scan_full fvg st -> scan_full fvg (fold_left (scan_step fvg) h st).
Proof.
  intro Hgap. revert st. induction h as [|c r IH]; intros st Hf; simpl.
  - exact Hf.
  - apply IH. apply scan_step_full; assumption.
Qed.

(** X5.  A later bar whose range contains the whole gap fills it: over
    well-formed bars, if some bar after the gap has low <= gap_low and
    high >= gap_high, the filled percentage is 100. *)
Theorem covering_bar_fills_gap
  (dfa : list Candle) (tf : string) (now : Z) (i : nat)
  (c1 c2 c3 : Candle) (kind : GapType) (lo hi : Q)
  (history : list Candle) (price : Q) :
  find_pattern c1 c3 = Some (kind, lo, hi) ->
  Forall well_formed history ->
  let fvg := new_gap dfa tf now i c1 c2 c3 kind lo hi in
  Exists (covers fvg) history ->
  filled_percentage (_analyze_gap_interaction fvg history price) == 100.
Proof.
  intros Hp Hwf fvg Hex.
  apply find_pattern_lt in Hp.
  assert (Hgap : gap_low fvg <= gap_high fvg) by (simpl; lra).
  apply Exists_exists in Hex. destruct Hex as (c & Hc & Hcov).
  apply in_split in Hc. destruct Hc as (h1 & h2 & ->).
  apply Forall_app in Hwf. destruct Hwf as [Hwf1 Hwf2].
  destruct (scan_fold_ok fvg h1 Hgap Hwf1 _ (scan_init_ok fvg)) as [Hok1 _].
  assert (Hfull : scan_full fvg (scan fvg (h1 ++ c :: h2))).
  { unfold scan. rewrite fold_left_app. simpl.
    apply scan_fold_full; [exact Hgap|].
    apply scan_step_cover; assumption. }
  assert (Hok : scan_ok fvg (scan fvg (h1 ++ c :: h2))).
  { apply scan_fold_ok; [exact Hgap | | apply scan_init_ok].
    apply Forall_app. split; assumption. }
  rewrite (analyze_fill fvg _ price (Qeq_refl 0) Hok).
  unfold fill_value, span. destruct Hfull as (_ & Hlo & Hhi).
  destruct (lowest (scan fvg (h1 ++ c :: h2))) as [slo|]; [|contradiction].
  destruct (highest (scan fvg (h1 ++ c :: h2))) as [shi|]; [|contradiction].
  simpl in *.
  assert (Hq : (shi - slo) / (hi - lo) * 100 == 100).
  { rewrite Hlo, Hhi. field. lra. }
  rewrite Q.min_l; [exact Hq|]. rewrite Hq. apply Qle_refl.
Qed.

Lemma covering_bar_fills_gap_witness :
  let c1 := mkCandle None 99 100 98 (199 # 2) 1000 in
  let c2 := mkCandle None 100 101 99 (201 # 2) 500 in
  let c3 := mkCandle None 103 104 102 103 1000 in
  let b4 := mkCandle None 103 103 99 100 1200 in
  let fvg := new_gap covered_gap_bars "1m" 0 2 c1 c2 c3 bullish 100 102 in
  find_pattern c1 c3 = Some (bullish, 100, 102)
  /\ Forall well_formed [b4]
  /\ Exists (covers fvg) [b4]
  /\ filled_percentage (_analyze_gap_interaction fvg [b4] 101) == 100.
Proof.
  intros c1 c2 c3 b4 fvg.
  assert (Hp : find_pattern c1 c3 = Some (bullish, 100, 102)) by reflexivity.
  assert (Hwf : Forall well_formed [b4]).
  { repeat constructor; unfold well_formed; simpl; lra. }
  assert (Hex : Exists (covers fvg) [b4]).
  { constructor. unfold covers. simpl. split; lra. }
  split; [exact Hp|]. split; [exact Hwf|]. split; [exact Hex|].
  exact (covering_bar_fills_gap covered_gap_bars "1m" 0 2 c1 c2 c3 bullish
           100 102 [b4] 101 Hp Hwf Hex).
Defined.

Lemma count_partition (gaps : list FairValueGap) :
  (count_gaps is_filled gaps + count_gaps is_partial gaps
   + count_gaps is_unfilled gaps = length gaps)%nat.
Proof.
  unfold count_gaps. induction gaps as [|g r IH]; simpl; [reflexivity|].
  unfold is_filled at 1, is_partial at 1, is_unfilled at 1.
  destruct (Qle_bool 95 (filled_percentage g)) eqn:E1;
    destruct (Qlt_bool 5 (filled_percentage g)) eqn:E2;
    destruct (Qlt_bool (filled_percentage g) 95) eqn:E3;
    destruct (Qle_bool (filled_percentage g) 5) eqn:E4;
    try apply Qle_bool_iff in E1; try apply Qle_bool_false in E1;
    try apply Qlt_bool_iff in E2; try apply Qlt_bool_false in E2;
    try apply Qlt_bool_iff in E3; try apply Qlt_bool_false in E3;
    try apply Qle_bool_iff in E4; try apply Qle_bool_false in E4;
    simpl; try lia; exfalso; lra.
Qed.

(** X6.  The three fill buckets partition the gaps: every gap is counted in
    exactly one of filled (>= 95), partial (between 5 and 95) and unfilled
    (<= 5), so the three counts add up to the number of gaps. *)
Theorem gap_statistics_partition (gaps : list FairValueGap) (tf : string) :
  let s := calculate_gap_statistics gaps tf in
  total_gaps s = length gaps
  /\ (filled_completely s + filled_partially s + unfilled s = total_gaps s)%nat.
Proof.
  destruct gaps as [|g r]; [simpl; auto|].
  cbn [calculate_gap_statistics total_gaps filled_completely filled_partially unfilled].
  cbv zeta. cbn [total_gaps filled_completely filled_partially unfilled].
  split; [reflexivity|]. apply count_partition.
Qed.

End FVGMore.

(* ================================================================== *)
(** * Further properties of the opening-range analysis *)
(* ================================================================== *)

Module ORBMore.

Import NumericFacts TechnicalAnalysisFacts ORB ORBFacts ORBTool.

(** What an analysed period was computed from. *)
Lemma orb_period_inv (df_rth : list Row) (open : Z) (price avg : Q) (period : Z)
  (a : Analysis) :
  orb_period df_rth open price avg period = Some (analysis a) ->
  exists high low,
    series_max (map (fun r => c_high (snd r)) (window_rows df_rth open period))
    = Some high
    /\ series_min (map (fun r => c_low (snd r)) (window_rows df_rth open period))
       = Some low
    /\ (period <= Z.of_nat (length (window_rows df_rth open period)))%Z
    /\ orb_high a = round high 2 /\ orb_low a = round low 2
    /\ orb_range a = round (high - low) 2
    /\ position a = fst (classify price high low)
    /\ (breakout_confirmed a, breakout_type a)
       = check_breakout
           (filter (fun r => (open + 60 * period <? fst r)%Z) df_rth)
           high low (position a)
    /\ targets_hit a = hit_targets price (extension_targets high low (high - low)).
Proof.
  unfold orb_period. cbv zeta. fold (window_rows df_rth open period).
  destruct (_ <? period)%Z eqn:El; [discriminate|].
  apply Z.ltb_ge in El.
  destruct (series_max _) as [high|]; [|discriminate].
  destruct (series_min _) as [low|]; [|discriminate].
  destruct (classify price high low) as [pos dist] eqn:Ec.
  destruct (check_breakout _ high low pos) as [confirmed kind] eqn:Eb.
  intro H. inversion H; subst a; clear H. cbn.
  exists high, low. repeat split; auto. rewrite Ec. reflexivity.
Qed.

Lemma classify_position (price high low : Q) :
  (fst (classify price high low) = above_range <-> high < price)
  /\ (fst (classify price high low) = below_range <-> price <= high /\ price < low)
  /\ (fst (classify price high low) = inside_range <-> low <= price /\ price <= high).
Proof.
  unfold classify.
  destruct (Qlt_bool high price) eqn:E1.
  - apply Qlt_bool_iff in E1. cbn. repeat split; try discriminate; try tauto;
      intros; exfalso; lra.
  - apply Qlt_bool_false in E1. destruct (Qlt_bool price low) eqn:E2.
    + apply Qlt_bool_iff in E2. cbn. repeat split; try discriminate; try tauto;
        intros; exfalso; lra.
    + apply Qlt_bool_false in E2. cbn. repeat split; try discriminate; try tauto;
        intros; exfalso; lra.
Qed.

Lemma series_nonempty_in (l : list Q) (m : Q) :
  series_max l = Some m -> exists x, In x l.
Proof. destruct l as [|x r]; [discriminate|]. intros _. exists x. left. reflexivity. Qed.

Lemma window_low_le_high (df_rth : list Row) (open period : Z) (high low : Q) :
  Forall row_ok df_rth ->
  series_max (map (fun r => c_high (snd r)) (window_rows df_rth open period))
  = Some high ->
  series_min (map (fun r => c_low (snd r)) (window_rows df_rth open period))
  = Some low ->
  low <= high.
Proof.
  intros Hok Hmax Hmin.
  destruct (window_rows df_rth open period) as [|r w] eqn:Ew; [discriminate|].
  assert (Hr : In r df_rth).
  { assert (In r (window_rows df_rth open period)) by (rewrite Ew; left; reflexivity).
    unfold window_rows in H. apply filter_In in H. tauto. }
  rewrite Forall_forall in Hok. specialize (Hok r Hr). unfold row_ok in Hok.
  assert (H1 : low <= c_low (snd r)).
  { eapply series_min_le; [exact Hmin | left; reflexivity]. }
  assert (H2 : c_high (snd r) <= high).
  { eapply series_max_ge; [exact Hmax | left; reflexivity]. }
  lra.
Qed.

(** X8.  Over well-formed rows the reported range is a range: the opening-range
    low does not exceed the high, and the width is not negative. *)
Theorem opening_range_ordered
  (df_rth : list Row) (open : Z) (price avg : Q) (period : Z) (a : Analysis) :
  Forall row_ok df_rth ->
  orb_period df_rth open price avg period = Some (analysis a) ->
  orb_low a <= orb_high a /\ 0 <= orb_range a.
Proof.
  intros Hok Ha.
  destruct (orb_period_inv _ _ _ _ _ _ Ha)
    as (high & low & Hmax & Hmin & _ & -> & -> & -> & _).
  pose proof (window_low_le_high _ _ _ _ _ Hok Hmax Hmin) as Hlh.
  split.
  - apply round_mono. exact Hlh.
  - apply (round_ge_int 0). change (inject_Z 0) with 0. lra.
Qed.

Lemma flat_session_ok : Forall row_ok flat_session.
Proof.
  apply Forall_forall. intros r Hr. unfold flat_session in Hr.
  apply in_map_iff in Hr. destruct Hr as (i & <- & _).
  unfold row_ok. simpl. lra.
Qed.

Lemma opening_range_ordered_witness :
  Forall row_ok flat_session
  /\ exists a,
       orb_period flat_session 0 (1005 # 10) 1000 5 = Some (analysis a)
       /\ orb_low a <= orb_high a /\ 0 <= orb_range a.
Proof.
  split; [exact flat_session_ok|].
  assert (H : exists a, orb_period flat_session 0 (1005 # 10) 1000 5
                        = Some (analysis a)).
  { eexists. vm_compute. reflexivity. }
  destruct H as [a Ha]. exists a. split; [exact Ha|].
  exact (opening_range_ordered flat_session 0 (1005 # 10) 1000 5 a
           flat_session_ok Ha).
Defined.

Lemma check_breakout_cases (post : list Row) (high low : Q) (pos : Position)
  (bc : bool) (bt : option BreakoutType) :
  (bc, bt) = check_breakout post high low pos ->
  (bc = true ->
     (bt = Some bullish /\ pos = above_range)
     \/ (bt = Some bearish /\ pos = below_range))
  /\ (bc = false -> bt = None)
  /\ (pos = inside_range -> bc = false).
Proof.
  unfold check_breakout.
  destruct post as [|r0 post0].
  { intro H. inversion H; subst.
    repeat split; intros; try discriminate; auto. }
  destruct (existsb _ _).
  - destruct (3 <=? _)%nat; destruct pos; cbn; intro H; inversion H; subst;
      repeat split; intros; try discriminate; auto.
  - destruct (existsb _ _).
    + destruct (3 <=? _)%nat; destruct pos; cbn; intro H; inversion H; subst;
        repeat split; intros; try discriminate; auto.
    + intro H. inversion H; subst.
      repeat split; intros; try discriminate; auto.
Qed.

(** X9.  A confirmed breakout agrees with the position: it is bullish with the
    price above the range or bearish with the price below it; without
    confirmation no kind is reported; and with the price inside the range
    nothing is confirmed. *)
Theorem breakout_matches_position
  (df_rth : list Row) (open : Z) (price avg : Q) (period : Z) (a : Analysis) :
  orb_period df_rth open price avg period = Some (analysis a) ->
  (breakout_confirmed a = true ->
     (breakout_type a = Some bullish /\ position a = above_range)
     \/ (breakout_type a = Some bearish /\ position a = below_range))
  /\ (breakout_confirmed a = false -> breakout_type a = None)
  /\ (position a = inside_range -> breakout_confirmed a = false).
Proof.
  intro Ha.
  destruct (orb_period_inv _ _ _ _ _ _ Ha)
    as (high & low & _ & _ & _ & _ & _ & _ & _ & Hb & _).
  exact (check_breakout_cases _ _ _ _ _ _ Hb).
Qed.

Lemma breakout_matches_position_witness :
  exists a,
    orb_period whipsaw_session 0 (995 # 10) 1000 5 = Some (analysis a)
    /\ (breakout_confirmed a = false -> breakout_type a = None).
Proof.
  assert (H : exists a, orb_period whipsaw_session 0 (995 # 10) 1000 5
                        = Some (analysis a)).
  { eexists. vm_compute. reflexivity. }
  destruct H as [a Ha]. exists a. split; [exact Ha|].
  exact (proj1 (proj2 (breakout_matches_position _ _ _ _ _ _ Ha))).
Defined.

Lemma extension_targets_levels (high low : Q) :
  extension_targets high low (high - low)
  = map (fun t => (t, target_level high low t))
      [bull_0_5x; bull_1x; bull_1_5x; bull_2x; bear_0_5x; bear_1x; bear_1_5x; bear_2x].
Proof. reflexivity. Qed.

Lemma target_level_multiple (high low : Q) (t : Target) :
  target_level high low t
  == if is_bull t then high + (high - low) * target_multiple t
     else low - (high - low) * target_multiple t.
Proof. destruct t; simpl; ring. Qed.

Lemma hit_targets_iff (price high low : Q) (t : Target) :
  In t (hit_targets price (extension_targets high low (high - low)))
  <-> (if is_bull t then target_level high low t <= price
       else price <= target_level high low t).
Proof.
  rewrite extension_targets_levels. unfold hit_targets.
  rewrite in_map_iff. split.
  - intros ([t' lv] & Ht & Hin). simpl in Ht. subst t'.
    apply filter_In in Hin. destruct Hin as [Hin Hp].
    apply in_map_iff in Hin. destruct Hin as (t' & Heq & _).
    inversion Heq; subst. simpl in Hp.
    destruct (is_bull t); apply Qle_bool_iff; exact Hp.
  - intro H. exists (t, target_level high low t). split; [reflexivity|].
    apply filter_In. split.
    + apply in_map_iff. exists t. split; [reflexivity|]. destruct t; simpl; tauto.
    + simpl. destruct (is_bull t); apply Qle_bool_iff; exact H.
Qed.

(** X10.  The hit list is exact and nested.  A target is listed exactly when the
    price has reached its unrounded level on its side; and over well-formed
    rows, a target that is hit brings with it every target of the same side
    at a smaller multiple of the range. *)
Theorem targets_hit_reached
  (df_rth : list Row) (open : Z) (price avg : Q) (period : Z) (a : Analysis) :
  Forall row_ok df_rth ->
  orb_period df_rth open price avg period = Some (analysis a) ->
  exists high low,
    orb_high a = round high 2 /\ orb_low a = round low 2
    /\ (forall t, In t (targets_hit a)
                  <-> (if is_bull t then target_level high low t <= price
                       else price <= target_level high low t))
    /\ (forall t t', In t (targets_hit a) -> is_bull t' = is_bull t ->
                     target_multiple t' <= target_multiple t ->
                     In t' (targets_hit a)).
Proof.
  intros Hok Ha.
  destruct (orb_period_inv _ _ _ _ _ _ Ha)
    as (high & low & Hmax & Hmin & _ & Eh & El & Er & _ & _ & Ht).
  pose proof (window_low_le_high _ _ _ _ _ Hok Hmax Hmin) as Hrange.
  exists high, low. split; [exact Eh|]. split; [exact El|].
  rewrite Ht. split.
  - intro t. apply hit_targets_iff.
  - intros t t' Hin Hside Hmul.
    apply hit_targets_iff in Hin. apply hit_targets_iff.
    destruct t, t'; simpl in *; try discriminate; lra.
Qed.

Lemma targets_hit_reached_witness :
  Forall row_ok flat_session
  /\ exists a,
       orb_period flat_session 0 (1019 # 10) 1000 5 = Some (analysis a)
       /\ (In bull_1x (targets_hit a) -> In bull_0_5x (targets_hit a)).
Proof.
  split; [exact flat_session_ok|].
  assert (H : exists a, orb_period flat_session 0 (1019 # 10) 1000 5
                        = Some (analysis a)).
  { eexists. vm_compute. reflexivity. }
  destruct H as [a Ha]. exists a. split; [exact Ha|].
  destruct (targets_hit_reached flat_session 0 (1019 # 10) 1000 5 a
              flat_session_ok Ha) as (high & low & _ & _ & _ & Hnest).
  intro Hin. apply (Hnest bull_1x bull_0_5x Hin); [reflexivity|].
  simpl. lra.
Defined.

Lemma inside_no_breakout
  (df_rth : list Row) (open : Z) (price avg : Q) (period : Z) (a : Analysis) :
  orb_period df_rth open price avg period = Some (analysis a) ->
  position a = inside_range ->
  breakout_confirmed a = false /\ breakout_type a = None.
Proof.
  intros Ha Hpos.
  destruct (orb_period_inv _ _ _ _ _ _ Ha)
    as (high & low & _ & _ & _ & _ & _ & _ & _ & Hb & _).
  destruct (check_breakout_cases _ _ _ _ _ _ Hb) as (_ & Hnone & Hin).
  split; [apply Hin; exact Hpos | apply Hnone, Hin; exact Hpos].
Qed.

Lemma inside_no_target
  (df_rth : list Row) (open : Z) (price avg : Q) (period : Z) (a : Analysis) :
  orb_period df_rth open price avg period = Some (analysis a) ->
  position a = inside_range -> 0 < orb_range a ->
  targets_hit a = [].
Proof.
  intros Ha Hpos Hr.
  destruct (orb_period_inv _ _ _ _ _ _ Ha)
    as (high & low & _ & _ & _ & _ & _ & Er & Ep & _ & Ht).
  rewrite Ep in Hpos. apply (proj2 (proj2 (classify_position price high low))) in Hpos.
  assert (Hrange : 0 < high - low).
  { apply Qnot_le_lt. intro Hle. rewrite Er in Hr.
    assert (round (high - low) 2 <= 0).
    { apply (round_le_int 0). exact Hle. }
    lra. }
  destruct (targets_hit a) as [|t ts] eqn:E; [reflexivity|].
  assert (Hin' : In t (hit_targets price (extension_targets high low (high - low))))
    by (rewrite <- Ht; left; reflexivity).
  apply hit_targets_iff in Hin'.
  exfalso. destruct t; simpl in Hin'; lra.
Qed.

(** X11.  With the price inside an opening range of positive width, nothing is
    reported: no breakout and no target hit. *)
Theorem inside_range_is_quiet
  (df_rth : list Row) (open : Z) (price avg : Q) (period : Z) (a : Analysis) :
  orb_period df_rth open price avg period = Some (analysis a) ->
  position a = inside_range -> 0 < orb_range a ->
  breakout_confirmed a = false /\ breakout_type a = None /\ targets_hit a = [].
Proof.
  intros Ha Hpos Hr.
  destruct (inside_no_breakout _ _ _ _ _ _ Ha Hpos) as [Hb Ht].
  split; [exact Hb|]. split; [exact Ht|].
  exact (inside_no_target _ _ _ _ _ _ Ha Hpos Hr).
Qed.

Lemma inside_range_is_quiet_witness :
  exists a,
    orb_period flat_session 0 (1005 # 10) 1000 5 = Some (analysis a)
    /\ position a = inside_range /\ 0 < orb_range a
    /\ targets_hit a = [].
Proof.
  assert (H : exists a, orb_period flat_session 0 (1005 # 10) 1000 5
                        = Some (analysis a)).
  { eexists. vm_compute. reflexivity. }
  destruct H as [a Ha]. exists a. split; [exact Ha|].
  assert (Hp : position a = inside_range).
  { vm_compute in Ha. inversion Ha; subst a. reflexivity. }
  assert (Hr : 0 < orb_range a).
  { vm_compute in Ha. inversion Ha; subst a. reflexivity. }
  split; [exact Hp|]. split; [exact Hr|].
  exact (proj2 (proj2 (inside_range_is_quiet _ _ _ _ _ _ Ha Hp Hr))).
Defined.

Lemma orb_period_some
  (df_rth : list Row) (open : Z) (price avg : Q) (period : Z) :
  (0 < period)%Z -> exists e, orb_period df_rth open price avg period = Some e.
Proof.
  intro Hpos. unfold orb_period. cbv zeta.
  fold (window_rows df_rth open period).
  destruct (_ <? period)%Z eqn:El; [eexists; reflexivity|].
  apply Z.ltb_ge in El.
  destruct (window_rows df_rth open period) as [|r w]; [simpl in El; lia|].
  cbn [map series_max series_min].
  destruct (classify price _ _) as [pos dist].
  destruct (check_breakout _ _ _ pos) as [confirmed kind].
  eexists. reflexivity.
Qed.

(** X12.  The loop body never raises for a positive period: it reports
    insufficient data when the opening window has fewer rows than the
    period has minutes, and an analysis otherwise. *)
Theorem orb_period_returns
  (df_rth : list Row) (open : Z) (price avg : Q) (period : Z) :
  (0 < period)%Z ->
  let n := length (window_rows df_rth open period) in
  ((Z.of_nat n < period)%Z
   /\ orb_period df_rth open price avg period = Some (insufficient_data period n))
  \/ ((period <= Z.of_nat n)%Z
      /\ exists a, orb_period df_rth open price avg period = Some (analysis a)).
Proof.
  intros Hpos n. unfold orb_period. cbv zeta.
  fold (window_rows df_rth open period). fold n.
  destruct (_ <? period)%Z eqn:El.
  - left. apply Z.ltb_lt in El. split; [exact El | reflexivity].
  - right. apply Z.ltb_ge in El. split; [exact El|].
    destruct (window_rows df_rth open period) as [|r w] eqn:Ew.
    { unfold n in El. simpl in El. lia. }
    cbn [map series_max series_min].
    destruct (classify price _ _) as [pos dist].
    destruct (check_breakout _ _ _ pos) as [confirmed kind].
    eexists. reflexivity.
Qed.

Lemma orb_period_returns_witness :
  (0 < 5)%Z
  /\ exists a, orb_period flat_session 0 (1005 # 10) 1000 5 = Some (analysis a).
Proof.
  split; [lia|].
  destruct (orb_period_returns flat_session 0 (1005 # 10) 1000 5) as [[Hlt _]|[_ H]].
  - lia.
  - exfalso. vm_compute in Hlt. discriminate.
  - exact H.
Defined.

(** ** The analysis dictionary *)

Lemma orb_dict_get_set (d : OrbDict) (k k' : Z) (v : PeriodEntry) :
  orb_dict_get (orb_dict_set d k v) k'
  = if (k =? k')%Z then Some v else orb_dict_get d k'.
Proof.
  induction d as [|[k0 v0] r IH]; simpl.
  - reflexivity.
  - destruct (k0 =? k)%Z eqn:E0; simpl.
    + apply Z.eqb_eq in E0. subst k0. destruct (k =? k')%Z; reflexivity.
    + rewrite IH. destruct (k0 =? k')%Z eqn:E1; [|reflexivity].
      apply Z.eqb_eq in E1. subst k0. rewrite Z.eqb_sym, E0. reflexivity.
Qed.

Lemma orb_dict_set_keys (d : OrbDict) (k k' : Z) (v : PeriodEntry) :
  In k' (map fst (orb_dict_set d k v)) <-> In k' (map fst d) \/ k' = k.
Proof.
  induction d as [|[k0 v0] r IH]; simpl.
  - split; [intros [H|[]]; right; symmetry; exact H | intros [[]|H]; left; symmetry; exact H].
  - destruct (k0 =? k)%Z eqn:E0; simpl.
    + apply Z.eqb_eq in E0. subst k0. split; [tauto|]. intros [H|H]; [exact H|].
      left. symmetry. exact H.
    + rewrite IH. tauto.
Qed.

Lemma orb_dict_set_nodup (d : OrbDict) (k : Z) (v : PeriodEntry) :
  NoDup (map fst d) -> NoDup (map fst (orb_dict_set d k v)).
Proof.
  induction d as [|[k0 v0] r IH]; simpl; intro H.
  - constructor; [intros [] | constructor].
  - inversion H as [|x l Hnot Hr]; subst.
    destruct (k0 =? k)%Z eqn:E0; simpl.
    + constructor; assumption.
    + constructor; [|apply IH; exact Hr].
      intro Hin. apply orb_dict_set_keys in Hin. destruct Hin as [Hin| ->].
      * contradiction.
      * rewrite Z.eqb_refl in E0. discriminate.
Qed.

Lemma orb_dict_set_in (d : OrbDict) (k : Z) (v : PeriodEntry) (kv : Z * PeriodEntry) :
  In kv (orb_dict_set d k v) -> In kv d \/ kv = (k, v).
Proof.
  induction d as [|[k0 v0] r IH]; simpl.
  - intros [H|[]]. right. symmetry. exact H.
  - destruct (k0 =? k)%Z eqn:E0; simpl.
    + apply Z.eqb_eq in E0. subst k0. intros [H|H]; [right; symmetry; exact H | left; right; exact H].
    + intros [H|H]; [left; left; exact H|].
      destruct (IH H) as [H'|H']; [left; right; exact H' | right; exact H'].
Qed.

Lemma orb_fold_none (df_rth : list Row) (open : Z) (price avg : Q) (periods : list Z) :
  fold_left
    (fun acc period =>
       match acc with
       | None => None
       | Some d =>
         match orb_period df_rth open price avg period with
         | None => None
         | Some e => Some (orb_dict_set d period e)
         end
       end) periods None = None.
Proof. induction periods as [|p r IH]; simpl; [reflexivity | exact IH]. Qed.

(** Every entry of the dictionary is what the loop body computes for its
    period. *)
Lemma orb_analysis_entries (df_rth : list Row) (open : Z) (price avg : Q)
  (periods : list Z) (d : OrbDict) :
  orb_analysis_of df_rth open price avg periods = Some d ->
  forall kv, In kv d -> orb_period df_rth open price avg (fst kv) = Some (snd kv).
Proof.
  unfold orb_analysis_of.
  assert (H0 : forall kv, In kv (@nil (Z * PeriodEntry)) ->
                          orb_period df_rth open price avg (fst kv) = Some (snd kv))
    by (intros kv []).
  revert H0. generalize (@nil (Z * PeriodEntry)) as d0. revert d.
  induction periods as [|p r IH]; intros d d0 H0; simpl.
  - intro H. inversion H; subst. exact H0.
  - destruct (orb_period df_rth open price avg p) as [e|] eqn:Ep.
    + apply IH. intros kv Hin. apply orb_dict_set_in in Hin.
      destruct Hin as [Hin| ->]; [apply H0; exact Hin | exact Ep].
    + rewrite orb_fold_none. discriminate.
Qed.

(** A failed analysis names a period that raised. *)
Lemma orb_analysis_none (df_rth : list Row) (open : Z) (price avg : Q)
  (periods : list Z) :
  orb_analysis_of df_rth open price avg periods = None ->
  exists p, In p periods /\ orb_period df_rth open price avg p = None.
Proof.
  unfold orb_analysis_of. generalize (@nil (Z * PeriodEntry)) as d0.
  induction periods as [|p r IH]; intro d0; simpl; [discriminate|].
  destruct (orb_period df_rth open price avg p) as [e|] eqn:Ep.
  - intro H. destruct (IH _ H) as (q & Hq & Hn). exists q. split; [right; exact Hq | exact Hn].
  - intros _. exists p. split; [left; reflexivity | exact Ep].
Qed.

(** X13.  For positive periods the loop returns a dictionary with one entry per
    distinct requested period: looking a requested period up gives what the
    loop body computes for it, and no other key is present. *)
Theorem orb_dictionary_lookup
  (df_rth : list Row) (open : Z) (price avg : Q) (periods : list Z) :
  Forall (fun p => (0 < p)%Z) periods ->
  exists d,
    orb_analysis_of df_rth open price avg periods = Some d
    /\ NoDup (map fst d)
    /\ (forall p, In p periods ->
                  orb_dict_get d p = orb_period df_rth open price avg p)
    /\ (forall k, ~ In k periods -> orb_dict_get d k = None).
Proof.
  intro Hpos. unfold orb_analysis_of.
  assert (Hgen : forall (done : list Z) (d0 : OrbDict),
             NoDup (map fst d0) ->
             (forall p, In p done ->
                        orb_dict_get d0 p = orb_period df_rth open price avg p) ->
             (forall k, ~ In k done -> orb_dict_get d0 k = None) ->
             exists d,
               fold_left
                 (fun acc period =>
                    match acc with
                    | None => None
                    | Some d =>
                      match orb_period df_rth open price avg period with
                      | None => None
                      | Some e => Some (orb_dict_set d period e)
                      end
                    end) periods (Some d0) = Some d
               /\ NoDup (map fst d)
               /\ (forall p, In p (done ++ periods) ->
                             orb_dict_get d p = orb_period df_rth open price avg p)
               /\ (forall k, ~ In k (done ++ periods) -> orb_dict_get d k = None)).
  { induction Hpos as [|p r Hp Hr IH]; intros done d0 Hnd Hget Hnone; simpl.
    - exists d0. rewrite app_nil_r. auto.
    - assert (He : exists e, orb_period df_rth open price avg p = Some e).
      { apply orb_period_some. exact Hp. }
      destruct He as [e He]. rewrite He.
      destruct (IH (done ++ [p])%list (orb_dict_set d0 p e)) as (d & Hf & H1 & H2 & H3).
      + apply orb_dict_set_nodup. exact Hnd.
      + intros q Hq. rewrite orb_dict_get_set.
        destruct (p =? q)%Z eqn:E.
        * apply Z.eqb_eq in E. subst q. symmetry. exact He.
        * apply in_app_or in Hq. destruct Hq as [Hq|[Hq|[]]].
          -- apply Hget. exact Hq.
          -- apply Z.eqb_neq in E. contradiction.
      + intros k Hk. rewrite orb_dict_get_set.
        destruct (p =? k)%Z eqn:E.
        * apply Z.eqb_eq in E. subst k. exfalso. apply Hk.
          apply in_or_app. right. left. reflexivity.
        * apply Hnone. intro Hin. apply Hk. apply in_or_app. left. exact Hin.
      + exists d. rewrite <- app_assoc in H2, H3. simpl in H2, H3. auto. }
  destruct (Hgen [] []) as (d & Hf & H1 & H2 & H3).
  - constructor.
  - intros p [].
  - reflexivity.
  - exists d. auto.
Qed.

Lemma orb_dictionary_lookup_witness :
  Forall (fun p => (0 < p)%Z) [5; 15; 5]%Z
  /\ exists d,
       orb_analysis_of flat_session 0 (1005 # 10) 1000 [5; 15; 5]%Z = Some d
       /\ NoDup (map fst d)
       /\ orb_dict_get d 15%Z = orb_period flat_session 0 (1005 # 10) 1000 15.
Proof.
  assert (Hpos : Forall (fun p => (0 < p)%Z) [5; 15; 5]%Z)
    by (repeat constructor).
  split; [exact Hpos|].
  destruct (orb_dictionary_lookup flat_session 0 (1005 # 10) 1000 [5; 15; 5]%Z Hpos)
    as (d & Hd & Hnd & Hget & _).
  exists d. split; [exact Hd|]. split; [exact Hnd|].
  apply Hget. right. left. reflexivity.
Defined.

(** ** Squeeze detection on the tool's own analysis *)

Lemma window_rows_nested (df_rth : list Row) (open p p' : Z) (r : Row) :
  (p <= p')%Z -> In r (window_rows df_rth open p) -> In r (window_rows df_rth open p').
Proof.
  unfold window_rows. intros Hle Hin. apply filter_In in Hin. apply filter_In.
  destruct Hin as [Hin Ht]. split; [exact Hin|].
  apply Z.leb_le in Ht. apply Z.leb_le. lia.
Qed.

(** A longer opening window has a range at least as wide. *)
Lemma orb_range_monotone (df_rth : list Row) (open : Z) (price avg : Q)
  (p p' : Z) (a a' : Analysis) :
  (p <= p')%Z ->
  orb_period df_rth open price avg p = Some (analysis a) ->
  orb_period df_rth open price avg p' = Some (analysis a') ->
  orb_range a <= orb_range a'.
Proof.
  intros Hle Ha Ha'.
  destruct (orb_period_inv _ _ _ _ _ _ Ha)
    as (high & low & Hmax & Hmin & _ & _ & _ & -> & _).
  destruct (orb_period_inv _ _ _ _ _ _ Ha')
    as (high' & low' & Hmax' & Hmin' & _ & _ & _ & -> & _).
  apply round_mono.
  assert (H1 : high <= high').
  { apply series_max_in in Hmax. apply in_map_iff in Hmax.
    destruct Hmax as (r & <- & Hr).
    eapply series_max_ge; [exact Hmax'|].
    apply in_map_iff. exists r. split; [reflexivity|].
    eapply window_rows_nested; eauto. }
  assert (H2 : low' <= low).
  { apply series_min_in in Hmin. apply in_map_iff in Hmin.
    destruct Hmin as (r & <- & Hr).
    eapply series_min_le; [exact Hmin'|].
    apply in_map_iff. exists r. split; [reflexivity|].
    eapply window_rows_nested; eauto. }
  lra.
Qed.

Lemma valid_ranges_in (d : OrbDict) (k : Z) (r : Q) :
  In (k, r) (valid_ranges d) -> exists a, In (k, analysis a) d /\ r = orb_range a.
Proof.
  unfold valid_ranges. intro H. apply in_flat_map in H.
  destruct H as ([k0 e] & Hin & Hk). simpl in Hk.
  destruct e as [need have|a]; [destruct Hk|].
  destruct Hk as [Hk|[]]. inversion Hk; subst. exists a. auto.
Qed.

Lemma sorted_hd_le_last (l : list Q) :
  StronglySorted Qle l -> hd 0 l <= last l 0.
Proof.
  intro H. destruct l as [|x r]; [apply Qle_refl|].
  inversion H as [|y l' _ Hall]; subst. cbn [hd].
  destruct r as [|z r']; [apply Qle_refl|].
  rewrite Forall_forall in Hall. apply Hall.
  change (last (x :: z :: r') 0) with (last (z :: r') 0).
  clear. revert z. induction r' as [|w r'' IH]; intro z.
  - left. reflexivity.
  - right. apply IH.
Qed.

Lemma squeeze_needs_less (ranges : list Q) :
  hd 0 ranges <= last ranges 0 ->
  Qlt_bool (compression_of ranges) (7 # 10) = false.
Proof.
  intro H. apply Qlt_bool_false. unfold compression_of.
  destruct (Qlt_bool 0 (hd 0 ranges)) eqn:E; [|lra].
  apply Qlt_bool_iff in E.
  apply (Qle_trans _ 1); [lra|].
  apply Qle_shift_div_l; [exact E | lra].
Qed.

(** Squeeze detection never fires on a dictionary the analysis loop built:
    a longer opening window contains the shorter one, so its range cannot be
    narrower and the compression ratio is never below 1. *)
Lemma no_squeeze_on_analysis (df_rth : list Row) (open : Z) (price avg : Q)
  (periods : list Z) (d : OrbDict) :
  orb_analysis_of df_rth open price avg periods = Some d ->
  squeeze_detected_of (detect_orb_squeeze d) = false.
Proof.
  intro Hd. pose proof (orb_analysis_entries _ _ _ _ _ _ Hd) as Hent.
  unfold detect_orb_squeeze.
  destruct (length (valid_ranges d) <? 2)%nat; [reflexivity|].
  cbn [squeeze_detected_of].
  apply andb_false_iff. right. apply squeeze_needs_less.
  apply sorted_hd_le_last.
  set (sd := sorted pair_leb (valid_ranges d)).
  assert (Hsd : by_period sd) by apply sorted_by_period.
  assert (Hok : forall x, In x sd ->
              exists a, orb_period df_rth open price avg (fst x) = Some (analysis a)
                        /\ snd x = orb_range a).
  { intros [k r] Hx.
    apply (Permutation_in _ (Permutation_sym (sorted_perm pair_leb (valid_ranges d)))) in Hx.
    apply valid_ranges_in in Hx. destruct Hx as (a & Hin & ->).
    exists a. split; [|reflexivity]. apply (Hent (k, analysis a) Hin). }
  clearbody sd. unfold by_period in Hsd.
  induction Hsd as [|x l Hl IH Hx]; simpl; constructor.
  - apply IH. intros y Hy. apply Hok. right. exact Hy.
  - rewrite Forall_forall in *. intros q Hq.
    apply in_map_iff in Hq. destruct Hq as (y & <- & Hy).
    destruct (Hok x (or_introl eq_refl)) as (a & Ha & ->).
    destruct (Hok y (or_intror Hy)) as (a' & Ha' & ->).
    eapply orb_range_monotone; [apply Hx; exact Hy | exact Ha | exact Ha'].
Qed.

(** X14.  The tool never reports a squeeze: whenever the analysis succeeds, the
    squeeze entry of the response has squeeze_detected false. *)
Theorem tool_never_reports_squeeze
  (df : option (list Row)) (open close : Z) (clock : Q)
  (periods : option (list Z)) (r : OrbSuccess) :
  financial_orb_analysis df open close clock periods = orb_success r ->
  squeeze_detected_of (orb_squeeze r) = false.
Proof.
  unfold financial_orb_analysis.
  destruct df as [[|first rest]|]; try discriminate. cbv zeta.
  destruct (filter (fun r => (open <=? fst r)%Z && (fst r <=? close)%Z)
              (first :: rest)) as [|r0 rth] eqn:Ef; [discriminate|].
  destruct (orb_analysis_of _ _ _ _ _) as [d|] eqn:Ed; [|discriminate].
  intro H. inversion H; subst r. cbn [orb_squeeze].
  eapply no_squeeze_on_analysis. exact Ed.
Qed.

Lemma tool_never_reports_squeeze_witness :
  exists r,
    financial_orb_analysis (Some flat_session) 0 23400 36000 None = orb_success r
    /\ squeeze_detected_of (orb_squeeze r) = false.
Proof.
  assert (H : exists r, financial_orb_analysis (Some flat_session) 0 23400 36000 None
                        = orb_success r).
  { eexists. vm_compute. reflexivity. }
  destruct H as [r Hr]. exists r. split; [exact Hr|].
  exact (tool_never_reports_squeeze _ _ _ _ _ _ Hr).
Defined.

(** The loop body raises exactly for a period that is not positive and
    whose opening window holds no row. *)
Lemma orb_period_none_iff
  (df_rth : list Row) (open : Z) (price avg : Q) (period : Z) :
  orb_period df_rth open price avg period = None
  <-> (period <= 0)%Z /\ window_rows df_rth open period = [].
Proof.
  unfold orb_period. cbv zeta. fold (window_rows df_rth open period).
  destruct (_ <? period)%Z eqn:El.
  - apply Z.ltb_lt in El. split; [discriminate|]. intros [Hp Hw].
    rewrite Hw in El. simpl in El. lia.
  - apply Z.ltb_ge in El.
    destruct (window_rows df_rth open period) as [|r w] eqn:Ew.
    + simpl in El. split; [intros _; split; [lia | reflexivity] | reflexivity].
    + cbn [map series_max series_min].
      destruct (classify price _ _) as [pos dist].
      destruct (check_breakout _ _ _ pos) as [confirmed kind].
      split; [discriminate | intros [_ H]; discriminate].
Qed.

Lemma orb_analysis_none_iff (df_rth : list Row) (open : Z) (price avg : Q)
  (periods : list Z) :
  orb_analysis_of df_rth open price avg periods = None
  <-> exists p, In p periods /\ orb_period df_rth open price avg p = None.
Proof.
  split; [apply orb_analysis_none|].
  unfold orb_analysis_of. generalize (@nil (Z * PeriodEntry)) as d0.
  induction periods as [|p0 r IH]; intros d0 (p & Hp & Hn); [destruct Hp|].
  cbn [fold_left].
  destruct (orb_period df_rth open price avg p0) as [e|] eqn:E0.
  - destruct Hp as [->|Hp]; [congruence|]. apply IH. exists p. split; assumption.
  - apply orb_fold_none.
Qed.

Lemma window_rows_in (rows : list Row) (open close period : Z) (r : Row) :
  In r (window_rows
          (filter (fun r => (open <=? fst r)%Z && (fst r <=? close)%Z) rows)
          open period)
  <-> In r rows /\ (open <= fst r <= close)%Z /\ (fst r <= open + 60 * period)%Z.
Proof.
  unfold window_rows. rewrite filter_In, filter_In, andb_true_iff, !Z.leb_le.
  tauto.
Qed.

(** X15.  The outcome of the entry point, case by case, each exactly.  The
    fetch error is returned exactly on a null or empty frame.  The
    no-regular-trading-hours error is returned exactly when the frame is
    not empty and none of its rows falls in the session.  The calculation
    error is returned exactly when some row falls in the session and some
    requested period is not positive and has no session row in its opening
    window.  A success is returned exactly when some row falls in the
    session and every requested period is positive or has a session row in
    its window; its price is the close of the frame's first row rounded to
    two decimals. *)
Theorem orb_response_cases
  (df : option (list Row)) (open close : Z) (clock : Q)
  (periods : option (list Z)) :
  let resp := financial_orb_analysis df open close clock periods in
  let requested :=
    match periods with None => default_orb_periods | Some l => l end in
  (resp = orb_error failed_to_fetch_price_data <-> df = None \/ df = Some [])
  /\ (resp = orb_error no_regular_trading_hours_data
      <-> exists rows, df = Some rows /\ rows <> []
                       /\ forall r, In r rows -> ~ (open <= fst r <= close)%Z)
  /\ (resp = orb_error failed_to_calculate
      <-> exists rows r0,
            df = Some rows /\ In r0 rows /\ (open <= fst r0 <= close)%Z
            /\ exists p, In p requested /\ (p <= 0)%Z
                         /\ forall r, In r rows -> (open <= fst r <= close)%Z ->
                                      (open + 60 * p < fst r)%Z)
  /\ ((exists r, resp = orb_success r)
      <-> exists rows r0,
            df = Some rows /\ In r0 rows /\ (open <= fst r0 <= close)%Z
            /\ forall p, In p requested ->
                 (0 < p)%Z
                 \/ exists r, In r rows /\ (open <= fst r <= close)%Z
                              /\ (fst r <= open + 60 * p)%Z)
  /\ (forall r, resp = orb_success r ->
        exists first rest,
          df = Some (first :: rest)
          /\ response_price r = round (c_close (snd first)) 2).
Proof.
  intros resp requested. unfold resp, financial_orb_analysis.
  fold requested.
  destruct df as [[|first rest]|].
  - (* empty frame *)
    split; [split; [intros _; right; reflexivity | reflexivity]|].
    split; [split; [discriminate | intros (rows & E & Hne & _); inversion E; subst;
                                     contradiction]|].
    split; [split; [discriminate | intros (rows & r0 & E & Hin & _); inversion E;
                                     subst; destruct Hin]|].
    split; [split; [intros [r H]; discriminate
                   | intros (rows & r0 & E & Hin & _); inversion E; subst;
                     destruct Hin]|].
    intros r H. discriminate.
  - cbv zeta.
    set (inside := fun r : Z * Candle => (open <=? fst r)%Z && (fst r <=? close)%Z).
    assert (Hins : forall r, In r (filter inside (first :: rest))
                             <-> In r (first :: rest) /\ (open <= fst r <= close)%Z).
    { intro r. unfold inside. rewrite filter_In, andb_true_iff, !Z.leb_le. tauto. }
    assert (Hwin : forall p r,
               In r (window_rows (filter inside (first :: rest)) open p)
               <-> In r (first :: rest) /\ (open <= fst r <= close)%Z
                   /\ (fst r <= open + 60 * p)%Z)
      by (intros p r; apply window_rows_in).
    destruct (filter inside (first :: rest)) as [|r0 rth] eqn:Ef.
    + (* no row in the session *)
      split; [split; [discriminate | intros [E|E]; discriminate]|].
      split.
      { split; [|reflexivity]. intros _. exists (first :: rest).
        split; [reflexivity|]. split; [discriminate|].
        intros r Hr Ht. apply (proj2 (Hins r)); auto. }
      split.
      { split; [discriminate|]. intros (rows & r & E & Hin & Ht & _).
        inversion E; subst. exfalso. apply (proj2 (Hins r)); auto. }
      split.
      { split; [intros [r H]; discriminate|]. intros (rows & r & E & Hin & Ht & _).
        inversion E; subst. exfalso. apply (proj2 (Hins r)); auto. }
      intros r H. discriminate.
    + assert (H0 : In r0 (first :: rest) /\ (open <= fst r0 <= close)%Z).
      { apply Hins. left. reflexivity. }
      set (price := c_close (snd first)).
      set (avg := mean (map (fun r => c_volume (snd r)) (r0 :: rth))).
      assert (Hnone : orb_analysis_of (r0 :: rth) open price avg requested = None
                      <-> exists p, In p requested /\ (p <= 0)%Z
                                    /\ forall r, In r (first :: rest) ->
                                         (open <= fst r <= close)%Z ->
                                         (open + 60 * p < fst r)%Z).
      { rewrite orb_analysis_none_iff. split.
        - intros (p & Hp & Hn). apply orb_period_none_iff in Hn.
          destruct Hn as [Hle Hw]. exists p. split; [exact Hp|]. split; [exact Hle|].
          intros r Hr Ht.
          destruct (Z_lt_le_dec (open + 60 * p) (fst r)) as [H|H]; [exact H|].
          exfalso. assert (Hin : In r (window_rows (r0 :: rth) open p))
            by (apply Hwin; auto).
          rewrite Hw in Hin. destruct Hin.
        - intros (p & Hp & Hle & Hall). exists p. split; [exact Hp|].
          apply orb_period_none_iff. split; [exact Hle|].
          destruct (window_rows (r0 :: rth) open p) as [|r w] eqn:Ew; [reflexivity|].
          exfalso. assert (Hin : In r (window_rows (r0 :: rth) open p))
            by (rewrite Ew; left; reflexivity).
          apply Hwin in Hin. destruct Hin as (Hr & Ht & Hlt).
          specialize (Hall r Hr Ht). lia. }
      assert (Hsome : (exists d, orb_analysis_of (r0 :: rth) open price avg requested
                                 = Some d)
                      <-> forall p, In p requested ->
                            (0 < p)%Z
                            \/ exists r, In r (first :: rest)
                                         /\ (open <= fst r <= close)%Z
                                         /\ (fst r <= open + 60 * p)%Z).
      { split.
        - intros [d Hd] p Hp.
          destruct (Z_lt_le_dec 0 p) as [Hpos|Hle]; [left; exact Hpos|]. right.
          destruct (window_rows (r0 :: rth) open p) as [|r w] eqn:Ew.
          + exfalso. assert (Hn : orb_analysis_of (r0 :: rth) open price avg requested
                                  = None).
            { apply orb_analysis_none_iff. exists p. split; [exact Hp|].
              apply orb_period_none_iff. split; assumption. }
            congruence.
          + exists r. apply Hwin. rewrite Ew. left. reflexivity.
        - intro Hall.
          destruct (orb_analysis_of (r0 :: rth) open price avg requested) as [d|] eqn:Ed;
            [exists d; reflexivity|].
          exfalso. destruct (proj1 Hnone eq_refl) as (p & Hp & Hle & Hno).
          destruct (Hall p Hp) as [Hpos|(r & Hr & Ht & Hlt)]; [lia|].
          specialize (Hno r Hr Ht). lia. }
      destruct (orb_analysis_of (r0 :: rth) open price avg requested) as [d|] eqn:Ed.
      * (* success *)
        split; [split; [discriminate | intros [E|E]; discriminate]|].
        split.
        { split; [discriminate|]. intros (rows & E & _ & Hno). inversion E; subst.
          exfalso. apply (Hno r0); tauto. }
        split.
        { split; [discriminate|]. intros (rows & r & E & _ & _ & Hp).
          inversion E; subst. apply (proj2 Hnone) in Hp. discriminate. }
        split.
        { split.
          - intros _. exists (first :: rest), r0. split; [reflexivity|].
            split; [tauto|]. split; [tauto|]. apply Hsome. exists d. reflexivity.
          - intros _. eexists. reflexivity. }
        intros r H. inversion H; subst. exists first, rest. split; reflexivity.
      * (* an iteration raises *)
        split; [split; [discriminate | intros [E|E]; discriminate]|].
        split.
        { split; [discriminate|]. intros (rows & E & _ & Hno). inversion E; subst.
          exfalso. apply (Hno r0); tauto. }
        split.
        { split; [|reflexivity]. intros _. exists (first :: rest), r0.
          split; [reflexivity|]. split; [tauto|]. split; [tauto|].
          apply Hnone. reflexivity. }
        split.
        { split; [intros [r H]; discriminate|].
          intros (rows & r & E & _ & _ & Hall). inversion E; subst.
          apply (proj2 Hsome) in Hall. destruct Hall as [d Hd]. discriminate. }
        intros r H. discriminate.
  - (* null frame *)
    split; [split; [intros _; left; reflexivity | reflexivity]|].
    split; [split; [discriminate | intros (rows & E & _); discriminate]|].
    split; [split; [discriminate | intros (rows & r0 & E & _); discriminate]|].
    split; [split; [intros [r H]; discriminate
                   | intros (rows & r0 & E & _); discriminate]|].
    intros r H. discriminate.
Qed.

Lemma orb_response_cases_witness :
  financial_orb_analysis None 0 23400 36000 (Some [-5]%Z)
  = orb_error failed_to_fetch_price_data
  /\ financial_orb_analysis (Some flat_session) 0 23400 36000 (Some [-5]%Z)
     = orb_error failed_to_calculate
  /\ exists r, financial_orb_analysis (Some flat_session) 0 23400 36000 (Some [0]%Z)
               = orb_success r.
Proof.
  split; [|split].
  - apply (proj1 (orb_response_cases None 0 23400 36000 (Some [-5]%Z))).
    left. reflexivity.
  - pose proof (orb_response_cases (Some flat_session) 0 23400 36000 (Some [-5]%Z)) as H.
    cbv zeta in H. destruct H as (_ & _ & [_ H] & _). apply H.
    exists flat_session, (0%Z, mkCandle None (1005 # 10) 101 100 (1005 # 10) 1000).
    split; [reflexivity|]. split; [left; reflexivity|]. split; [simpl; lia|].
    exists (-5)%Z. split; [left; reflexivity|]. split; [lia|].
    intros r Hr Ht. lia.
  - pose proof (orb_response_cases (Some flat_session) 0 23400 36000 (Some [0]%Z)) as H.
    cbv zeta in H. destruct H as (_ & _ & _ & [_ H] & _). apply H.
    exists flat_session, (0%Z, mkCandle None (1005 # 10) 101 100 (1005 # 10) 1000).
    split; [reflexivity|]. split; [left; reflexivity|]. split; [simpl; lia|].
    intros p [<-|[]]. right.
    exists (0%Z, mkCandle None (1005 # 10) 101 100 (1005 # 10) 1000).
    split; [left; reflexivity|]. simpl. lia.
Defined.

(** ** The trading bias *)

Lemma Qnat_lt_scaled (a b : nat) (n m : positive) :
  Qlt_bool (Qnat a * (Zpos n # m)) (Qnat b) = true
  <-> (Z.pos n * Z.of_nat a < Z.pos m * Z.of_nat b)%Z.
Proof.
  rewrite Qlt_bool_iff. unfold Qnat, Qlt, Qmult, inject_Z. cbn [Qnum Qden].
  rewrite Pos.mul_1_l. split; intro H; lia.
Qed.

(** X16.  The bias in whole numbers.  With b bullish and r bearish signals: the
    bias is bullish exactly when 2b > 3r, bearish exactly when 2r > 3b, and
    neutral otherwise; the confidence is high exactly when one side exceeds
    twice the other, low exactly when the bias is neutral; and a bullish (or
    bearish) bias always has strictly more signals on its side. *)
Theorem bias_thresholds (orb_data : OrbDict) :
  let t := analyze_orb_bias orb_data in
  let b := bullish_signals t in
  let r := bearish_signals t in
  (bias t = bias_bullish <-> (3 * r < 2 * b)%nat)
  /\ (bias t = bias_bearish <-> (3 * b < 2 * r)%nat)
  /\ (confidence t = confidence_high <-> (2 * r < b)%nat \/ (2 * b < r)%nat)
  /\ (confidence t = confidence_low <-> bias t = bias_neutral)
  /\ (bias t = bias_bullish -> (r < b)%nat)
  /\ (bias t = bias_bearish -> (b < r)%nat).
Proof.
  unfold analyze_orb_bias.
  set (st := fold_left bias_step orb_data (mkSignals 0 0 [])).
  generalize (sig_bullish st) as b. generalize (sig_bearish st) as r.
  intros r b. cbv zeta.
  pose proof (Qnat_lt_scaled r b 3 2) as H32.
  pose proof (Qnat_lt_scaled b r 3 2) as H32'.
  pose proof (Qnat_lt_scaled r b 2 1) as H21.
  pose proof (Qnat_lt_scaled b r 2 1) as H21'.
  change (Z.pos 3 # 2) with (3 # 2) in *.
  change (Z.pos 2 # 1) with 2 in *.
  destruct (Qlt_bool (Qnat r * (3 # 2)) (Qnat b)) eqn:E1.
  - apply proj1 in H32. specialize (H32 eq_refl).
    destruct (Qlt_bool (Qnat r * 2) (Qnat b)) eqn:E2; cbn.
    + apply proj1 in H21. specialize (H21 eq_refl).
      repeat split; intros; try discriminate; try lia; auto;
        try (match goal with H : _ \/ _ |- _ => destruct H; lia end).
    + assert (~ (2 * Z.of_nat r < 1 * Z.of_nat b)%Z).
      { intro Hc. apply H21 in Hc. discriminate. }
      repeat split; intros; try discriminate; try lia; auto;
        try (match goal with H : _ \/ _ |- _ => destruct H; lia end).
  - assert (Hn1 : ~ (3 * Z.of_nat r < 2 * Z.of_nat b)%Z).
    { intro Hc. apply H32 in Hc. discriminate. }
    destruct (Qlt_bool (Qnat b * (3 # 2)) (Qnat r)) eqn:E3.
    + apply proj1 in H32'. specialize (H32' eq_refl).
      destruct (Qlt_bool (Qnat b * 2) (Qnat r)) eqn:E4; cbn.
      * apply proj1 in H21'. specialize (H21' eq_refl).
        repeat split; intros; try discriminate; try lia; auto;
        try (match goal with H : _ \/ _ |- _ => destruct H; lia end).
      * assert (~ (2 * Z.of_nat b < 1 * Z.of_nat r)%Z).
        { intro Hc. apply H21' in Hc. discriminate. }
        repeat split; intros; try discriminate; try lia; auto;
          try (match goal with H : _ \/ _ |- _ => destruct H; lia end).
    + assert (Hn2 : ~ (3 * Z.of_nat b < 2 * Z.of_nat r)%Z).
      { intro Hc. apply H32' in Hc. discriminate. }
      cbn. repeat split; intros; try discriminate; try lia; auto;
        try (match goal with H : _ \/ _ |- _ => destruct H; lia end).
Qed.

Lemma quiet_entry_no_signal (st : Signals) (k : Z) (a : Analysis) :
  position a = inside_range -> breakout_confirmed a = false ->
  targets_hit a = [] ->
  bias_step st (k, analysis a) = st.
Proof.
  intros Hp Hb Ht. unfold bias_step. cbn [fst snd].
  unfold targets_signal, volume_signal, position_signal, breakout_signal.
  rewrite Hp, Hb, Ht. simpl. destruct (high_volume (volume_analysis a)); reflexivity.
Qed.

(** X17.  With the price inside every analysed opening range of positive width,
    the analysis gives no signal at all: both counts are zero, no strength
    factor is listed, and the bias is neutral with low confidence. *)
Theorem inside_all_ranges_is_neutral
  (df_rth : list Row) (open : Z) (price avg : Q) (periods : list Z) (d : OrbDict) :
  orb_analysis_of df_rth open price avg periods = Some d ->
  (forall k a, In (k, analysis a) d ->
               position a = inside_range /\ 0 < orb_range a) ->
  let t := analyze_orb_bias d in
  bias t = bias_neutral /\ confidence t = confidence_low
  /\ bullish_signals t = 0%nat /\ bearish_signals t = 0%nat
  /\ strength_factors t = [].
Proof.
  intros Hd Hin.
  pose proof (orb_analysis_entries _ _ _ _ _ _ Hd) as Hent.
  assert (Hfold : fold_left bias_step d (mkSignals 0 0 []) = mkSignals 0 0 []).
  { generalize (mkSignals 0 0 []) as st.
    assert (Hsub : forall kv, In kv d -> In kv d) by auto.
    revert Hsub. generalize d at 1 3 as l.
    induction l as [|[k e] l IH]; intros Hsub st; simpl; [reflexivity|].
    rewrite <- (IH (fun kv H => Hsub kv (or_intror H)) st) at 2. f_equal.
    destruct e as [need have|a]; [reflexivity|].
    assert (Hk : In (k, analysis a) d) by (apply Hsub; left; reflexivity).
    destruct (Hin k a Hk) as [Hp Hr].
    pose proof (Hent (k, analysis a) Hk) as Ha. cbn [fst snd] in Ha.
    destruct (inside_no_breakout _ _ _ _ _ _ Ha Hp) as [Hb _].
    pose proof (inside_no_target _ _ _ _ _ _ Ha Hp Hr) as Ht.
    apply quiet_entry_no_signal; assumption. }
  unfold analyze_orb_bias. rewrite Hfold. cbn. repeat split; reflexivity.
Qed.

Lemma inside_all_ranges_is_neutral_witness :
  exists d,
    orb_analysis_of flat_session 0 (1005 # 10) 1000 [5; 30]%Z = Some d
    /\ bias (analyze_orb_bias d) = bias_neutral
    /\ bullish_signals (analyze_orb_bias d) = 0%nat.
Proof.
  assert (H : exists d, orb_analysis_of flat_session 0 (1005 # 10) 1000 [5; 30]%Z
                        = Some d).
  { eexists. vm_compute. reflexivity. }
  destruct H as [d Hd]. exists d. split; [exact Hd|].
  assert (Hin : forall k a, In (k, analysis a) d ->
                            position a = inside_range /\ 0 < orb_range a).
  { intros k a Hk. vm_compute in Hd. inversion Hd; subst d.
    destruct Hk as [Hk|[Hk|[]]]; inversion Hk; subst; split; reflexivity. }
  pose proof (inside_all_ranges_is_neutral _ _ _ _ _ _ Hd Hin) as H.
  split; [exact (proj1 H) | exact (proj1 (proj2 (proj2 H)))].
Defined.

End ORBMore.

(* ================================================================== *)
(** * Further properties of the volume profile and the indicators *)
(* ================================================================== *)

Module TechnicalAnalysisMore.

Import NumericFacts TechnicalAnalysis TechnicalAnalysisFacts Indicators.

(** ** Accounting of the volume, bar by bar *)

Lemma dict_set_sum (d : PriceDict) (k v : Q) :
  Qsum (map snd (dict_set d k (dict_get d k 0 + v))) == Qsum (map snd d) + v.
Proof.
  induction d as [|[k0 v0] r IH]; simpl.
  - rewrite Qsum_cons. unfold Qsum. simpl. ring.
  - destruct (Qeq_bool k0 k); simpl.
    + rewrite !Qsum_cons. ring.
    + rewrite !Qsum_cons, IH. ring.
Qed.

Lemma inject_nat_S (n : nat) :
  inject_Z (Z.of_nat (S n)) == inject_Z (Z.of_nat n) + 1.
Proof. rewrite Nat2Z.inj_succ. unfold Z.succ. rewrite inject_Z_plus. reflexivity. Qed.

Lemma credit_fold_sum (bins : list Q) (precision : nat) (vpb : Q) (l : list nat) :
  forall d,
  Qsum (map snd (fold_left (credit_bin bins precision vpb) l d))
  == Qsum (map snd d)
     + vpb * inject_Z (Z.of_nat
                         (length (filter (fun i => (i <? length bins - 1)%nat) l))).
Proof.
  induction l as [|i l IH]; intro d; simpl.
  - ring.
  - rewrite IH. unfold credit_bin at 1.
    destruct (i <? length bins - 1)%nat.
    + rewrite dict_set_sum. cbn [length]. rewrite inject_nat_S. ring.
    + ring.
Qed.

Lemma add_bar_sum (bins : list Q) (precision : nat) (d : PriceDict) (row : Candle) :
  Qsum (map snd (add_bar bins precision d row))
  == Qsum (map snd d) + bar_gain bins row.
Proof.
  unfold add_bar, bar_gain, valid_count.
  destruct (_ <? _)%nat.
  - apply credit_fold_sum.
  - ring.
Qed.

Lemma build_sum (bins : list Q) (precision : nat) (df : list Candle) :
  Qsum (map snd (build_volume_by_price bins precision df))
  == Qsum (map (bar_gain bins) df).
Proof.
  unfold build_volume_by_price.
  assert (H : forall d,
             Qsum (map snd (fold_left (add_bar bins precision) df d))
             == Qsum (map snd d) + Qsum (map (bar_gain bins) df)).
  { induction df as [|row r IH]; intro d; simpl.
    - unfold Qsum at 3. simpl. ring.
    - rewrite IH, add_bar_sum, Qsum_cons. ring. }
  rewrite H. unfold Qsum at 1. simpl. ring.
Qed.

Lemma valid_count_le (bins : list Q) (lo n : nat) : (valid_count bins lo n <= n)%nat.
Proof.
  unfold valid_count. eapply Nat.le_trans; [apply filter_length_le|].
  rewrite length_seq. lia.
Qed.

(** When the spanned indices run up to the number of edges, the last of
    them is no bin. *)
Lemma valid_count_top (bins : list Q) (lo n : nat) :
  (0 < n)%nat -> (lo + n = length bins)%nat -> (valid_count bins lo n <= n - 1)%nat.
Proof.
  intros Hn Hlen. unfold valid_count.
  destruct n as [|m]; [lia|]. rewrite seq_S, filter_app. simpl.
  replace (lo + m <? length bins - 1)%nat with false.
  2:{ symmetry. apply Nat.ltb_ge. lia. }
  simpl. rewrite app_nil_r.
  eapply Nat.le_trans; [apply filter_length_le|]. rewrite length_seq. lia.
Qed.

Lemma share_le (vol : Q) (n c : nat) :
  0 <= vol -> (0 < n)%nat -> (c <= n)%nat ->
  vol / inject_Z (Z.of_nat n) * inject_Z (Z.of_nat c) <= vol.
Proof.
  intros Hv Hn Hc.
  assert (HN : 0 < inject_Z (Z.of_nat n)).
  { change 0 with (inject_Z 0). rewrite <- Zlt_Qlt. lia. }
  assert (HC : inject_Z (Z.of_nat c) <= inject_Z (Z.of_nat n)).
  { rewrite <- Zle_Qle. lia. }
  assert (Hu : 0 <= vol / inject_Z (Z.of_nat n)) by (apply Qdiv_nonneg; assumption).
  apply (Qle_trans _ (vol / inject_Z (Z.of_nat n) * inject_Z (Z.of_nat n))).
  - rewrite !(Qmult_comm (vol / inject_Z (Z.of_nat n))).
    apply Qmult_le_compat_r; assumption.
  - apply Qle_lteq. right. field. intro H0. rewrite H0 in HN.
    apply (Qlt_irrefl 0). exact HN.
Qed.

Lemma share_lt (vol : Q) (n c : nat) :
  0 < vol -> (0 < n)%nat -> (c <= n - 1)%nat ->
  vol / inject_Z (Z.of_nat n) * inject_Z (Z.of_nat c) < vol.
Proof.
  intros Hv Hn Hc.
  assert (HN : 0 < inject_Z (Z.of_nat n)).
  { change 0 with (inject_Z 0). rewrite <- Zlt_Qlt. lia. }
  assert (HC : inject_Z (Z.of_nat c) <= inject_Z (Z.of_nat n) - 1).
  { assert (H1 : inject_Z (Z.of_nat c + 1) <= inject_Z (Z.of_nat n))
      by (rewrite <- Zle_Qle; lia).
    rewrite inject_Z_plus in H1. change (inject_Z 1) with 1 in H1. lra. }
  assert (Hu : 0 < vol / inject_Z (Z.of_nat n)).
  { apply Qlt_shift_div_l; [exact HN | lra]. }
  assert (Heq : vol / inject_Z (Z.of_nat n) * inject_Z (Z.of_nat n) == vol).
  { field. intro H0. rewrite H0 in HN. apply (Qlt_irrefl 0). exact HN. }
  assert (Hle : vol / inject_Z (Z.of_nat n) * inject_Z (Z.of_nat c)
                <= vol / inject_Z (Z.of_nat n) * (inject_Z (Z.of_nat n) - 1)).
  { rewrite !(Qmult_comm (vol / inject_Z (Z.of_nat n))).
    apply Qmult_le_compat_r; [exact HC | lra]. }
  set (u := vol / inject_Z (Z.of_nat n)) in *.
  set (N := inject_Z (Z.of_nat n)) in *.
  assert (Hexp : u * (N - 1) == u * N - u) by ring.
  lra.
Qed.

Lemma bar_gain_le (bins : list Q) (row : Candle) :
  0 <= c_volume row -> bar_gain bins row <= c_volume row.
Proof.
  intro Hv. unfold bar_gain.
  destruct (_ <? _)%nat eqn:E; [|exact Hv].
  apply Nat.ltb_lt in E. apply share_le; [exact Hv | lia | apply valid_count_le].
Qed.

Lemma searchsorted_right_all (bins : list Q) (v : Q) :
  (forall e, In e bins -> e <= v) -> searchsorted_right bins v = length bins.
Proof.
  induction bins as [|x r IH]; intro H; simpl; [reflexivity|].
  assert (Hx : Qle_bool x v = true) by (apply Qle_bool_iff, H; left; reflexivity).
  rewrite Hx, IH; [reflexivity|]. intros e He. apply H. right. exact He.
Qed.

Lemma searchsorted_left_le (bins : list Q) (v : Q) :
  (searchsorted_left bins v <= length bins)%nat.
Proof.
  induction bins as [|x r IH]; simpl; [lia|].
  destruct (Qlt_bool x v); lia.
Qed.

(** A bar whose high is not below any edge loses part of its volume. *)
Lemma bar_gain_top (bins : list Q) (row : Candle) :
  0 < c_volume row -> (forall e, In e bins -> e <= c_high row) ->
  bar_gain bins row < c_volume row.
Proof.
  intros Hv Hall. unfold bar_gain.
  rewrite (searchsorted_right_all bins (c_high row) Hall).
  pose proof (searchsorted_left_le bins (c_low row)) as Hlo.
  destruct (_ <? _)%nat eqn:E; [|exact Hv].
  apply Nat.ltb_lt in E. apply share_lt; [exact Hv | lia|].
  apply valid_count_top; lia.
Qed.

Lemma linspace_le_stop (start stop : Q) (k : nat) (e : Q) :
  start <= stop -> In e (linspace start stop (S k + 1)) -> e <= stop.
Proof.
  intros Hle Hin. unfold linspace in Hin.
  replace (S k + 1 - 1)%nat with (S k) in Hin by lia.
  apply in_map_iff in Hin. destruct Hin as (i & <- & Hi). apply in_seq in Hi.
  assert (HN : 0 < inject_Z (Z.of_nat (S k))).
  { change 0 with (inject_Z 0). rewrite <- Zlt_Qlt. lia. }
  assert (Hi' : inject_Z (Z.of_nat i) <= inject_Z (Z.of_nat (S k))).
  { rewrite <- Zle_Qle. lia. }
  assert (Hstep : 0 <= (stop - start) / inject_Z (Z.of_nat (S k))).
  { apply Qdiv_nonneg; [exact HN | lra]. }
  assert (Hfull : inject_Z (Z.of_nat (S k)) * ((stop - start) / inject_Z (Z.of_nat (S k)))
                  == stop - start).
  { field. intro H0. rewrite H0 in HN. apply (Qlt_irrefl 0). exact HN. }
  assert (Hm : inject_Z (Z.of_nat i) * ((stop - start) / inject_Z (Z.of_nat (S k)))
               <= inject_Z (Z.of_nat (S k)) * ((stop - start) / inject_Z (Z.of_nat (S k)))).
  { apply Qmult_le_compat_r; assumption. }
  lra.
Qed.

Lemma price_bins_inv (df : list Candle) (num_bins : nat) (bins : list Q) :
  price_bins df num_bins = Some bins ->
  exists mn mx k,
    series_min (map c_low df) = Some mn /\ series_max (map c_high df) = Some mx
    /\ mn < mx /\ num_bins = S k /\ bins = linspace mn mx (S k + 1).
Proof.
  unfold price_bins.
  destruct (series_min (map c_low df)) as [mn|]; [|discriminate].
  destruct (series_max (map c_high df)) as [mx|]; [|discriminate].
  destruct (Qle_bool mx mn) eqn:E; [discriminate|].
  destruct num_bins as [|k]; [discriminate|].
  intro H. inversion H; subst. exists mn, mx, k. repeat split; auto.
  apply Qle_bool_false. exact E.
Qed.

Lemma Qsum_map_le (A : Type) (f g : A -> Q) (l : list A) :
  (forall x, In x l -> f x <= g x) -> Qsum (map f l) <= Qsum (map g l).
Proof.
  induction l as [|x r IH]; intro H; simpl.
  - apply Qle_refl.
  - rewrite !Qsum_cons.
    assert (f x <= g x) by (apply H; left; reflexivity).
    assert (Qsum (map f r) <= Qsum (map g r)) by (apply IH; intros y Hy; apply H; right; exact Hy).
    lra.
Qed.

Lemma Qsum_map_lt (A : Type) (f g : A -> Q) (l : list A) (b : A) :
  (forall x, In x l -> f x <= g x) -> In b l -> f b < g b ->
  Qsum (map f l) < Qsum (map g l).
Proof.
  intros H Hb Hlt. apply in_split in Hb. destruct Hb as (l1 & l2 & ->).
  rewrite !map_app. simpl. rewrite !Qsum_app, !Qsum_cons.
  assert (H1 : Qsum (map f l1) <= Qsum (map g l1)).
  { apply Qsum_map_le. intros x Hx. apply H. apply in_or_app. left. exact Hx. }
  assert (H2 : Qsum (map f l2) <= Qsum (map g l2)).
  { apply Qsum_map_le. intros x Hx. apply H. apply in_or_app. right. right. exact Hx. }
  lra.
Qed.

Lemma total_volume_is_gain (df : list Candle) (num_bins precision : nat)
  (bins : list Q) (p : Profile) :
  price_bins df num_bins = Some bins ->
  calculate_volume_profile df num_bins precision = Some p ->
  total_volume p == Qsum (map (bar_gain bins) df).
Proof.
  intros Hb. unfold calculate_volume_profile. rewrite Hb. intro Hp.
  destruct (profile_of_dict_fields _ _ _ _ Hp)
    as (poc & v & rest & vap & acc & vah & val & _ & _ & _ & _ & _ & _ & _ & -> & _).
  rewrite <- (Qsum_perm (map snd (build_volume_by_price bins precision df))).
  - apply build_sum.
  - apply Permutation_map, sorted_prices_perm.
Qed.

(** X18.  Volume is never created, and some is always lost.  Over bars of
    non-negative volume the total of the profile is at most the total of the
    bars; over bars of positive volume it is strictly less, because the bar
    that sets the top of the price range always gives up a share. *)
Theorem volume_never_created
  (df : list Candle) (num_bins precision : nat) (p : Profile) :
  calculate_volume_profile df num_bins precision = Some p ->
  (Forall (fun c => 0 <= c_volume c) df ->
     total_volume p <= Qsum (map c_volume df))
  /\ (Forall (fun c => 0 < c_volume c) df ->
      total_volume p < Qsum (map c_volume df)).
Proof.
  intro Hp.
  destruct (price_bins df num_bins) as [bins|] eqn:Hb.
  2:{ unfold calculate_volume_profile in Hp. rewrite Hb in Hp. discriminate. }
  rewrite (total_volume_is_gain _ _ _ _ _ Hb Hp).
  split; intro Hv; rewrite Forall_forall in Hv.
  - apply Qsum_map_le. intros x Hx. apply bar_gain_le. apply Hv. exact Hx.
  - destruct (price_bins_inv _ _ _ Hb) as (mn & mx & k & _ & Hmax & Hlt & _ & ->).
    pose proof (series_max_in _ _ Hmax) as Hin.
    apply in_map_iff in Hin. destruct Hin as (b & Hbh & Hbin).
    apply (Qsum_map_lt _ _ _ _ b).
    + intros x Hx. apply bar_gain_le. apply Qlt_le_weak. apply Hv. exact Hx.
    + exact Hbin.
    + apply bar_gain_top; [apply Hv; exact Hbin|].
      intros e He. rewrite Hbh. eapply linspace_le_stop; [|exact He]. lra.
Qed.

Lemma volume_never_created_witness :
  exists p,
    calculate_volume_profile rounding_bars 20 2 = Some p
    /\ Forall (fun c => 0 < c_volume c) rounding_bars
    /\ total_volume p < Qsum (map c_volume rounding_bars).
Proof.
  assert (H : exists p, calculate_volume_profile rounding_bars 20 2 = Some p).
  { eexists. vm_compute. reflexivity. }
  destruct H as [p Hp]. exists p. split; [exact Hp|].
  assert (Hv : Forall (fun c => 0 < c_volume c) rounding_bars).
  { repeat constructor. }
  split; [exact Hv|].
  exact (proj2 (volume_never_created rounding_bars 20 2 p Hp) Hv).
Defined.

(** ** The profile is returned whenever the price range allows it *)

Lemma dict_set_nonempty (d : PriceDict) (k v : Q) : dict_set d k v <> [].
Proof. destruct d as [|[k0 v0] r]; simpl; [|destruct (Qeq_bool k0 k)]; discriminate. Qed.

Lemma credit_fold_nonempty (bins : list Q) (precision : nat) (vpb : Q) (l : list nat) :
  forall d, d <> [] -> fold_left (credit_bin bins precision vpb) l d <> [].
Proof.
  induction l as [|i l IH]; intros d Hd; simpl; [exact Hd|].
  apply IH. unfold credit_bin. destruct (_ <? _)%nat; [apply dict_set_nonempty | exact Hd].
Qed.

Lemma add_bar_nonempty (bins : list Q) (precision : nat) (d : PriceDict) (row : Candle) :
  d <> [] -> add_bar bins precision d row <> [].
Proof.
  intro Hd. unfold add_bar. destruct (_ <? _)%nat; [|exact Hd].
  apply credit_fold_nonempty. exact Hd.
Qed.

Lemma build_fold_nonempty (bins : list Q) (precision : nat) (df : list Candle) :
  forall d, d <> [] -> fold_left (add_bar bins precision) df d <> [].
Proof.
  induction df as [|row r IH]; intros d Hd; simpl; [exact Hd|].
  apply IH. apply add_bar_nonempty. exact Hd.
Qed.

(** The bar that sets the bottom of the price range is credited to the
    first bin. *)
Lemma add_bar_bottom (mn mx : Q) (k precision : nat) (d : PriceDict) (row : Candle) :
  c_low row = mn -> c_low row <= c_high row ->
  add_bar (linspace mn mx (S k + 1)) precision d row <> [].
Proof.
  intros Hlow Hwf. unfold add_bar.
  assert (Hbins : exists e0 rest,
             linspace mn mx (S k + 1) = e0 :: rest /\ e0 == mn).
  { unfold linspace. replace (S k + 1)%nat with (S (k + 1)) by lia.
    cbn [seq map]. eexists _, _. split; [reflexivity|]. simpl. ring. }
  destruct Hbins as (e0 & rest & Hb & He0).
  assert (Hlen : length (linspace mn mx (S k + 1)) = (S k + 1)%nat).
  { unfold linspace. rewrite length_map, length_seq. reflexivity. }
  rewrite Hb in *. cbn [searchsorted_left searchsorted_right].
  assert (H1 : Qlt_bool e0 (c_low row) = false).
  { apply Qlt_bool_false. rewrite Hlow, He0. apply Qle_refl. }
  assert (H2 : Qle_bool e0 (c_high row) = true).
  { apply Qle_bool_iff. rewrite He0, <- Hlow. exact Hwf. }
  rewrite H1, H2. cbn [Nat.ltb Nat.leb]. rewrite Nat.sub_0_r.
  cbn [seq fold_left]. apply credit_fold_nonempty.
  unfold credit_bin.
  replace (0 <? length (e0 :: rest) - 1)%nat with true.
  - apply dict_set_nonempty.
  - symmetry. apply Nat.ltb_lt. rewrite Hlen. lia.
Qed.

Lemma build_nonempty (df : list Candle) (num_bins precision : nat) (bins : list Q) :
  price_bins df num_bins = Some bins ->
  Forall FVG.well_formed df ->
  build_volume_by_price bins precision df <> [].
Proof.
  intros Hb Hwf.
  destruct (price_bins_inv _ _ _ Hb) as (mn & mx & k & Hmin & _ & _ & _ & ->).
  pose proof (series_min_in _ _ Hmin) as Hin.
  apply in_map_iff in Hin. destruct Hin as (b & Hbl & Hbin).
  apply in_split in Hbin. destruct Hbin as (l1 & l2 & ->).
  unfold build_volume_by_price. rewrite fold_left_app. simpl.
  apply build_fold_nonempty. apply add_bar_bottom; [exact Hbl|].
  rewrite Forall_forall in Hwf. apply Hwf. apply in_or_app. right. left. reflexivity.
Qed.

(** X19.  Over well-formed bars the profile is returned whenever the frame is not
    empty, its price range is not degenerate and there is at least one bin:
    the branch for an empty dictionary is never taken and the value-area
    loop always ends. *)
Theorem volume_profile_returns
  (df : list Candle) (num_bins precision : nat) (bins : list Q) :
  price_bins df num_bins = Some bins ->
  Forall FVG.well_formed df ->
  exists p, calculate_volume_profile df num_bins precision = Some p.
Proof.
  intros Hb Hwf. unfold calculate_volume_profile. rewrite Hb.
  apply profile_of_dict_returns; [apply build_ok|].
  exact (build_nonempty df num_bins precision bins Hb Hwf).
Qed.

Lemma volume_profile_returns_witness :
  price_bins rounding_bars 20 = Some (linspace 0 20 21)
  /\ Forall FVG.well_formed rounding_bars
  /\ exists p, calculate_volume_profile rounding_bars 20 2 = Some p.
Proof.
  assert (Hb : price_bins rounding_bars 20 = Some (linspace 0 20 21)) by reflexivity.
  assert (Hwf : Forall FVG.well_formed rounding_bars).
  { repeat constructor; unfold FVG.well_formed; simpl; lra. }
  split; [exact Hb|]. split; [exact Hwf|].
  exact (volume_profile_returns rounding_bars 20 2 _ Hb Hwf).
Defined.

(** X20.  The profile is refused exactly when there is no usable price range:
    an empty frame, a highest high not above the lowest low, or no bin. *)
Theorem volume_profile_refused
  (df : list Candle) (num_bins precision : nat) :
  Forall FVG.well_formed df ->
  (calculate_volume_profile df num_bins precision = None
   <-> df = [] \/ num_bins = 0%nat
       \/ exists mn mx, series_min (map c_low df) = Some mn
                        /\ series_max (map c_high df) = Some mx /\ mx <= mn).
Proof.
  intro Hwf. split.
  - intro Hnone.
    destruct (price_bins df num_bins) as [bins|] eqn:Hb.
    + destruct (profile_of_dict_returns bins precision
                  (build_volume_by_price bins precision df) (build_ok _ _ _)
                  (build_nonempty df num_bins precision bins Hb Hwf)) as [p Hp].
      unfold calculate_volume_profile in Hnone. rewrite Hb in Hnone. congruence.
    + unfold price_bins in Hb.
      destruct df as [|c r]; [left; reflexivity|]. right.
      destruct (series_min (map c_low (c :: r))) as [mn|] eqn:Emin; [|discriminate].
      destruct (series_max (map c_high (c :: r))) as [mx|] eqn:Emax; [|discriminate].
      destruct (Qle_bool mx mn) eqn:E.
      * right. exists mn, mx. repeat split; auto. apply Qle_bool_iff. exact E.
      * destruct num_bins; [left; reflexivity | discriminate].
  - unfold calculate_volume_profile, price_bins.
    intros [-> | [-> | (mn & mx & -> & -> & Hle)]].
    + reflexivity.
    + destruct (series_min _); [|reflexivity].
      destruct (series_max _); [|reflexivity].
      destruct (Qle_bool _ _); reflexivity.
    + apply Qle_bool_iff in Hle. rewrite Hle. reflexivity.
Qed.

Lemma volume_profile_refused_witness :
  Forall FVG.well_formed top_edge_bars
  /\ calculate_volume_profile top_edge_bars 0 2 = None.
Proof.
  assert (Hwf : Forall FVG.well_formed top_edge_bars).
  { repeat constructor; unfold FVG.well_formed; simpl; lra. }
  split; [exact Hwf|].
  apply (proj2 (volume_profile_refused top_edge_bars 0 2 Hwf)).
  right. left. reflexivity.
Defined.

(** ** The point of control *)

Lemma dict_get_in (d : PriceDict) (k v : Q) :
  dict_ok d -> In (k, v) d -> dict_get d k 0 = v.
Proof.
  induction d as [|[k0 v0] r IH]; simpl; [intros _ []|].
  intros [Hk Hr] [Heq|Hin].
  - inversion Heq; subst. rewrite Qeq_bool_refl. reflexivity.
  - destruct (Qeq_bool k0 k) eqn:E.
    + apply Qeq_bool_iff in E. exfalso. apply (Hk k).
      * apply in_map_iff. exists (k, v). split; [reflexivity | exact Hin].
      * symmetry. exact E.
    + apply IH; assumption.
Qed.

Lemma sorted_prices_head_max (d : PriceDict) (poc v : Q) (rest : list (Q * Q)) :
  sorted_prices_of d = (poc, v) :: rest ->
  forall kv, In kv d -> snd kv <= v.
Proof.
  intros Hs kv Hin.
  assert (Hsorted : StronglySorted (fun a b : Q * Q => Qle_bool (snd b) (snd a) = true)
                      (sorted_prices_of d)).
  { unfold sorted_prices_of, sorted_by_key_reverse. apply sorted_sorted.
    - intros x y. destruct (Qlt_le_dec (snd x) (snd y)) as [H|H].
      + right. apply Qle_bool_iff. apply Qlt_le_weak. exact H.
      + left. apply Qle_bool_iff. exact H.
    - intros x y z H1 H2. apply Qle_bool_iff in H1, H2. apply Qle_bool_iff.
      eapply Qle_trans; eauto. }
  rewrite Hs in Hsorted. inversion Hsorted as [|x l _ Hall]; subst.
  apply (Permutation_in _ (sorted_prices_perm d)) in Hin. rewrite Hs in Hin.
  destruct Hin as [<-|Hin]; [apply Qle_refl|].
  rewrite Forall_forall in Hall. apply Qle_bool_iff. apply (Hall kv Hin).
Qed.

(** X21.  The point of control is the rounded price of a bin that holds the most
    volume: no bin of the dictionary holds more. *)
Theorem point_of_control_has_most_volume
  (df : list Candle) (num_bins precision : nat) (bins : list Q) (p : Profile) :
  price_bins df num_bins = Some bins ->
  calculate_volume_profile df num_bins precision = Some p ->
  let d := build_volume_by_price bins precision df in
  exists poc,
    In poc (map fst d)
    /\ point_of_control p = round poc precision
    /\ forall k, In k (map fst d) -> vol_of d k <= vol_of d poc.
Proof.
  intros Hb Hp d. unfold calculate_volume_profile in Hp. rewrite Hb in Hp.
  fold d in Hp.
  destruct (profile_of_dict_fields _ _ _ _ Hp)
    as (poc & v & rest & vap & acc & vah & val & Hs & _ & _ & _ & Epoc & _).
  assert (Hok : dict_ok d) by apply build_ok.
  assert (Hin : In (poc, v) d).
  { eapply Permutation_in; [apply Permutation_sym, sorted_prices_perm|].
    rewrite Hs. left. reflexivity. }
  exists poc. split; [|split; [exact Epoc|]].
  - apply in_map_iff. exists (poc, v). split; [reflexivity | exact Hin].
  - intros k Hk. apply in_map_iff in Hk. destruct Hk as ([k' w] & <- & Hkw).
    unfold vol_of. simpl.
    rewrite (dict_get_in d k' w Hok Hkw), (dict_get_in d poc v Hok Hin).
    apply (sorted_prices_head_max d poc v rest Hs (k', w) Hkw).
Qed.

Lemma point_of_control_has_most_volume_witness :
  exists p poc,
    price_bins rounding_bars 20 = Some (linspace 0 20 21)
    /\ calculate_volume_profile rounding_bars 20 2 = Some p
    /\ point_of_control p = round poc 2
    /\ vol_of (build_volume_by_price (linspace 0 20 21) 2 rounding_bars) (37 # 2)
       <= vol_of (build_volume_by_price (linspace 0 20 21) 2 rounding_bars) poc.
Proof.
  assert (Hb : price_bins rounding_bars 20 = Some (linspace 0 20 21)) by reflexivity.
  assert (H : exists p, calculate_volume_profile rounding_bars 20 2 = Some p).
  { eexists. vm_compute. reflexivity. }
  destruct H as [p Hp].
  destruct (point_of_control_has_most_volume rounding_bars 20 2 _ p Hb Hp)
    as (poc & _ & Hpoc & Hmax).
  exists p, poc. split; [exact Hb|]. split; [exact Hp|]. split; [exact Hpoc|].
  assert (Hkey : exists k, In k (map fst (build_volume_by_price (linspace 0 20 21) 2
                                            rounding_bars))
                           /\ k == 37 # 2).
  { eexists. split; [vm_compute; right; right; left; reflexivity | reflexivity]. }
  destruct Hkey as (k & Hk & Hq).
  unfold vol_of at 1. rewrite <- (dict_get_comp _ k (37 # 2) 0 Hq).
  apply (Hmax k Hk).
Defined.

(** ** Fibonacci levels *)

Lemma fib_inv (df : list Candle) (lookback : positive) (precision : nat) :
  calculate_fibonacci_levels df lookback precision = []
  \/ exists low high price,
       low < high
       /\ series_min (map c_low (tail (Pos.to_nat lookback) df)) = Some low
       /\ series_max (map c_high (tail (Pos.to_nat lookback) df)) = Some high
       /\ calculate_fibonacci_levels df lookback precision
          = map (fib_zone lookback precision price) (fib_levels low high).
Proof.
  unfold calculate_fibonacci_levels.
  destruct (_ <? _)%nat; [left; reflexivity|].
  destruct (series_max _) as [high|]; [|left; reflexivity].
  destruct (series_min _) as [low|]; [|left; reflexivity].
  destruct (last _ None) as [price|]; [|left; reflexivity].
  destruct (Qle_bool high low) eqn:E; [left; reflexivity|].
  right. exists low, high, price. repeat split; auto. apply Qle_bool_false. exact E.
Qed.

(** X22.  The shape of a non-empty result: nine zones, with levels in ascending
    order; the two extensions are upside targets; each of the seven
    retracements is a support or a resistance, and the supports come first:
    below a support every retracement is a support. *)
Theorem fibonacci_zones_shape
  (df : list Candle) (lookback : positive) (precision : nat) :
  let zs := calculate_fibonacci_levels df lookback precision in
  zs = []
  \/ (length zs = 9%nat
      /\ StronglySorted (fun a b => level_of a <= level_of b) zs
      /\ (forall z, In z (skipn 7 zs) -> z_type z = TARGET_UPSIDE)
      /\ (forall z, In z (firstn 7 zs) -> z_type z = SUPPORT \/ z_type z = RESISTANCE)
      /\ (forall i j d, (i <= j)%nat -> (j < 7)%nat ->
             z_type (nth j zs d) = SUPPORT -> z_type (nth i zs d) = SUPPORT)).
Proof.
  intro zs. destruct (fib_inv df lookback precision)
    as [H|(low & high & price & Hlt & _ & _ & H)]; [left; exact H|].
  right. unfold zs. rewrite H. clear H zs.
  unfold fib_levels. cbn [map fib_zone].
  change (Qle_bool 0 1) with true. change (Qle_bool (236 # 1000) 1) with true.
  change (Qle_bool (382 # 1000) 1) with true. change (Qle_bool (1 # 2) 1) with true.
  change (Qle_bool (618 # 1000) 1) with true. change (Qle_bool (786 # 1000) 1) with true.
  change (Qle_bool 1 1) with true. change (Qle_bool (1272 # 1000) 1) with false.
  change (Qle_bool (1618 # 1000) 1) with false. cbv iota.
  split; [reflexivity|]. split; [|split; [|split]].
  - repeat (constructor; [|repeat constructor; cbn [level_of z_payload];
                           apply round_mono; lra]).
    constructor.
  - cbn [skipn]. intros z [<-|[<-|[]]]; reflexivity.
  - cbn [firstn]. intros z Hz.
    repeat (destruct Hz as [<-|Hz];
            [cbn [z_type]; destruct (Qlt_bool _ price); auto|]).
    destruct Hz.
  - intros i j d Hij Hj.
    destruct j as [|[|[|[|[|[|[|j]]]]]]]; try lia;
      destruct i as [|[|[|[|[|[|[|i]]]]]]]; try lia;
      cbn [nth z_type];
      repeat match goal with
             | |- context [Qlt_bool ?a price] =>
               let E := fresh "E" in
               destruct (Qlt_bool a price) eqn:E;
               [apply Qlt_bool_iff in E | apply Qlt_bool_false in E]
             end;
      intro Hs; try discriminate Hs; try reflexivity; exfalso; lra.
Qed.

Lemma tail_length {A : Type} (n : nat) (l : list A) :
  (n <= length l)%nat -> length (tail n l) = n.
Proof. intro H. unfold tail. rewrite length_skipn. lia. Qed.

Lemma last_close_defined (c : Candle) (r : list Candle) :
  exists price, last (map (fun c => Some (c_close c)) (c :: r)) None = Some price.
Proof.
  revert c. induction r as [|c' r' IH]; intro c0.
  - exists (c_close c0). reflexivity.
  - destruct (IH c') as [price Hp]. exists price. exact Hp.
Qed.

Lemma fibonacci_zones_shape_witness :
  length (calculate_fibonacci_levels rising_frame 50 2) = 9%nat
  /\ StronglySorted (fun a b => level_of a <= level_of b)
       (calculate_fibonacci_levels rising_frame 50 2).
Proof.
  pose proof (fibonacci_zones_shape rising_frame 50 2) as H. cbv zeta in H.
  destruct H as [H|(Hl & Hs & _)].
  - vm_compute in H. discriminate H.
  - split; assumption.
Defined.

(** X23.  No zone is produced exactly when the frame has fewer bars than the
    lookback, or when the highest high of the lookback window does not
    exceed its lowest low. *)
Theorem fibonacci_refused
  (df : list Candle) (lookback : positive) (precision : nat) :
  calculate_fibonacci_levels df lookback precision = []
  <-> (length df < Pos.to_nat lookback)%nat
      \/ exists low high,
           series_min (map c_low (tail (Pos.to_nat lookback) df)) = Some low
           /\ series_max (map c_high (tail (Pos.to_nat lookback) df)) = Some high
           /\ high <= low.
Proof.
  pose proof (Pos2Nat.is_pos lookback) as Hpos.
  unfold calculate_fibonacci_levels. destruct (_ <? _)%nat eqn:E.
  - split; [intros _; left; apply Nat.ltb_lt; exact E | reflexivity].
  - apply Nat.ltb_ge in E.
    assert (Hn : length (tail (Pos.to_nat lookback) df) = Pos.to_nat lookback)
      by (apply tail_length; exact E).
    cbv zeta.
    destruct (tail (Pos.to_nat lookback) df) as [|c0 r0] eqn:Et; [simpl in Hn; lia|].
    destruct df as [|c r]; [simpl in E; lia|].
    destruct (last_close_defined c r) as [price Hp]. rewrite Hp.
    cbn [map series_max series_min].
    destruct (Qle_bool _ _) eqn:Eq.
    + split; [|reflexivity]. intros _. right. eexists. eexists.
      split; [reflexivity|]. split; [reflexivity|]. apply Qle_bool_iff. exact Eq.
    + split.
      * intro H. apply (f_equal (@length _)) in H. rewrite length_map in H.
        discriminate H.
      * intros [H|(low & high & Hl & Hh & Hle)]; [lia|].
        inversion Hl; inversion Hh; subst. apply Qle_bool_iff in Hle. congruence.
Qed.

(** ** Ichimoku *)

(** X24.  The indicator is refused exactly on frames of fewer than 52 bars. *)
Theorem ichimoku_refused (df : list Candle) :
  calculate_ichimoku df = None <-> (length df < 52)%nat.
Proof.
  unfold calculate_ichimoku. destruct (_ <? _)%nat eqn:E.
  - split; [intros _; apply Nat.ltb_lt; exact E | reflexivity].
  - apply Nat.ltb_ge in E. destruct df as [|c r]; [simpl in E; lia|].
    destruct (last_close_defined c r) as [price Hp]. cbv zeta. rewrite Hp.
    split; [discriminate | lia].
Qed.

Lemma span_b_undefined (df : list Candle) :
  (length df < 78)%nat ->
  shifted kijun_period (midline senkou_b_period df) (length df - 1) = None.
Proof.
  intro H. unfold shifted, midline, rolling_max, rolling_min, window_at,
             kijun_period, senkou_b_period.
  destruct (26 <=? length df - 1)%nat; [|reflexivity].
  assert (E : (52 <=? length df - 1 - 26 + 1)%nat = false) by (apply Nat.leb_gt; lia).
  rewrite E. reflexivity.
Qed.

Lemma truthy_some (x : option Q) (v : Q) : truthy x = Some v -> x = Some v /\ ~ v == 0.
Proof.
  destruct x as [w|]; simpl; [|discriminate].
  destruct (Qeq_bool w 0) eqn:E; [discriminate|].
  intro H. inversion H; subst. split; [reflexivity|].
  intro Hz. apply Qeq_bool_iff in Hz. congruence.
Qed.

(** X25.  Two of the reported lines are missing by construction: the lagging span
    is read one place past the end of the shifted column and is never
    reported; the leading span B needs 78 bars, and below that the cloud
    status is neutral. *)
Theorem ichimoku_missing_spans (df : list Candle) (r : Ichimoku) :
  calculate_ichimoku df = Some r ->
  chikou_span r = None
  /\ ((length df < 78)%nat ->
      senkou_span_b r = None /\ cloud_status r = cloud_neutral).
Proof.
  unfold calculate_ichimoku. destruct (_ <? _)%nat; [discriminate|].
  cbv zeta. destruct (last _ None) as [price|]; [|discriminate].
  intro H. inversion H; subst; clear H. cbn [chikou_span senkou_span_b cloud_status].
  split.
  - destruct (kijun_period <? length df)%nat eqn:E; [|reflexivity].
    apply nth_error_None. rewrite length_map. apply Nat.ltb_lt in E. lia.
  - intro Hlen. rewrite (span_b_undefined df Hlen). cbn [truthy].
    split; [reflexivity|]. destruct (truthy _); reflexivity.
Qed.

Lemma ichimoku_missing_spans_witness :
  exists r,
    calculate_ichimoku rising_frame = Some r
    /\ chikou_span r = None /\ senkou_span_b r = None
    /\ cloud_status r = cloud_neutral.
Proof.
  assert (H : exists r, calculate_ichimoku rising_frame = Some r).
  { eexists. vm_compute. reflexivity. }
  destruct H as [r Hr]. exists r.
  destruct (ichimoku_missing_spans rising_frame r Hr) as [Hc Hb].
  assert (Hlen : (length rising_frame < 78)%nat) by (vm_compute; lia).
  destruct (Hb Hlen) as [Hb1 Hb2]. repeat split; assumption.
Defined.

(** X26.  What the two labels mean.  A bullish cloud status says that both leading
    spans are reported and the last close is above them, a bearish one that
    it is below them; the trend label compares the two reported lines in the
    same way. *)
Theorem ichimoku_labels (df : list Candle) (r : Ichimoku) :
  calculate_ichimoku df = Some r ->
  exists price,
    last (map (fun c => Some (c_close c)) df) None = Some price
    /\ (cloud_status r = cloud_bullish ->
        exists a b, senkou_span_a r = Some a /\ senkou_span_b r = Some b
                    /\ a < price /\ b < price)
    /\ (cloud_status r = cloud_bearish ->
        exists a b, senkou_span_a r = Some a /\ senkou_span_b r = Some b
                    /\ price < a /\ price < b)
    /\ (trend_strength r = cloud_bullish ->
        exists t k, tenkan_sen r = Some t /\ kijun_sen r = Some k /\ k < t)
    /\ (trend_strength r = cloud_bearish ->
        exists t k, tenkan_sen r = Some t /\ kijun_sen r = Some k /\ t < k).
Proof.
  unfold calculate_ichimoku. destruct (_ <? _)%nat; [discriminate|].
  cbv zeta. destruct (last _ None) as [price|]; [|discriminate].
  intro H. inversion H; subst; clear H.
  cbn [cloud_status trend_strength senkou_span_a senkou_span_b tenkan_sen kijun_sen].
  exists price. split; [reflexivity|].
  repeat split.
  - destruct (truthy (shifted _ _ _)) as [a|]; [|discriminate].
    destruct (truthy (shifted _ _ _)) as [b|]; [|discriminate].
    destruct (Qlt_bool (Qmax a b) price) eqn:E1.
    + intros _. exists a, b. apply Qlt_bool_iff in E1.
      pose proof (Q.le_max_l a b). pose proof (Q.le_max_r a b).
      repeat split; try reflexivity; lra.
    + destruct (Qlt_bool price (Qmin a b)); discriminate.
  - destruct (truthy (shifted _ _ _)) as [a|]; [|discriminate].
    destruct (truthy (shifted _ _ _)) as [b|]; [|discriminate].
    destruct (Qlt_bool (Qmax a b) price) eqn:E1; [discriminate|].
    destruct (Qlt_bool price (Qmin a b)) eqn:E2; [|discriminate].
    intros _. exists a, b. apply Qlt_bool_iff in E2.
    pose proof (Q.le_min_l a b). pose proof (Q.le_min_r a b).
    repeat split; try reflexivity; lra.
  - destruct (truthy (midline tenkan_period _ _)) as [t|]; [|discriminate].
    destruct (truthy (midline kijun_period _ _)) as [k|]; [|discriminate].
    destruct (Qlt_bool k t) eqn:E1.
    + intros _. exists t, k. apply Qlt_bool_iff in E1. repeat split; auto.
    + destruct (Qlt_bool t k); discriminate.
  - destruct (truthy (midline tenkan_period _ _)) as [t|]; [|discriminate].
    destruct (truthy (midline kijun_period _ _)) as [k|]; [|discriminate].
    destruct (Qlt_bool k t) eqn:E1; [discriminate|].
    destruct (Qlt_bool t k) eqn:E2; [|discriminate].
    intros _. exists t, k. apply Qlt_bool_iff in E2. repeat split; auto.
Qed.

Lemma ichimoku_labels_witness :
  exists r price a b,
    calculate_ichimoku long_rising_frame = Some r
    /\ cloud_status r = cloud_bullish
    /\ last (map (fun c => Some (c_close c)) long_rising_frame) None = Some price
    /\ senkou_span_a r = Some a /\ senkou_span_b r = Some b
    /\ a < price /\ b < price.
Proof.
  assert (H : exists r, calculate_ichimoku long_rising_frame = Some r
                        /\ cloud_status r = cloud_bullish).
  { eexists. split; vm_compute; reflexivity. }
  destruct H as (r & Hr & Hc).
  destruct (ichimoku_labels long_rising_frame r Hr) as (price & Hp & Hbull & _).
  destruct (Hbull Hc) as (a & b & Ha & Hb & H1 & H2).
  exists r, price, a, b. repeat split; assumption.
Defined.

(** ** Large volume bars *)

Lemma Qsum_const (A : Type) (m : Q) (l : list A) :
  Qsum (map (fun _ => m) l) == inject_Z (Z.of_nat (length l)) * m.
Proof.
  induction l as [|x r IH].
  - unfold Qsum. simpl. ring.
  - change (map (fun _ : A => m) (x :: r)) with (m :: map (fun _ : A => m) r).
    rewrite Qsum_cons, IH.
    change (length (x :: r)) with (S (length r)). rewrite inject_nat_S. ring.
Qed.

Lemma length_pos_Q (A : Type) (l : list A) :
  l <> [] -> 0 < inject_Z (Z.of_nat (length l)).
Proof.
  intro H. destruct l as [|x r]; [contradiction|].
  change 0 with (inject_Z 0). rewrite <- Zlt_Qlt. simpl. lia.
Qed.

Lemma exists_le_mean (l : list Q) : l <> [] -> exists x, In x l /\ x <= mean l.
Proof.
  intro Hne. destruct (series_min l) as [m|] eqn:Em.
  - exists m. split; [apply series_min_in; exact Em|].
    unfold mean. apply Qle_shift_div_l; [apply length_pos_Q; exact Hne|].
    rewrite Qmult_comm, <- (Qsum_const Q m l).
    rewrite <- (map_id l) at 2. apply Qsum_map_le.
    intros x Hx. apply (series_min_le l m x Em Hx).
  - destruct l; [contradiction | discriminate].
Qed.

Lemma elem_le_sum (l : list Q) (x : Q) :
  Forall (fun y => 0 <= y) l -> In x l -> x <= Qsum l.
Proof.
  induction 1 as [|y r Hy Hr IH]; [intros []|].
  intros [->|Hin]; rewrite Qsum_cons.
  - pose proof (Qsum_nonneg r Hr). lra.
  - specialize (IH Hin). lra.
Qed.

Lemma mean_nonneg (l : list Q) :
  l <> [] -> Forall (fun y => 0 <= y) l -> 0 <= mean l.
Proof.
  intros Hne H. unfold mean. apply Qle_shift_div_l; [apply length_pos_Q; exact Hne|].
  pose proof (Qsum_nonneg l H). lra.
Qed.

Lemma mean_pos (l : list Q) (x : Q) :
  Forall (fun y => 0 <= y) l -> In x l -> 0 < x -> 0 < mean l.
Proof.
  intros H Hin Hx. unfold mean.
  assert (Hne : l <> []) by (intro E; subst; destruct Hin).
  apply Qlt_shift_div_l; [apply length_pos_Q; exact Hne|].
  pose proof (elem_le_sum l x H Hin). lra.
Qed.

Lemma filter_length_le' (A : Type) (f : A -> bool) (l : list A) :
  (length (filter f l) <= length l)%nat.
Proof. induction l as [|x r IH]; simpl; [lia|]. destruct (f x); simpl; lia. Qed.

Lemma filter_length_lt (A : Type) (f : A -> bool) (l : list A) (x : A) :
  In x l -> f x = false -> (length (filter f l) < length l)%nat.
Proof.
  induction l as [|y r IH]; [intros []|].
  intros [->|Hin] Hf; simpl.
  - rewrite Hf. pose proof (filter_length_le' A f r). lia.
  - specialize (IH Hin Hf). destruct (f y); simpl; lia.
Qed.

(** X27.  On quoted bars every reported entry is a bar of the last twenty whose
    volume exceeds the threshold; no ratio divides by zero, the volume ratio
    is at least the rounded multiplier, and the sign of the price change
    agrees with the bar type. *)
Theorem large_bars_reported
  (df : list Candle) (multiplier : Q) (e : LargeBar) :
  Forall quoted df ->
  In e (identify_large_volume_bars df multiplier) ->
  exists row ratio change,
    In row (tail 20 df)
    /\ lb_volume e = c_volume row
    /\ mean (map c_volume df) * multiplier < c_volume row
    /\ lb_volume_ratio e = Some ratio /\ round multiplier 2 <= ratio
    /\ lb_price_change e = Some change
    /\ (lb_type e = bar_bullish -> c_open row < c_close row /\ 0 <= change)
    /\ (lb_type e = bar_bearish -> c_close row < c_open row /\ change <= 0)
    /\ (lb_type e = bar_neutral -> c_close row == c_open row /\ change == 0).
Proof.
  intros Hq Hin. unfold identify_large_volume_bars in Hin.
  destruct df as [|c0 r0] eqn:Edf; [destruct Hin|]. rewrite <- Edf in *.
  cbv zeta in Hin.
  destruct (has_datetime df && existsb _ _); [destruct Hin|].
  apply in_map_iff in Hin. destruct Hin as (row & <- & Hrow).
  apply filter_In in Hrow. destruct Hrow as [Htail Hthr].
  apply Qlt_bool_iff in Hthr.
  assert (Hdf : In row df) by (unfold tail in Htail; eapply In_skipn; exact Htail).
  assert (Hrq : quoted row) by (rewrite Forall_forall in Hq; apply Hq; exact Hdf).
  destruct Hrq as [Hopen Hvol].
  assert (Hvols : Forall (fun y => 0 <= y) (map c_volume df)).
  { apply Forall_forall. intros y Hy. apply in_map_iff in Hy.
    destruct Hy as (c & <- & Hc). rewrite Forall_forall in Hq. apply (Hq c Hc). }
  assert (Hne : map c_volume df <> []) by (rewrite Edf; discriminate).
  set (avg := mean (map c_volume df)) in *.
  assert (Havg0 : 0 <= avg) by (apply mean_nonneg; assumption).
  assert (Havg : 0 < avg).
  { destruct (Qlt_le_dec 0 (c_volume row)) as [Hp|Hz].
    - apply (mean_pos _ (c_volume row) Hvols); [|exact Hp].
      apply in_map. exact Hdf.
    - assert (Hv0 : c_volume row == 0) by lra.
      destruct (Qlt_le_dec 0 avg) as [Ha|Ha]; [exact Ha|].
      assert (Ha0 : avg == 0) by lra. rewrite Ha0, Hv0 in Hthr. lra. }
  cbn [lb_volume lb_volume_ratio lb_type lb_price_change].
  unfold quotient.
  assert (E1 : Qeq_bool avg 0 = false).
  { destruct (Qeq_bool avg 0) eqn:E; [|reflexivity].
    apply Qeq_bool_iff in E. lra. }
  assert (E2 : Qeq_bool (c_open row) 0 = false).
  { destruct (Qeq_bool (c_open row) 0) eqn:E; [|reflexivity].
    apply Qeq_bool_iff in E. lra. }
  rewrite E1, E2. cbn [option_map].
  eexists row, _, _. split; [exact Htail|]. split; [reflexivity|].
  split; [exact Hthr|]. split; [reflexivity|]. split.
  { apply round_mono. apply Qle_shift_div_l; [exact Havg|]. lra. }
  split; [reflexivity|].
  set (x := (c_close row - c_open row) / c_open row).
  assert (Hsign : (c_open row < c_close row -> 0 <= x)
                  /\ (c_close row < c_open row -> x <= 0)
                  /\ (c_close row == c_open row -> x == 0)).
  { unfold x. repeat split; intro H.
    - apply Qle_shift_div_l; [exact Hopen | lra].
    - apply Qle_shift_div_r; [exact Hopen | lra].
    - rewrite H. field. lra. }
  destruct Hsign as (Hs1 & Hs2 & Hs3).
  unfold bar_type_of.
  destruct (Qlt_bool (c_open row) (c_close row)) eqn:Eb.
  - apply Qlt_bool_iff in Eb. repeat split; try discriminate; try exact Eb.
    apply (round_ge_int 0). specialize (Hs1 Eb). change (inject_Z 0) with 0. lra.
  - apply Qlt_bool_false in Eb.
    destruct (Qlt_bool (c_close row) (c_open row)) eqn:Ec.
    + apply Qlt_bool_iff in Ec. repeat split; try discriminate; try exact Ec.
      apply (round_le_int 0). specialize (Hs2 Ec). change (inject_Z 0) with 0. lra.
    + apply Qlt_bool_false in Ec.
      assert (Heq : c_close row == c_open row) by lra.
      specialize (Hs3 Heq).
      repeat split; try discriminate; try exact Heq.
      apply Qle_antisym.
      * apply (round_le_int 0). change (inject_Z 0) with 0. lra.
      * apply (round_ge_int 0). change (inject_Z 0) with 0. lra.
Qed.

Lemma large_bars_reported_witness :
  exists e row ratio,
    In e (identify_large_volume_bars spike_frame 2)
    /\ Forall quoted spike_frame
    /\ In row (tail 20 spike_frame)
    /\ lb_volume e = c_volume row
    /\ lb_volume_ratio e = Some ratio /\ round 2 2 <= ratio.
Proof.
  assert (Hq : Forall quoted spike_frame).
  { repeat constructor; simpl; lra. }
  assert (H : exists e, In e (identify_large_volume_bars spike_frame 2)).
  { eexists. vm_compute. left. reflexivity. }
  destruct H as [e He].
  destruct (large_bars_reported spike_frame 2 e Hq He)
    as (row & ratio & change & H1 & H2 & _ & H4 & H5 & _).
  exists e, row, ratio. repeat split; assumption.
Defined.

(** X28.  With a multiplier of at least one, a frame of at most twenty bars with
    no negative volume has a bar that is not reported: the bars cannot all
    exceed their own average. *)
Theorem some_bar_not_large (df : list Candle) (multiplier : Q) :
  df <> [] -> (length df <= 20)%nat ->
  Forall (fun c => 0 <= c_volume c) df ->
  1 <= multiplier ->
  (length (identify_large_volume_bars df multiplier) < length df)%nat.
Proof.
  intros Hne Hlen Hvol Hm. unfold identify_large_volume_bars.
  destruct df as [|c0 r0] eqn:Edf; [contradiction|]. rewrite <- Edf in *.
  cbv zeta.
  destruct (has_datetime df && existsb _ _); [rewrite Edf; simpl; lia|].
  rewrite length_map.
  assert (Ht : tail 20 df = df).
  { unfold tail. replace (length df - 20)%nat with 0%nat by lia. reflexivity. }
  rewrite Ht.
  assert (Hvols : Forall (fun y => 0 <= y) (map c_volume df)).
  { apply Forall_forall. intros y Hy. apply in_map_iff in Hy.
    destruct Hy as (c & <- & Hc). rewrite Forall_forall in Hvol. apply (Hvol c Hc). }
  assert (Hne' : map c_volume df <> []) by (rewrite Edf; discriminate).
  destruct (exists_le_mean (map c_volume df) Hne') as (x & Hx & Hle).
  apply in_map_iff in Hx. destruct Hx as (row & <- & Hrow).
  apply (filter_length_lt _ _ df row Hrow).
  apply Qlt_bool_false.
  pose proof (mean_nonneg _ Hne' Hvols) as H0.
  assert (mean (map c_volume df) * 1 <= mean (map c_volume df) * multiplier)
    by (rewrite (Qmult_comm _ 1), (Qmult_comm _ multiplier);
        apply Qmult_le_compat_r; assumption).
  lra.
Qed.

Lemma some_bar_not_large_witness :
  (length (identify_large_volume_bars spike_frame 2) < length spike_frame)%nat.
Proof.
  apply some_bar_not_large.
  - discriminate.
  - simpl. lia.
  - repeat constructor; simpl; lra.
  - lra.
Defined.

End TechnicalAnalysisMore.

(* ========================================================================= *)
(** * More on the zones tool *)

Module TechnicalZonesMore.

Import NumericFacts TechnicalAnalysis TechnicalZones TechnicalZonesFacts.
Import Indicators ZoneSamples.

(** X29.  The overall status is read off the three frame statuses: error when
    some frame is in error, success when all three succeed, partial_success
    otherwise; it is never warning. *)
Theorem overall_status_rollup (cfg : Config) (provider : TimeframeKey -> Feeds) :
  let st := fun tf => status (process_timeframe cfg tf (provider tf)) in
  let r := financial_technical_zones cfg provider in
  (response_status r = error <-> exists tf, st tf = error)
  /\ (response_status r = success <-> forall tf, st tf = success)
  /\ (response_status r = partial_success
      <-> (forall tf, st tf <> error) /\ exists tf, st tf <> success)
  /\ response_status r <> warning.
Proof.
  intros st r.
  assert (Hr : response_status r
               = rollup (rollup (rollup success (st tf_1m)) (st tf_5m)) (st tf_1d))
    by reflexivity.
  rewrite Hr. clear Hr r. clearbody st.
  destruct (st tf_1m) eqn:E1, (st tf_5m) eqn:E2, (st tf_1d) eqn:E3;
    cbn [rollup Status_eqb];
    (split;
     [ split;
       [ intro H; try discriminate H;
         first [exists tf_1m; assumption | exists tf_5m; assumption
               | exists tf_1d; assumption]
       | intros [tf H]; try reflexivity; destruct tf; congruence ]
     | split;
       [ split;
         [ intros H tf; try discriminate H; destruct tf; assumption
         | intro H; try reflexivity;
           pose proof (H tf_1m); pose proof (H tf_5m); pose proof (H tf_1d);
           congruence ]
       | split;
         [ split;
           [ intro H; try discriminate H;
             (split;
              [ intros tf; destruct tf; congruence
              | first [exists tf_1m; congruence | exists tf_5m; congruence
                      | exists tf_1d; congruence] ])
           | intros [Hne [tf Hx]]; try reflexivity; exfalso;
             first [apply (Hne tf_1m); assumption
                   | apply (Hne tf_5m); assumption
                   | apply (Hne tf_1d); assumption
                   | destruct tf; congruence] ]
         | discriminate ] ] ]).
Qed.

Lemma bars_step_success (cfg : Config) (tf : TimeframeKey) (d : option (list Candle)) :
  frame_status (bars_step cfg tf d frame_init) = success
  <-> d = None
      \/ exists bars vp,
           d = Some bars
           /\ calculate_volume_profile bars default_num_bins 2 = Some vp
           /\ calculate_fibonacci_levels bars default_lookback_periods 2 <> [].
Proof.
  unfold bars_step. destruct d as [[|b bs]|].
  - cbn. split; [discriminate|]. intros [H|(bars & vp & H & Hvp & _)]; [discriminate|].
    inversion H; subst. vm_compute in Hvp. discriminate.
  - destruct (calculate_volume_profile (b :: bs) default_num_bins 2) as [vp|] eqn:Evp;
      destruct (calculate_fibonacci_levels (b :: bs) default_lookback_periods 2)
        as [|z zs] eqn:Efib; cbn.
    + split; [discriminate|]. intros [H|(bars & vp' & H & _ & Hf)]; [discriminate|].
      inversion H; subst. congruence.
    + split; [|reflexivity]. intros _. right. exists (b :: bs), vp.
      split; [reflexivity|]. split; [exact Evp|]. rewrite Efib. discriminate.
    + split; [discriminate|]. intros [H|(bars & vp' & H & Hv & _)]; [discriminate|].
      inversion H; subst. congruence.
    + split; [discriminate|]. intros [H|(bars & vp' & H & Hv & _)]; [discriminate|].
      inversion H; subst. congruence.
  - cbn. split; [|reflexivity]. intros _. left. reflexivity.
Qed.

Lemma atr_step_success (a : option (list AtrItem)) (st : Frame) :
  frame_status (fst (atr_step a st)) = success
  <-> frame_status st = success
      /\ forall items, a = Some items -> items = [] \/ last items None <> None.
Proof.
  unfold atr_step. destruct a as [[|x xs]|].
  - cbn. split; [intro H; split; [exact H|]; intros items E; inversion E; auto | tauto].
  - destruct (last (x :: xs) None) as [v|] eqn:El; cbn.
    + split; [|tauto]. intro H. split; [exact H|]. intros items E.
      inversion E; subst. right. rewrite El. discriminate.
    + split.
      * unfold degrade. destruct (frame_status st); cbn; discriminate.
      * intros [_ H]. destruct (H _ eq_refl) as [H'|H']; [discriminate|].
        contradiction.
  - cbn. split; [intro H; split; [exact H|]; intros items E; discriminate | tauto].
Qed.

Lemma finalize_success (st : Frame) (atr_value : option Q) :
  status (finalize st atr_value) = success
  <-> frame_fetch_failed st = false /\ zones st <> [] /\ frame_status st = success.
Proof.
  unfold finalize. destruct (frame_fetch_failed st).
  - cbn. split; [discriminate | intros [H _]; discriminate].
  - destruct (zones st) as [|z zs]; cbn.
    + split; [discriminate | intros (_ & H & _); contradiction].
    + split; [intro H; repeat split; [discriminate | exact H] | tauto].
Qed.

(** X30.  A frame reports success exactly when nothing went wrong: no fetch
    returned null, the volume profile was computed, Fibonacci zones were
    found, and the ATR feed was empty or its last item parsed. *)
Theorem frame_success_iff (cfg : Config) (tf : TimeframeKey) (feeds : Feeds) :
  status (process_timeframe cfg tf feeds) = success
  <-> some_fetch_null tf feeds = false
      /\ (exists bars vp,
            df_bars feeds = Some bars
            /\ calculate_volume_profile bars default_num_bins 2 = Some vp
            /\ calculate_fibonacci_levels bars default_lookback_periods 2 <> [])
      /\ (forall items, atr_data feeds = Some items ->
            items = [] \/ last items None <> None).
Proof.
  unfold process_timeframe.
  destruct (bars_step_spec cfg tf (df_bars feeds) frame_init) as (Hf1 & _ & Hz1).
  pose proof (bars_step_success cfg tf (df_bars feeds)) as Hs1.
  set (st1 := bars_step cfg tf (df_bars feeds) frame_init) in *.
  destruct (atr_step_spec (atr_data feeds) st1) as (Hf2 & _ & Hz2).
  pose proof (atr_step_success (atr_data feeds) st1) as Hs2.
  destruct (atr_step (atr_data feeds) st1) as [st2 atr_value]. cbn [fst] in *.
  set (st3 := mkState (zones st2 ++ atr_zones cfg tf (df_bars feeds) atr_value)
                (frame_status st2) (frame_message st2) (frame_fetch_failed st2)).
  destruct (prev_day_step_spec tf (prev_day_df feeds) st3) as (Hf4 & Hs4 & extra & Hz4).
  set (st4 := prev_day_step tf (prev_day_df feeds) st3) in *.
  rewrite finalize_success, Hs4. cbn [frame_status st3]. rewrite Hs2, Hs1.
  assert (Hflag : frame_fetch_failed st4 = some_fetch_null tf feeds).
  { rewrite Hf4. cbn [frame_fetch_failed st3]. rewrite Hf2, Hf1. reflexivity. }
  rewrite Hflag.
  assert (Hz : zones st4
               = ((bar_zones cfg tf feeds
                   ++ atr_zones cfg tf (df_bars feeds) atr_value) ++ extra)%list).
  { rewrite Hz4. cbn [zones st3]. rewrite Hz2, Hz1, bar_zones_feeds. reflexivity. }
  split.
  - intros (Hn & _ & [Hd|Hb] & Ha).
    + exfalso. unfold some_fetch_null in Hn. rewrite Hd in Hn. discriminate.
    + repeat split; assumption.
  - intros (Hn & (bars & vp & Hd & Hvp & Hfib) & Ha).
    split; [exact Hn|]. split; [|split; [right; exists bars, vp; auto | exact Ha]].
    rewrite Hz. unfold bar_zones. rewrite Hd.
    destruct bars as [|b bs]; [vm_compute in Hvp; discriminate|].
    rewrite Hvp.
    destruct (calculate_fibonacci_levels (b :: bs) default_lookback_periods 2)
      as [|z zs]; [contradiction|].
    unfold vp_zones. cbn -[map]. discriminate.
Qed.

Lemma frame_success_iff_witness :
  status (process_timeframe sample_config tf_1m full_feeds) = success.
Proof.
  apply (proj2 (frame_success_iff sample_config tf_1m full_feeds)).
  split; [reflexivity|]. split.
  - eexists. eexists. split; [reflexivity|].
    split; [vm_compute; reflexivity|]. vm_compute. discriminate.
  - intros items H. inversion H; subst. right. discriminate.
Defined.

Lemma overall_status_rollup_witness :
  response_status (financial_technical_zones sample_config provider_5m_null) = error.
Proof.
  pose proof (overall_status_rollup sample_config provider_5m_null) as H.
  cbv zeta in H. destruct H as [[_ H] _]. apply H.
  exists tf_5m. vm_compute. reflexivity.
Defined.

End TechnicalZonesMore.

(* ================================================================== *)
(** * Properties of the gap tool *)
(* ================================================================== *)

Module FVGToolFacts.

Import NumericFacts FVG FVGFacts FVGStatistics FVGMore FVGTool.

Lemma str_dict_get_set {A : Type} (d : StrDict A) (k k' : string) (v : A) :
  str_dict_get (str_dict_set d k v) k'
  = if String.eqb k k' then Some v else str_dict_get d k'.
Proof.
  induction d as [|[k0 v0] r IH]; simpl.
  - reflexivity.
  - destruct (String.eqb k0 k) eqn:E0; simpl.
    + apply String.eqb_eq in E0. subst k0.
      destruct (String.eqb k k'); reflexivity.
    + destruct (String.eqb k0 k') eqn:E1; [|exact IH].
      apply String.eqb_eq in E1. subst k'. rewrite String.eqb_sym, E0. reflexivity.
Qed.

Lemma detect_at_now (self : FVGCalculator) (dfa : list Candle) (tf : string)
  (price : Q) (now now' : Z) (i : nat) :
  length (opt_list (detect_at self dfa tf price now i))
  = length (opt_list (detect_at self dfa tf price now' i)).
Proof.
  unfold detect_at.
  destruct (nth_error dfa i); [|reflexivity].
  destruct (nth_error dfa (i - 1)); [|reflexivity].
  destruct (nth_error dfa (i - 2)); [|reflexivity].
  destruct (find_pattern _ _) as [[[kind lo] hi]|]; [|reflexivity].
  destruct (too_small _ _ _); reflexivity.
Qed.

(** The number of gaps found does not depend on the wall clock. *)
Lemma detect_fvgs_length_now (self : FVGCalculator) (df : list Candle) (tf : string)
  (price : Q) (lookback : nat) (now now' : Z) :
  length (detect_fvgs self df tf price lookback now)
  = length (detect_fvgs self df tf price lookback now').
Proof.
  unfold detect_fvgs. destruct (_ <? _)%nat; [reflexivity|]. cbv zeta.
  induction (rev (seq 2 (length (tail (Nat.min lookback (length df)) df) - 2)))
    as [|i r IH]; [reflexivity|].
  cbn [flat_map]. rewrite !length_app, IH. f_equal. apply detect_at_now.
Qed.

Lemma detected_timeframe (self : FVGCalculator) (df : list Candle) (tf : string)
  (price : Q) (lookback : nat) (now : Z) (g : FairValueGap) :
  In g (detect_fvgs self df tf price lookback now) -> timeframe g = tf.
Proof.
  intro H. apply detect_fvgs_inv in H.
  destruct H as (dfa & i & c1 & c2 & c3 & kind & lo & hi & _ & _ & _ & ->).
  destruct (analyze_keeps_identity
              (new_gap dfa tf now i c1 c2 c3 kind lo hi) (skipn (i + 1) dfa) price)
    as (_ & _ & Ht & _).
  rewrite Ht. reflexivity.
Qed.

Lemma filter_all {A : Type} (f : A -> bool) (l : list A) :
  (forall x, In x l -> f x = true) -> filter f l = l.
Proof.
  induction l as [|x r IH]; intro H; simpl; [reflexivity|].
  rewrite (H x (or_introl eq_refl)). f_equal. apply IH.
  intros y Hy. apply H. right. exact Hy.
Qed.

Lemma filter_none {A : Type} (f : A -> bool) (l : list A) :
  (forall x, In x l -> f x = false) -> filter f l = [].
Proof.
  induction l as [|x r IH]; intro H; simpl; [reflexivity|].
  rewrite (H x (or_introl eq_refl)). apply IH.
  intros y Hy. apply H. right. exact Hy.
Qed.

Lemma total_gaps_length (l : list FairValueGap) (tf : string) :
  total_gaps (calculate_gap_statistics l tf) = length l.
Proof. destruct l; reflexivity. Qed.

Section Loop.

Variable fetch : string -> option (list Candle).
Variable df_1m : list Candle.
Variable price : Q.
Variable lookback : nat.
Variable now : nat -> Z.

Local Abbreviation found_for := (gaps_found fetch df_1m price lookback).

Lemma tf_step_spec (data : StrDict TimeframeEntry) (G : list FairValueGap)
  (k : nat) (tf0 : string) :
  exists e found,
    tf_step fetch df_1m price lookback now (data, G, k) tf0
    = (str_dict_set data tf0 e, (G ++ found)%list, S k)
    /\ fvg_count e = found_for tf0
    /\ length found = found_for tf0
    /\ forall g, In g found -> timeframe g = tf0.
Proof.
  unfold tf_step, gaps_found.
  destruct (tf_frame fetch df_1m tf0) as [[|c r]|].
  - exists (mkEntry 0 [] true), []. rewrite app_nil_r. repeat split. intros g [].
  - eexists. eexists. split; [reflexivity|]. cbn [fvg_count].
    split; [apply detect_fvgs_length_now|].
    split; [apply detect_fvgs_length_now|].
    intros g Hg. eapply detected_timeframe. exact Hg.
  - exists (mkEntry 0 [] true), []. rewrite app_nil_r. repeat split. intros g [].
Qed.

Lemma tf_loop_spec (tfs : list string) :
  forall (data : StrDict TimeframeEntry) (G : list FairValueGap) (k : nat),
  exists data' G' k',
    fold_left (tf_step fetch df_1m price lookback now) tfs (data, G, k)
    = (data', G', k')
    /\ (forall tf,
          length (filter (in_timeframe tf) G')
          = (length (filter (in_timeframe tf) G)
             + count_occ string_dec tfs tf * found_for tf)%nat)
    /\ (forall tf e,
          str_dict_get data' tf = Some e ->
          (In tf tfs /\ fvg_count e = found_for tf)
          \/ (~ In tf tfs /\ str_dict_get data tf = Some e)).
Proof.
  induction tfs as [|tf0 rest IH]; intros data G k.
  - exists data, G, k. split; [reflexivity|]. split.
    + intro tf. simpl. lia.
    + intros tf e H. right. split; [intros [] | exact H].
  - destruct (tf_step_spec data G k tf0) as (e0 & found & Hstep & Hc & Hl & Htf).
    cbn [fold_left]. rewrite Hstep.
    destruct (IH (str_dict_set data tf0 e0) (G ++ found)%list (S k))
      as (data' & G' & k' & Hfold & Hlen & Hget).
    exists data', G', k'. split; [exact Hfold|]. split.
    + intro tf. rewrite Hlen, filter_app, length_app. cbn [count_occ].
      destruct (string_dec tf0 tf) as [->|Hne].
      * rewrite (filter_all (in_timeframe tf) found).
        -- rewrite Hl. lia.
        -- intros g Hg. unfold in_timeframe. rewrite (Htf g Hg).
           apply String.eqb_refl.
      * rewrite (filter_none (in_timeframe tf) found).
        -- simpl. lia.
        -- intros g Hg. unfold in_timeframe. rewrite (Htf g Hg).
           apply String.eqb_neq. exact Hne.
    + intros tf e H. destruct (Hget tf e H) as [[Hin Hcount]|[Hnin Hd]].
      * left. split; [right; exact Hin | exact Hcount].
      * rewrite str_dict_get_set in Hd.
        destruct (String.eqb tf0 tf) eqn:E.
        -- apply String.eqb_eq in E. subst tf0. inversion Hd; subst.
           left. split; [left; reflexivity | exact Hc].
        -- apply String.eqb_neq in E. right. split; [|exact Hd].
           intros [Heq|Hin]; [contradiction | exact (Hnin Hin)].
Qed.

End Loop.

Lemma statistics_loop {A : Type} (F : string -> A) (tfs : list string) :
  forall (stats : StrDict A) (tf : string),
    str_dict_get (fold_left (fun s t => str_dict_set s t (F t)) tfs stats) tf
    = if in_dec string_dec tf tfs then Some (F tf) else str_dict_get stats tf.
Proof.
  induction tfs as [|tf0 rest IH]; intros stats tf.
  - reflexivity.
  - cbn [fold_left]. rewrite IH, str_dict_get_set.
    destruct (in_dec string_dec tf rest) as [Hin|Hnin];
      destruct (in_dec string_dec tf (tf0 :: rest)) as [Hin'|Hnin']; try reflexivity.
    + exfalso. apply Hnin'. right. exact Hin.
    + destruct Hin' as [->|Hin]; [|contradiction].
      rewrite String.eqb_refl. reflexivity.
    + destruct (String.eqb tf0 tf) eqn:E; [|reflexivity].
      apply String.eqb_eq in E. exfalso. apply Hnin'. left. exact E.
Qed.

(** X7.  The statistics count a timeframe once for every time it is requested.
    For a timeframe with an entry in [timeframe_data], the statistics hold
    an entry too, and its total is the entry's gap count multiplied by the
    number of times the timeframe occurs in the request; the two agree when
    no timeframe is requested twice. *)
Theorem statistics_count_requests
  (fetch : string -> option (list Candle)) (timeframes : option (list string))
  (lookback : nat) (now : nat -> Z) (clock : Q)
  (r : FvgSuccess) (tf : string) (e : TimeframeEntry) :
  financial_fvg_analysis fetch timeframes lookback now clock = fvg_success r ->
  str_dict_get (timeframe_data r) tf = Some e ->
  exists s,
    str_dict_get (gap_statistics r) tf = Some s
    /\ total_gaps s
       = (count_occ string_dec (requested timeframes) tf * fvg_count e)%nat
    /\ (NoDup (requested timeframes) -> total_gaps s = fvg_count e).
Proof.
  unfold financial_fvg_analysis.
  destruct (fetch "1min"%string) as [[|first rest]|]; try discriminate.
  cbv zeta.
  change (match timeframes with
          | Some l => l
          | None => default_timeframes
          end) with (requested timeframes).
  destruct (tf_loop_spec fetch (first :: rest) (c_close (last rest first)) lookback now
              (requested timeframes) [] [] 0%nat)
    as (data & G & k & Hfold & Hlen & Hget).
  destruct (fold_left _ (requested timeframes) _) as [[data' G'] k'] eqn:E.
  inversion Hfold; subst; clear Hfold E.
  intro H. inversion H; subst; clear H.
  cbn [timeframe_data gap_statistics]. intro He.
  destruct (Hget tf e He) as [[Hin Hcount]|[_ Hd]]; [|discriminate Hd].
  rewrite statistics_loop.
  destruct (in_dec string_dec tf (requested timeframes)) as [_|Hn]; [|contradiction].
  eexists. split; [reflexivity|].
  rewrite total_gaps_length, Hlen, Hcount. cbn [filter length Nat.add].
  split; [reflexivity|].
  intro Hnd. rewrite (proj1 (NoDup_count_occ' string_dec _) Hnd tf Hin). lia.
Qed.

Lemma statistics_count_requests_witness :
  exists r e s,
    financial_fvg_analysis constant_fetch (Some ["5m"; "5m"]%string) 500
      (fun _ => 0%Z) 36000 = fvg_success r
    /\ str_dict_get (timeframe_data r) "5m" = Some e
    /\ str_dict_get (gap_statistics r) "5m" = Some s
    /\ fvg_count e = 2%nat /\ total_gaps s = 4%nat.
Proof.
  assert (H : exists r e,
             financial_fvg_analysis constant_fetch (Some ["5m"; "5m"]%string) 500
               (fun _ => 0%Z) 36000 = fvg_success r
             /\ str_dict_get (timeframe_data r) "5m" = Some e
             /\ fvg_count e = 2%nat).
  { eexists. eexists. split; [vm_compute; reflexivity|].
    split; vm_compute; reflexivity. }
  destruct H as (r & e & Hr & He & Hc).
  destruct (statistics_count_requests _ _ _ _ _ r "5m"%string e Hr He)
    as (s & Hs & Ht & _).
  exists r, e, s. repeat split; try assumption.
  rewrite Ht, Hc. reflexivity.
Defined.

End FVGToolFacts.
